(** * FlatCAM Excellon parser: a shallow embedding of
      [flatcamParsers/ParseExcellon.py] (class [Excellon]).

    Conventions of the embedding.
    - Python [str] values are [string]s (code points below 256).
    - A finite Python [float] is the exact rational that it stands for
      ([Qc], canonical fractions, so that equality of numbers is Leibniz
      equality): rounding is outside the model, and arithmetic on finite
      floats, and on integers used as floats, is exact.  The range of the
      floats is kept where text is converted with [float] and in the
      arithmetic of [parse_number], whose [try] catches the exceptions of
      that arithmetic: see [Py.number].
      The coordinates and diameters that an object stores are finite;
      where the source goes on with an infinity, the model of the parser
      stops and says so ([Beyond]).
    - Python dictionaries used as maps ([self.tools]) are [gmap]s.
    - Shapely geometry is kept symbolic: a buffer is the record of the call
      that builds it. *)

From Stdlib Require Import ZArith QArith Qpower Qcanon Lia Ascii String.
From stdpp Require Import base strings gmap list pretty.

Local Open Scope string_scope.

(** ** Python primitives on strings and numbers *)

Module Py.

Definition is_digit (a : ascii) : bool :=
  (48 <=? nat_of_ascii a)%nat && (nat_of_ascii a <=? 57)%nat.

Definition digit_val (a : ascii) : Z := Z.of_nat (nat_of_ascii a) - 48.

Definition is_sign (a : ascii) : bool :=
  Ascii.eqb a "+" || Ascii.eqb a "-".

(** [\s] of a [str] pattern, restricted to code points below 256. *)
Definition is_space (a : ascii) : bool :=
  let n := nat_of_ascii a in
  ((9 <=? n) && (n <=? 13) || (28 <=? n) && (n <=? 32)
   || (n =? 133) || (n =? 160))%nat.

Definition newline : ascii := ascii_of_nat 10.
Definition carriage_return : ascii := ascii_of_nat 13.

(** [s.strip(' \r\n')] *)
Definition strip_set (a : ascii) : bool :=
  Ascii.eqb a " " || Ascii.eqb a carriage_return || Ascii.eqb a newline.

Fixpoint lstrip (cs : ascii -> bool) (s : string) : string :=
  match s with
  | String a s' => if cs a then lstrip cs s' else s
  | EmptyString => EmptyString
  end.

Fixpoint rstrip (cs : ascii -> bool) (s : string) : string :=
  match s with
  | String a s' =>
      let r := rstrip cs s' in
      if String.eqb r "" && cs a then "" else String a r
  | EmptyString => EmptyString
  end.

Definition strip (cs : ascii -> bool) (s : string) : string :=
  rstrip cs (lstrip cs s).

(** [s.upper()] and [s.lower()], on the ASCII letters. *)
Definition upper_ascii (a : ascii) : ascii :=
  let n := nat_of_ascii a in
  if ((97 <=? n) && (n <=? 122))%nat then ascii_of_nat (n - 32) else a.

Definition lower_ascii (a : ascii) : ascii :=
  let n := nat_of_ascii a in
  if ((65 <=? n) && (n <=? 90))%nat then ascii_of_nat (n + 32) else a.

Fixpoint map_string (f : ascii -> ascii) (s : string) : string :=
  match s with
  | String a s' => String (f a) (map_string f s')
  | EmptyString => EmptyString
  end.

Definition upper : string -> string := map_string upper_ascii.
Definition lower : string -> string := map_string lower_ascii.

(** [needle in hay] *)
Fixpoint str_in (needle hay : string) : bool :=
  String.prefix needle hay ||
  match hay with
  | String _ hay' => str_in needle hay'
  | EmptyString => false
  end.

(** [s.partition('.')]: the text before the first period and the text after
    it (empty when there is no period). *)
Fixpoint partition_dot (s : string) : string * string :=
  match s with
  | String a s' =>
      if Ascii.eqb a "."
      then ("", s')
      else let '(l, r) := partition_dot s' in (String a l, r)
  | EmptyString => ("", "")
  end.

(** Numbers. *)
Definition Zq (z : Z) : Qc := Q2Qc (inject_Z z).

(** [10 ** e] for an integral exponent [e] of either sign. *)
Definition pow10 (e : Z) : Qc := Q2Qc (Qpower (10 # 1) e).

(** Horner evaluation of a run of decimal digits. *)
Fixpoint digits_value (acc : Z) (s : string) : option Z :=
  match s with
  | String a s' =>
      if is_digit a then digits_value (acc * 10 + digit_val a) s' else None
  | EmptyString => Some acc
  end.

(** [int(s)] on an optionally signed, non-empty run of digits; [None] is
    [ValueError].  (Underscores and surrounding blanks, which [int] also
    accepts, never reach the calls of the parser: its arguments are
    [\d+] groups.) *)
Definition int (s : string) : option Z :=
  match s with
  | String a s' =>
      if Ascii.eqb a "-" then
        match s' with
        | EmptyString => None
        | _ => Z.opp <$> digits_value 0 s'
        end
      else if Ascii.eqb a "+" then
        match s' with
        | EmptyString => None
        | _ => digits_value 0 s'
        end
      else digits_value 0 s
  | EmptyString => None
  end.

(** [str(n)] for a non-negative integer. *)
Definition str (n : Z) : string := pretty (Z.to_N n).

(** The literals of [float(s)], after the grammar of the Python reference:
    [[sign] (digitpart ["." [digitpart]] | "." digitpart) [exponent]] with
    [digitpart ::= digit (["_"] digit)*] and
    [exponent ::= ("e"|"E") [sign] digitpart].  [None] is [ValueError].
    The literals [inf] and [nan] and surrounding blanks are not modelled:
    no group of the parser's patterns can hold them. *)

(** the tail [(["_"] digit)*] of a digit part: value so far, number of
    digits so far, rest of the text *)
Fixpoint digitpart_tail (acc : Z) (n : nat) (s : string) : Z * nat * string :=
  match s with
  | String a s' =>
      if is_digit a then digitpart_tail (acc * 10 + digit_val a) (S n) s'
      else if Ascii.eqb a "_" then
        match s' with
        | String b s'' =>
            if is_digit b
            then digitpart_tail (acc * 10 + digit_val b) (S n) s''
            else (acc, n, s)
        | EmptyString => (acc, n, s)
        end
      else (acc, n, s)
  | EmptyString => (acc, n, s)
  end.

Definition digitpart (s : string) : option (Z * nat * string) :=
  match s with
  | String a s' =>
      if is_digit a then Some (digitpart_tail (digit_val a) 1 s') else None
  | EmptyString => None
  end.

(** the mantissa: value and rest of the text *)
Definition float_number (s : string) : option (Qc * string) :=
  match digitpart s with
  | Some (ip, _, r) =>
      match r with
      | String a r' =>
          if Ascii.eqb a "." then
            match digitpart r' with
            | Some (fp, nf, r'') =>
                Some ((Zq ip + Zq fp / pow10 (Z.of_nat nf))%Qc, r'')
            | None => Some (Zq ip, r')
            end
          else Some (Zq ip, r)
      | EmptyString => Some (Zq ip, r)
      end
  | None =>
      match s with
      | String a r' =>
          if Ascii.eqb a "." then
            match digitpart r' with
            | Some (fp, nf, r'') => Some ((Zq fp / pow10 (Z.of_nat nf))%Qc, r'')
            | None => None
            end
          else None
      | EmptyString => None
      end
  end.

(** the exponent, which must reach the end of the text *)
Definition float_exponent (s : string) : option Z :=
  match s with
  | EmptyString => Some 0%Z
  | String a s' =>
      if Ascii.eqb a "e" || Ascii.eqb a "E" then
        let '(neg, s'') :=
          match s' with
          | String b t =>
              if Ascii.eqb b "-" then (true, t)
              else if Ascii.eqb b "+" then (false, t)
              else (false, s')
          | EmptyString => (false, s')
          end in
        match digitpart s'' with
        | Some (e, _, EmptyString) => Some (if neg then (- e)%Z else e)
        | _ => None
        end
      else None
  end.

Definition float_abs (s : string) : option Qc :=
  match float_number s with
  | Some (m, r) =>
      match float_exponent r with
      | Some 0%Z => Some m
      | Some e => Some (m * pow10 e)%Qc
      | None => None
      end
  | None => None
  end.

(** the exact value of the literal [s] *)
Definition float_literal (s : string) : option Qc :=
  match s with
  | String a s' =>
      if Ascii.eqb a "-" then Qcopp <$> float_abs s'
      else if Ascii.eqb a "+" then float_abs s'
      else float_abs s
  | EmptyString => None
  end.

(** The range of the floats (IEEE 754 binary64).  A float is a finite
    number or an infinity.  A value becomes an infinity when its magnitude
    reaches [float_limit], half-way from the largest finite float,
    [2^1024 - 2^971], to [2^1024]. *)
Inductive number : Type :=
| Finite (q : Qc)
| Infinite (negative : bool).

Definition float_limit : Qc := Zq (2 ^ 1024 - 2 ^ 970).

Definition is_negative (q : Qc) : bool := negb (Qle_bool 0 q).

Definition overflows (q : Qc) : bool :=
  Qle_bool float_limit q || Qle_bool float_limit (- q)%Qc.

Definition round (q : Qc) : number :=
  if overflows q then Infinite (is_negative q) else Finite q.

(** [float(s)]: a literal beyond the range gives an infinity *)
Definition float (s : string) : option number := round <$> float_literal s.

(** [10 ** x] for a float [x] with an integral value.  [None] is
    [OverflowError], raised from [10 ** 309.0] on; from [10 ** -324.0]
    down the power is [0.0]. *)
Definition float_pow10 (x : Z) : option Qc :=
  if (308 <? x)%Z then None
  else if (x <? -323)%Z then Some 0%Qc
  else Some (pow10 x).

(** [v / p] on floats.  [None] is [ZeroDivisionError]; a quotient beyond
    the range is an infinity, without an exception. *)
Definition truediv (v : number) (p : Qc) : option number :=
  if Qeq_bool p 0 then None
  else
    match v with
    | Finite q => Some (round (q / p)%Qc)
    | Infinite n => Some (Infinite (xorb n (is_negative p)))
    end.

End Py.

(** ** A backtracking matcher for the fragment of Python's [re] syntax that
    the parser's patterns use

    Repetition ([*], [+]) only ever applies to a single character class in
    these patterns, so [Star] takes a class.  Alternatives are tried left to
    right, repetition and [?] are greedy, and a look-ahead keeps the groups
    of its first match, as in [re]. *)

Module Re.

Inductive regex : Type :=
| Eps
| Bol                      (* ^ *)
| Eol                      (* $ *)
| Chr (c : ascii -> bool)  (* one character of a class *)
| Seq (r1 r2 : regex)
| Alt (r1 r2 : regex)      (* r1|r2 *)
| Star (c : ascii -> bool) (* c* *)
| Opt (r : regex)          (* r? *)
| Grp (n : nat) (r : regex)  (* capturing group number n *)
| Ahead (r : regex)        (* (?=r) *)
| NotAhead (r : regex).    (* (?!r) *)

(** the groups set so far, most recent first *)
Definition groups := list (nat * string).

Fixpoint group_lookup (n : nat) (gs : groups) : option string :=
  match gs with
  | (k, v) :: gs' => if Nat.eqb k n then Some v else group_lookup n gs'
  | [] => None
  end.

(** [$]: at the end of the text, or before a newline that ends it *)
Definition at_eol (s : string) : bool :=
  match s with
  | EmptyString => true
  | String a EmptyString => Ascii.eqb a Py.newline
  | _ => false
  end.

Fixpoint star {R : Type} (c : ascii -> bool) (pos : nat) (s : string)
    (k : nat -> string -> option R) : option R :=
  match s with
  | String a s' =>
      if c a then
        match star c (S pos) s' k with
        | Some r => Some r
        | None => k pos s
        end
      else k pos s
  | EmptyString => k pos s
  end.

(** [run r pos s gs k]: match [r] at offset [pos], where the text that
    remains is [s]; [k] is what must match after [r]. *)
Fixpoint run (r : regex) {R : Type} (pos : nat) (s : string) (gs : groups)
    (k : nat -> string -> groups -> option R) : option R :=
  match r with
  | Eps => k pos s gs
  | Bol => if Nat.eqb pos 0 then k pos s gs else None
  | Eol => if at_eol s then k pos s gs else None
  | Chr c =>
      match s with
      | String a s' => if c a then k (S pos) s' gs else None
      | EmptyString => None
      end
  | Seq r1 r2 => run r1 pos s gs (fun pos' s' gs' => run r2 pos' s' gs' k)
  | Alt r1 r2 =>
      match run r1 pos s gs k with
      | Some x => Some x
      | None => run r2 pos s gs k
      end
  | Star c => star c pos s (fun pos' s' => k pos' s' gs)
  | Opt r1 =>
      match run r1 pos s gs k with
      | Some x => Some x
      | None => k pos s gs
      end
  | Grp n r1 =>
      run r1 pos s gs
        (fun pos' s' gs' => k pos' s' ((n, substring 0 (pos' - pos) s) :: gs'))
  | Ahead r1 =>
      match run r1 pos s gs (fun _ _ gs' => Some gs') with
      | Some gs' => k pos s gs'
      | None => None
      end
  | NotAhead r1 =>
      match run r1 pos s gs (fun _ _ _ => Some tt) with
      | Some _ => None
      | None => k pos s gs
      end
  end.

(** a match object: the matched text and the groups *)
Record rmatch : Type := { whole : string; caps : groups }.

Definition group (m : rmatch) (n : nat) : option string :=
  group_lookup n (caps m).

Definition match_at (r : regex) (pos : nat) (s : string) : option rmatch :=
  run r pos s []
    (fun pos' _ gs => Some {| whole := substring 0 (pos' - pos) s; caps := gs |}).

(** [r.match(s)] *)
Definition match_ (r : regex) (s : string) : option rmatch := match_at r 0 s.

(** [r.search(s)]: the first offset at which [r] matches *)
Fixpoint search_from (r : regex) (pos : nat) (s : string) : option rmatch :=
  match match_at r pos s with
  | Some m => Some m
  | None =>
      match s with
      | String _ s' => search_from r (S pos) s'
      | EmptyString => None
      end
  end.

Definition search (r : regex) (s : string) : option rmatch := search_from r 0 s.

(** Pattern syntax. *)
Definition chr (a : ascii) : regex := Chr (Ascii.eqb a).

Fixpoint lit (s : string) : regex :=
  match s with
  | String a EmptyString => chr a
  | String a s' => Seq (chr a) (lit s')
  | EmptyString => Eps
  end.

Definition one_of (s : string) : ascii -> bool :=
  fun a => Py.str_in (String a "") s.

Definition none_of (s : string) : ascii -> bool :=
  fun a => negb (one_of s a).

(** [.]: any character but a newline *)
Definition dot : ascii -> bool := fun a => negb (Ascii.eqb a Py.newline).

Definition digit : ascii -> bool := Py.is_digit.
Definition space : ascii -> bool := Py.is_space.

Definition Plus (c : ascii -> bool) : regex := Seq (Chr c) (Star c).

End Re.

(** ** The patterns compiled in [Excellon.__init__]

    Each pattern is quoted above its definition; where the source has a
    star directly before a closing parenthesis, the quotation puts a blank
    between the two. *)

Module Patterns.
Import Re.

Definition seq (rs : list regex) : regex := foldr Seq Eps rs.

(** [(?=.*<letter><field>)?]: an optional look-ahead for a field that
    follows [letter] somewhere on the rest of the line *)
Definition field_ahead (letter : ascii) (n : nat) (field : regex) : regex :=
  Opt (Ahead (seq [Star dot; chr letter; Grp n field])).

(** [\d*\.?\d*] *)
Definition opt_decimal : regex := seq [Star digit; Opt (chr "."); Star digit].
(** [[-\+]?] *)
Definition opt_sign : regex := Opt (Chr (one_of "-+")).

(** [^M48$] *)
Definition hbegin_re : regex := seq [Bol; lit "M48"; Eol].

(** [\;\s*(HEADER)] *)
Definition allegro_hbegin_re : regex :=
  seq [chr ";"; Star space; Grp 1 (lit "HEADER")].

(** [^(?:M95|%)$] *)
Definition hend_re : regex := seq [Bol; Alt (lit "M95") (lit "%"); Eol].

(** [^(INCH|METRIC)(?:,([TL])Z)?,?(\d*\.\d+)?.*$] *)
Definition units_re : regex :=
  seq [Bol; Grp 1 (Alt (lit "INCH") (lit "METRIC"));
       Opt (seq [chr ","; Grp 2 (Chr (one_of "TL")); chr "Z"]);
       Opt (chr ",");
       Opt (Grp 3 (seq [Star digit; chr "."; Plus digit]));
       Star dot; Eol].

(** [^T(\d+)(?=.*C,?(\d*\.?\d* ))?(?=.*F(\d*\.?\d* ))?(?=.*S(\d*\.?\d* ))?]
    [(?=.*B(\d*\.?\d* ))?(?=.*H(\d*\.?\d* ))?(?=.*Z([-\+]?\d*\.?\d* ))?[CFSBHT]] *)
Definition toolset_re : regex :=
  seq [Bol; chr "T"; Grp 1 (Plus digit);
       Opt (Ahead (seq [Star dot; chr "C"; Opt (chr ","); Grp 2 opt_decimal]));
       field_ahead "F" 3 opt_decimal;
       field_ahead "S" 4 opt_decimal;
       field_ahead "B" 5 opt_decimal;
       field_ahead "H" 6 opt_decimal;
       field_ahead "Z" 7 (seq [opt_sign; opt_decimal]);
       Chr (one_of "CFSBHT")].

(** [^G2([01])$] *)
Definition detect_gcode_re : regex :=
  seq [Bol; lit "G2"; Grp 1 (Chr (one_of "01")); Eol].

(** [^T(\d+)] *)
Definition toolsel_re : regex := seq [Bol; chr "T"; Grp 1 (Plus digit)].

(** [^T(\d+)(?:.?C(\d+\.?\d* ))?] *)
Definition toolset_hl_re : regex :=
  seq [Bol; chr "T"; Grp 1 (Plus digit);
       Opt (seq [Opt (Chr dot); chr "C";
                 Grp 2 (seq [Plus digit; Opt (chr "."); Star digit])])].

(** [^;(.* )$] *)
Definition comm_re : regex := seq [Bol; chr ";"; Grp 1 (Star dot); Eol].

(** [^G9([01])$] *)
Definition absinc_re : regex :=
  seq [Bol; lit "G9"; Grp 1 (Chr (one_of "01")); Eol].

(** [^M7([12])$] *)
Definition meas_re : regex :=
  seq [Bol; lit "M7"; Grp 1 (Chr (one_of "12")); Eol].

(** [(?=.*X([-\+]?\d*\.\d* ))?(?=.*Y([-\+]?\d*\.\d* ))?[XY]] *)
Definition coordsperiod_re : regex :=
  seq [field_ahead "X" 1 (seq [opt_sign; Star digit; chr "."; Star digit]);
       field_ahead "Y" 2 (seq [opt_sign; Star digit; chr "."; Star digit]);
       Chr (one_of "XY")].

(** [(?!.*\.)(?=.*X([-\+]?\d* ))?(?=.*Y([-\+]?\d* ))?[XY]] *)
Definition coordsnoperiod_re : regex :=
  seq [NotAhead (seq [Star dot; chr "."]);
       field_ahead "X" 1 (seq [opt_sign; Star digit]);
       field_ahead "Y" 2 (seq [opt_sign; Star digit]);
       Chr (one_of "XY")].

(** [^([^G]+)G85(.* )$] *)
Definition slots_re : regex :=
  seq [Bol; Grp 1 (Plus (none_of "G")); lit "G85"; Grp 2 (Star dot); Eol].

(** [^((G04)|(M09)|(M06)|(M00)|(M30))] *)
Definition stop_re : regex :=
  seq [Bol;
       Grp 1 (Alt (Grp 2 (lit "G04"))
             (Alt (Grp 3 (lit "M09"))
             (Alt (Grp 4 (lit "M06"))
             (Alt (Grp 5 (lit "M00")) (Grp 6 (lit "M30"))))))].

(** [(\;\s*Holesize \d+.\s*\=\s*(\d+.\d+).*(MILS|MM))] *)
Definition tool_units_re : regex :=
  Grp 1 (seq [chr ";"; Star space; lit "Holesize "; Plus digit; Chr dot;
              Star space; chr "="; Star space;
              Grp 2 (seq [Plus digit; Chr dot; Plus digit]);
              Star dot; Grp 3 (Alt (lit "MILS") (lit "MM"))]).

(** [^;\s*(?:FILE_FORMAT)?(?:Format)?[=|:]\s*(\d+)[:|.](\d+).*$] *)
Definition altium_format : regex :=
  seq [Bol; chr ";"; Star space; Opt (lit "FILE_FORMAT"); Opt (lit "Format");
       Chr (one_of "=|:"); Star space; Grp 1 (Plus digit);
       Chr (one_of ":|."); Grp 2 (Plus digit); Star dot; Eol].

(** [^[-\+]?(0* )(\d* )] *)
Definition leadingzeros_re : regex :=
  seq [Bol; opt_sign; Grp 1 (Star (Ascii.eqb "0")); Grp 2 (Star digit)].

(** [R(\d+)] *)
Definition repeat_re : regex := seq [chr "R"; Grp 1 (Plus digit)].

(** the patterns written inline in [parse_lines]: [[LT]Z], [G00], [G01] *)
Definition zeros_re : regex := seq [Chr (one_of "LT"); chr "Z"].
Definition g00_re : regex := lit "G00".
Definition g01_re : regex := lit "G01".

End Patterns.

(** ** The data model of class [Excellon] *)

Import Re Patterns.

(** [shapely.geometry.Point] *)
Record Point : Type := { pt_x : Qc; pt_y : Qc }.

(** Solid geometry, symbolically: [Point.buffer(distance, resolution)],
    [LineString([start, stop]).buffer(distance, resolution)], and the image
    of a shape under [shapely.affinity.scale]. *)
Inductive shape : Type :=
| PointBuffer (p : Point) (distance : Qc) (resolution : Z)
| LineBuffer (start stop : Point) (distance : Qc) (resolution : Z)
| Scaled (g : shape) (xfact yfact : Qc) (origin : Qc * Qc).

(** a geometry is a shape or a (nested) list of geometries *)
#[warnings="-register-all"]
Inductive geom : Type :=
| Shape (g : shape)
| GList (l : list geom).

(** an entry of [self.tools]: keys ['C'] and ['solid_geometry'] (every tool
    that this class stores has both) *)
Record Tool : Type := { tool_C : Qc; tool_solid_geometry : list geom }.

(** an entry of [self.drills]: keys ['point'] and ['tool'] *)
Record Drill : Type := { drill_point : Point; drill_tool : string }.

(** an entry of [self.slots]: keys ['start'], ['stop'] and ['tool'] *)
Record Slot : Type :=
  { slot_start : Point; slot_stop : Point; slot_tool : string }.

(** The attributes of an [Excellon] object that the parser, the geometry
    synthesis and the transformations read or write.  [excellon_drills]
    is the entry of that name in the class dictionary [defaults] ([None]
    while it is absent); [inform] collects the messages sent with
    [self.app.inform.emit].  Number formats are digit counts: the source
    keeps them as text or integers and converts them with [float] where
    they are used.  Calls of the module logger and the progress display of
    the GUI are not part of the model. *)
Record Excellon : Type := Build_Excellon {
  tools : gmap string Tool;
  drills : list Drill;
  slots : list Slot;
  solid_geometry : list geom;
  source_file : string;
  routing_flag : Z;
  match_routing_start : option string;
  match_routing_stop : option string;
  units : string;
  zeros : option string;
  toolless_diam : Qc;
  diameterless : bool;
  excellon_format_upper_in : Z;
  excellon_format_lower_in : Z;
  excellon_format_upper_mm : Z;
  excellon_format_lower_mm : Z;
  excellon_units : string;
  excellon_format : option string;
  geo_steps_per_circle : Z;
  file_units_factor : option Qc;
  excellon_drills : option bool;
  inform : list string
}.

Definition set_tools (v : gmap string Tool) (s : Excellon) : Excellon :=
  Build_Excellon v (drills s) (slots s) (solid_geometry s) (source_file s)
    (routing_flag s) (match_routing_start s) (match_routing_stop s) (units s)
    (zeros s) (toolless_diam s) (diameterless s) (excellon_format_upper_in s)
    (excellon_format_lower_in s) (excellon_format_upper_mm s)
    (excellon_format_lower_mm s) (excellon_units s) (excellon_format s)
    (geo_steps_per_circle s) (file_units_factor s) (excellon_drills s)
    (inform s).

Definition set_drills (v : list Drill) (s : Excellon) : Excellon :=
  Build_Excellon (tools s) v (slots s) (solid_geometry s) (source_file s)
    (routing_flag s) (match_routing_start s) (match_routing_stop s) (units s)
    (zeros s) (toolless_diam s) (diameterless s) (excellon_format_upper_in s)
    (excellon_format_lower_in s) (excellon_format_upper_mm s)
    (excellon_format_lower_mm s) (excellon_units s) (excellon_format s)
    (geo_steps_per_circle s) (file_units_factor s) (excellon_drills s)
    (inform s).

Definition set_slots (v : list Slot) (s : Excellon) : Excellon :=
  Build_Excellon (tools s) (drills s) v (solid_geometry s) (source_file s)
    (routing_flag s) (match_routing_start s) (match_routing_stop s) (units s)
    (zeros s) (toolless_diam s) (diameterless s) (excellon_format_upper_in s)
    (excellon_format_lower_in s) (excellon_format_upper_mm s)
    (excellon_format_lower_mm s) (excellon_units s) (excellon_format s)
    (geo_steps_per_circle s) (file_units_factor s) (excellon_drills s)
    (inform s).

Definition set_solid_geometry (v : list geom) (s : Excellon) : Excellon :=
  Build_Excellon (tools s) (drills s) (slots s) v (source_file s)
    (routing_flag s) (match_routing_start s) (match_routing_stop s) (units s)
    (zeros s) (toolless_diam s) (diameterless s) (excellon_format_upper_in s)
    (excellon_format_lower_in s) (excellon_format_upper_mm s)
    (excellon_format_lower_mm s) (excellon_units s) (excellon_format s)
    (geo_steps_per_circle s) (file_units_factor s) (excellon_drills s)
    (inform s).

Definition set_source_file (v : string) (s : Excellon) : Excellon :=
  Build_Excellon (tools s) (drills s) (slots s) (solid_geometry s) v
    (routing_flag s) (match_routing_start s) (match_routing_stop s) (units s)
    (zeros s) (toolless_diam s) (diameterless s) (excellon_format_upper_in s)
    (excellon_format_lower_in s) (excellon_format_upper_mm s)
    (excellon_format_lower_mm s) (excellon_units s) (excellon_format s)
    (geo_steps_per_circle s) (file_units_factor s) (excellon_drills s)
    (inform s).

Definition set_routing_flag (v : Z) (s : Excellon) : Excellon :=
  Build_Excellon (tools s) (drills s) (slots s) (solid_geometry s)
    (source_file s) v (match_routing_start s) (match_routing_stop s) (units s)
    (zeros s) (toolless_diam s) (diameterless s) (excellon_format_upper_in s)
    (excellon_format_lower_in s) (excellon_format_upper_mm s)
    (excellon_format_lower_mm s) (excellon_units s) (excellon_format s)
    (geo_steps_per_circle s) (file_units_factor s) (excellon_drills s)
    (inform s).

Definition set_match_routing_start (v : option string) (s : Excellon) : Excellon :=
  Build_Excellon (tools s) (drills s) (slots s) (solid_geometry s)
    (source_file s) (routing_flag s) v (match_routing_stop s) (units s)
    (zeros s) (toolless_diam s) (diameterless s) (excellon_format_upper_in s)
    (excellon_format_lower_in s) (excellon_format_upper_mm s)
    (excellon_format_lower_mm s) (excellon_units s) (excellon_format s)
    (geo_steps_per_circle s) (file_units_factor s) (excellon_drills s)
    (inform s).

Definition set_match_routing_stop (v : option string) (s : Excellon) : Excellon :=
  Build_Excellon (tools s) (drills s) (slots s) (solid_geometry s)
    (source_file s) (routing_flag s) (match_routing_start s) v (units s)
    (zeros s) (toolless_diam s) (diameterless s) (excellon_format_upper_in s)
    (excellon_format_lower_in s) (excellon_format_upper_mm s)
    (excellon_format_lower_mm s) (excellon_units s) (excellon_format s)
    (geo_steps_per_circle s) (file_units_factor s) (excellon_drills s)
    (inform s).

Definition set_units (v : string) (s : Excellon) : Excellon :=
  Build_Excellon (tools s) (drills s) (slots s) (solid_geometry s)
    (source_file s) (routing_flag s) (match_routing_start s)
    (match_routing_stop s) v (zeros s) (toolless_diam s) (diameterless s)
    (excellon_format_upper_in s) (excellon_format_lower_in s)
    (excellon_format_upper_mm s) (excellon_format_lower_mm s)
    (excellon_units s) (excellon_format s) (geo_steps_per_circle s)
    (file_units_factor s) (excellon_drills s) (inform s).

Definition set_zeros (v : option string) (s : Excellon) : Excellon :=
  Build_Excellon (tools s) (drills s) (slots s) (solid_geometry s)
    (source_file s) (routing_flag s) (match_routing_start s)
    (match_routing_stop s) (units s) v (toolless_diam s) (diameterless s)
    (excellon_format_upper_in s) (excellon_format_lower_in s)
    (excellon_format_upper_mm s) (excellon_format_lower_mm s)
    (excellon_units s) (excellon_format s) (geo_steps_per_circle s)
    (file_units_factor s) (excellon_drills s) (inform s).

Definition set_diameterless (v : bool) (s : Excellon) : Excellon :=
  Build_Excellon (tools s) (drills s) (slots s) (solid_geometry s)
    (source_file s) (routing_flag s) (match_routing_start s)
    (match_routing_stop s) (units s) (zeros s) (toolless_diam s) v
    (excellon_format_upper_in s) (excellon_format_lower_in s)
    (excellon_format_upper_mm s) (excellon_format_lower_mm s)
    (excellon_units s) (excellon_format s) (geo_steps_per_circle s)
    (file_units_factor s) (excellon_drills s) (inform s).

Definition set_excellon_format_upper_in (v : Z) (s : Excellon) : Excellon :=
  Build_Excellon (tools s) (drills s) (slots s) (solid_geometry s)
    (source_file s) (routing_flag s) (match_routing_start s)
    (match_routing_stop s) (units s) (zeros s) (toolless_diam s)
    (diameterless s) v (excellon_format_lower_in s)
    (excellon_format_upper_mm s) (excellon_format_lower_mm s)
    (excellon_units s) (excellon_format s) (geo_steps_per_circle s)
    (file_units_factor s) (excellon_drills s) (inform s).

Definition set_excellon_format_lower_in (v : Z) (s : Excellon) : Excellon :=
  Build_Excellon (tools s) (drills s) (slots s) (solid_geometry s)
    (source_file s) (routing_flag s) (match_routing_start s)
    (match_routing_stop s) (units s) (zeros s) (toolless_diam s)
    (diameterless s) (excellon_format_upper_in s) v
    (excellon_format_upper_mm s) (excellon_format_lower_mm s)
    (excellon_units s) (excellon_format s) (geo_steps_per_circle s)
    (file_units_factor s) (excellon_drills s) (inform s).

Definition set_excellon_format_upper_mm (v : Z) (s : Excellon) : Excellon :=
  Build_Excellon (tools s) (drills s) (slots s) (solid_geometry s)
    (source_file s) (routing_flag s) (match_routing_start s)
    (match_routing_stop s) (units s) (zeros s) (toolless_diam s)
    (diameterless s) (excellon_format_upper_in s) (excellon_format_lower_in s)
    v (excellon_format_lower_mm s) (excellon_units s) (excellon_format s)
    (geo_steps_per_circle s) (file_units_factor s) (excellon_drills s)
    (inform s).

Definition set_excellon_format_lower_mm (v : Z) (s : Excellon) : Excellon :=
  Build_Excellon (tools s) (drills s) (slots s) (solid_geometry s)
    (source_file s) (routing_flag s) (match_routing_start s)
    (match_routing_stop s) (units s) (zeros s) (toolless_diam s)
    (diameterless s) (excellon_format_upper_in s) (excellon_format_lower_in s)
    (excellon_format_upper_mm s) v (excellon_units s) (excellon_format s)
    (geo_steps_per_circle s) (file_units_factor s) (excellon_drills s)
    (inform s).

Definition set_excellon_format (v : option string) (s : Excellon) : Excellon :=
  Build_Excellon (tools s) (drills s) (slots s) (solid_geometry s)
    (source_file s) (routing_flag s) (match_routing_start s)
    (match_routing_stop s) (units s) (zeros s) (toolless_diam s)
    (diameterless s) (excellon_format_upper_in s) (excellon_format_lower_in s)
    (excellon_format_upper_mm s) (excellon_format_lower_mm s)
    (excellon_units s) v (geo_steps_per_circle s) (file_units_factor s)
    (excellon_drills s) (inform s).

Definition set_file_units_factor (v : option Qc) (s : Excellon) : Excellon :=
  Build_Excellon (tools s) (drills s) (slots s) (solid_geometry s)
    (source_file s) (routing_flag s) (match_routing_start s)
    (match_routing_stop s) (units s) (zeros s) (toolless_diam s)
    (diameterless s) (excellon_format_upper_in s) (excellon_format_lower_in s)
    (excellon_format_upper_mm s) (excellon_format_lower_mm s)
    (excellon_units s) (excellon_format s) (geo_steps_per_circle s) v
    (excellon_drills s) (inform s).

Definition set_excellon_drills (v : option bool) (s : Excellon) : Excellon :=
  Build_Excellon (tools s) (drills s) (slots s) (solid_geometry s)
    (source_file s) (routing_flag s) (match_routing_start s)
    (match_routing_stop s) (units s) (zeros s) (toolless_diam s)
    (diameterless s) (excellon_format_upper_in s) (excellon_format_lower_in s)
    (excellon_format_upper_mm s) (excellon_format_lower_mm s)
    (excellon_units s) (excellon_format s) (geo_steps_per_circle s)
    (file_units_factor s) v (inform s).

Definition set_inform (v : list string) (s : Excellon) : Excellon :=
  Build_Excellon (tools s) (drills s) (slots s) (solid_geometry s)
    (source_file s) (routing_flag s) (match_routing_start s)
    (match_routing_stop s) (units s) (zeros s) (toolless_diam s)
    (diameterless s) (excellon_format_upper_in s) (excellon_format_lower_in s)
    (excellon_format_upper_mm s) (excellon_format_lower_mm s)
    (excellon_units s) (excellon_format s) (geo_steps_per_circle s)
    (file_units_factor s) (excellon_drills s) v.


(** ** Geometry synthesis and transformations *)

Local Open Scope Qc_scope.

(** how a Python call ends: normally with a value, or with an exception
    (the state reached so far is kept in both cases) *)
Inductive result (A : Type) : Type :=
| Normal (a : A)
| Raised (a : A).
Arguments Normal {A} a.
Arguments Raised {A} a.

(** what a method returns: [None] or the string ["fail"].  [RetBeyond] is
    not a value of the source: it marks a run of [parse_lines] that the
    model does not follow to its end, because a float became an infinity
    (see [Beyond]). *)
Inductive retval : Type := RetNone | RetFail | RetBeyond.

Definition emit (msg : string) (e : Excellon) : Excellon :=
  set_inform (inform e ++ [msg]) e.

Definition nl : string := String Py.newline "".

Definition drill_skipped_msg : string :=
  "[WARNING] Excellon.create_geometry() -> a drill location was skipped "
  +:+ "due of not having a tool associated." +:+ nl
  +:+ "Check the resulting GCode.".

(** [int(int(self.geo_steps_per_circle) / 4)] *)
Definition buffer_resolution (e : Excellon) : Z :=
  Z.quot (geo_steps_per_circle e) 4.

(** [self.solid_geometry.append(poly)] followed by
    [self.tools[name]['solid_geometry'].append(poly)], where [t] is the
    entry found under [name] *)
Definition append_geometry (name : string) (t : Tool) (poly : geom)
    (e : Excellon) : Excellon :=
  set_tools
    (<[name := {| tool_C := tool_C t;
                  tool_solid_geometry := tool_solid_geometry t ++ [poly] |}]>
       (tools e))
    (set_solid_geometry (solid_geometry e ++ [poly]) e).

(** the loop [for drill in self.drills]; a missing key raises [KeyError] *)
Fixpoint create_drills (ds : list Drill) (e : Excellon) : result Excellon :=
  match ds with
  | [] => Normal e
  | drill :: ds' =>
      if String.eqb (drill_tool drill) ""
      then create_drills ds' (emit drill_skipped_msg e)
      else
        match tools e !! drill_tool drill with
        | None => Raised e
        | Some t =>
            let tooldia := tool_C t in
            let poly :=
              Shape (PointBuffer (drill_point drill) (tooldia / Py.Zq 2)
                       (buffer_resolution e)) in
            create_drills ds' (append_geometry (drill_tool drill) t poly e)
        end
  end.

(** the loop [for slot in self.slots] *)
Fixpoint create_slots (ss : list Slot) (e : Excellon) : result Excellon :=
  match ss with
  | [] => Normal e
  | slot :: ss' =>
      match tools e !! slot_tool slot with
      | None => Raised e
      | Some t =>
          let slot_tooldia := tool_C t in
          let poly :=
            Shape (LineBuffer (slot_start slot) (slot_stop slot)
                     (slot_tooldia / Py.Zq 2) (buffer_resolution e)) in
          create_slots ss' (append_geometry (slot_tool slot) t poly e)
      end
  end.

Definition clear_geometry (t : Tool) : Tool :=
  {| tool_C := tool_C t; tool_solid_geometry := [] |}.

(** [Excellon.create_geometry]: any exception is caught and turned into
    the return value ["fail"] *)
Definition create_geometry (e : Excellon) : retval * Excellon :=
  let e := set_solid_geometry [] e in
  let e := set_tools (clear_geometry <$> tools e) e in
  match create_drills (drills e) e with
  | Raised e' => (RetFail, e')
  | Normal e' =>
      match create_slots (slots e') e' with
      | Raised e'' => (RetFail, e'')
      | Normal e'' => (RetNone, e'')
      end
  end.

(** [shapely.affinity.scale(p, xfact, yfact, origin=(x0, y0))] on a point:
    the affine map with matrix [(xfact, 0, 0, yfact)] and offsets
    [x0 - x0 * xfact], [y0 - y0 * yfact] *)
Definition affinity_scale (p : Point) (xfact yfact : Qc) (origin : Qc * Qc)
    : Point :=
  let '(x0, y0) := origin in
  {| pt_x := xfact * pt_x p + 0 * pt_y p + (x0 - x0 * xfact);
     pt_y := 0 * pt_x p + yfact * pt_y p + (y0 - y0 * yfact) |}.

(** the local function [scale_geom] of [Excellon.scale] *)
Fixpoint scale_geom (xfactor yfactor : Qc) (origin : Qc * Qc) (obj : geom)
    : geom :=
  match obj with
  | GList l => GList (map (scale_geom xfactor yfactor origin) l)
  | Shape g => Shape (Scaled g xfactor yfactor origin)
  end.

Definition scale_drill (xfactor yfactor : Qc) (origin : Qc * Qc) (d : Drill)
    : Drill :=
  {| drill_point := affinity_scale (drill_point d) xfactor yfactor origin;
     drill_tool := drill_tool d |}.

Definition scale_slot (xfactor yfactor : Qc) (origin : Qc * Qc) (s : Slot)
    : Slot :=
  {| slot_start := affinity_scale (slot_start s) xfactor yfactor origin;
     slot_stop := affinity_scale (slot_stop s) xfactor yfactor origin;
     slot_tool := slot_tool s |}.

Definition scale_tool_geometry (xfactor yfactor : Qc) (origin : Qc * Qc)
    (t : Tool) : Tool :=
  {| tool_C := tool_C t;
     tool_solid_geometry :=
       map (scale_geom xfactor yfactor origin) (tool_solid_geometry t) |}.

(** [Excellon.scale(xfactor, yfactor=None, point=None)] *)
Definition scale (xfactor : Qc) (yfactor : option Qc)
    (point : option (Qc * Qc)) (e : Excellon) : Excellon :=
  let yfactor := match yfactor with None => xfactor | Some y => y end in
  let origin := match point with None => (0, 0) | Some p => p end in
  if bool_decide (xfactor = 0) && bool_decide (yfactor = 0) then e
  else
    let e := set_drills (map (scale_drill xfactor yfactor origin) (drills e)) e in
    let e := set_tools (scale_tool_geometry xfactor yfactor origin <$> tools e) e in
    let e := set_slots (map (scale_slot xfactor yfactor origin) (slots e)) e in
    snd (create_geometry e).

Definition mm_per_inch : Qc := Q2Qc 25.4.

Definition scale_diameter (factor : Qc) (t : Tool) : Tool :=
  {| tool_C := tool_C t * factor;
     tool_solid_geometry := tool_solid_geometry t |}.

(** the factor of [convert_units]: 1 when the units are the current ones
    or are not supported *)
Definition conversion_factor (obj_units : string) (e : Excellon) : Qc :=
  if String.eqb (Py.upper obj_units) (Py.upper (units e)) then 1
  else if String.eqb (Py.upper obj_units) "MM" then mm_per_inch
  else if String.eqb (Py.upper obj_units) "IN" then 1 / mm_per_inch
  else 1.

(** [Excellon.convert_units(units)] *)
Definition convert_units (obj_units : string) (e : Excellon) : Qc * Excellon :=
  let factor := conversion_factor obj_units e in
  let e := set_units obj_units e in
  let e := scale factor (Some factor) None e in
  let e := set_file_units_factor (Some factor) e in
  let e := set_tools (scale_diameter factor <$> tools e) e in
  (factor, snd (create_geometry e)).

(** [{"X": (1.0, -1.0), "Y": (-1.0, 1.0)}[axis]]; any other key raises
    [KeyError] *)
Definition mirror_factors (axis : string) : option (Qc * Qc) :=
  if String.eqb axis "X" then Some (1, - (1))
  else if String.eqb axis "Y" then Some (- (1), 1)
  else None.

(** the local function [mirror_geom] of [Excellon.mirror] *)
Fixpoint mirror_geom (xscale yscale : Qc) (origin : Qc * Qc) (obj : geom)
    : geom :=
  match obj with
  | GList l => GList (map (mirror_geom xscale yscale origin) l)
  | Shape g => Shape (Scaled g xscale yscale origin)
  end.

Definition mirror_tool_geometry (xscale yscale : Qc) (origin : Qc * Qc)
    (t : Tool) : Tool :=
  {| tool_C := tool_C t;
     tool_solid_geometry :=
       map (mirror_geom xscale yscale origin) (tool_solid_geometry t) |}.

(** [Excellon.mirror(axis, point)]: drills and slots are moved with
    [affinity.scale], as in [scale]; there is no early return.  The
    [KeyError] of an unknown axis leaves the method before anything is
    changed, and the method does not catch it. *)
Definition mirror (axis : string) (point : Qc * Qc) (e : Excellon)
    : result Excellon :=
  match mirror_factors axis with
  | None => Raised e
  | Some (xscale, yscale) =>
      let e := set_drills (map (scale_drill xscale yscale point) (drills e)) e in
      let e := set_tools (mirror_tool_geometry xscale yscale point <$> tools e) e in
      let e := set_slots (map (scale_slot xscale yscale point) (slots e)) e in
      Normal (snd (create_geometry e))
  end.

(** ** Decoding of coordinates *)

(** how a call that the caller guards with [except TypeError] and
    [except Exception] ends.  [Unbounded] stands for a call that returns an
    infinity where the caller keeps a finite number. *)
Inductive outcome (A : Type) : Type :=
| Returns (a : A)
| Unbounded
| TypeError
| OtherError.
Arguments Returns {A} a.
Arguments Unbounded {A}.
Arguments TypeError {A}.
Arguments OtherError {A}.

Definition leading_zeros (e : Excellon) : bool :=
  match zeros e with
  | Some z => String.eqb z "L" || String.eqb z "LZ"
  | None => false
  end.

Definition inch_units (e : Excellon) : bool :=
  String.eqb (Py.lower (units e)) "in".

(** [float(number_str) / (10 ** x)] inside the [try] of [parse_number]:
    the [ValueError] of [float], the [OverflowError] of the power and the
    [ZeroDivisionError] of the quotient are caught, and [None] is
    returned *)
Definition divided (number_str : string) (x : Z) : option Py.number :=
  match Py.float number_str with
  | None => None
  | Some v =>
      match Py.float_pow10 x with
      | None => None
      | Some p => Py.truediv v p
      end
  end.

(** [Excellon.parse_number(number_str)].  [number_str] is [None] when the
    group of the coordinate pattern did not take part in the match; the
    pattern search then raises [TypeError], before the [try].  Inside the
    [try] every exception is caught and [None] is returned. *)
Definition parse_number (e : Excellon) (number_str : option string)
    : outcome (option Py.number) :=
  match number_str with
  | None => TypeError
  | Some number_str =>
      match search leadingzeros_re number_str with
      | None => OtherError
      | Some m =>
          match group m 1, group m 2 with
          | Some g1, Some g2 =>
              let nr_length := Z.of_nat (String.length g1 + String.length g2) in
              if leading_zeros e then
                if inch_units e
                then Returns (divided number_str (nr_length - excellon_format_upper_in e))
                else Returns (divided number_str (nr_length - excellon_format_upper_mm e))
              else
                if inch_units e
                then Returns (divided number_str (excellon_format_lower_in e))
                else Returns (divided number_str (excellon_format_lower_mm e))
          | _, _ => TypeError
          end
      end
  end.

(** ** The parser: [Excellon.parse_lines] *)

(** The local variables of [parse_lines] that live across lines.  A number
    variable holds [None] or a float ([repeating_x] and [repeating_y] also
    the integer 0, which is the float 0 here); [slot_start_x] and
    [slot_start_y] are not assigned before the loop, so they may also be
    unbound.  [repeat_] is the variable [repeat]. *)
Inductive local_num : Type :=
| Unbound
| Bound (v : option Qc).

Record Locals : Type := Build_Locals {
  current_tool : string;
  in_header : bool;
  headerless : bool;
  current_x : option Qc;
  current_y : option Qc;
  slot_current_x : option Qc;
  slot_current_y : option Qc;
  name_tool : Z;
  allegro_warning : bool;
  line_units_found : bool;
  repeating_x : option Qc;
  repeating_y : option Qc;
  repeat_ : Z;
  line_units : string;
  line_num : Z;
  eline : string;
  slot_start_x : local_num;
  slot_start_y : local_num
}.

Definition set_current_tool (v : string) (s : Locals) : Locals :=
  Build_Locals v (in_header s) (headerless s) (current_x s) (current_y s)
    (slot_current_x s) (slot_current_y s) (name_tool s) (allegro_warning s)
    (line_units_found s) (repeating_x s) (repeating_y s) (repeat_ s)
    (line_units s) (line_num s) (eline s) (slot_start_x s) (slot_start_y s).

Definition set_in_header (v : bool) (s : Locals) : Locals :=
  Build_Locals (current_tool s) v (headerless s) (current_x s) (current_y s)
    (slot_current_x s) (slot_current_y s) (name_tool s) (allegro_warning s)
    (line_units_found s) (repeating_x s) (repeating_y s) (repeat_ s)
    (line_units s) (line_num s) (eline s) (slot_start_x s) (slot_start_y s).

Definition set_headerless (v : bool) (s : Locals) : Locals :=
  Build_Locals (current_tool s) (in_header s) v (current_x s) (current_y s)
    (slot_current_x s) (slot_current_y s) (name_tool s) (allegro_warning s)
    (line_units_found s) (repeating_x s) (repeating_y s) (repeat_ s)
    (line_units s) (line_num s) (eline s) (slot_start_x s) (slot_start_y s).

Definition set_current_x (v : option Qc) (s : Locals) : Locals :=
  Build_Locals (current_tool s) (in_header s) (headerless s) v (current_y s)
    (slot_current_x s) (slot_current_y s) (name_tool s) (allegro_warning s)
    (line_units_found s) (repeating_x s) (repeating_y s) (repeat_ s)
    (line_units s) (line_num s) (eline s) (slot_start_x s) (slot_start_y s).

Definition set_current_y (v : option Qc) (s : Locals) : Locals :=
  Build_Locals (current_tool s) (in_header s) (headerless s) (current_x s) v
    (slot_current_x s) (slot_current_y s) (name_tool s) (allegro_warning s)
    (line_units_found s) (repeating_x s) (repeating_y s) (repeat_ s)
    (line_units s) (line_num s) (eline s) (slot_start_x s) (slot_start_y s).

Definition set_slot_current_x (v : option Qc) (s : Locals) : Locals :=
  Build_Locals (current_tool s) (in_header s) (headerless s) (current_x s)
    (current_y s) v (slot_current_y s) (name_tool s) (allegro_warning s)
    (line_units_found s) (repeating_x s) (repeating_y s) (repeat_ s)
    (line_units s) (line_num s) (eline s) (slot_start_x s) (slot_start_y s).

Definition set_slot_current_y (v : option Qc) (s : Locals) : Locals :=
  Build_Locals (current_tool s) (in_header s) (headerless s) (current_x s)
    (current_y s) (slot_current_x s) v (name_tool s) (allegro_warning s)
    (line_units_found s) (repeating_x s) (repeating_y s) (repeat_ s)
    (line_units s) (line_num s) (eline s) (slot_start_x s) (slot_start_y s).

Definition set_name_tool (v : Z) (s : Locals) : Locals :=
  Build_Locals (current_tool s) (in_header s) (headerless s) (current_x s)
    (current_y s) (slot_current_x s) (slot_current_y s) v (allegro_warning s)
    (line_units_found s) (repeating_x s) (repeating_y s) (repeat_ s)
    (line_units s) (line_num s) (eline s) (slot_start_x s) (slot_start_y s).

Definition set_allegro_warning (v : bool) (s : Locals) : Locals :=
  Build_Locals (current_tool s) (in_header s) (headerless s) (current_x s)
    (current_y s) (slot_current_x s) (slot_current_y s) (name_tool s) v
    (line_units_found s) (repeating_x s) (repeating_y s) (repeat_ s)
    (line_units s) (line_num s) (eline s) (slot_start_x s) (slot_start_y s).

Definition set_line_units_found (v : bool) (s : Locals) : Locals :=
  Build_Locals (current_tool s) (in_header s) (headerless s) (current_x s)
    (current_y s) (slot_current_x s) (slot_current_y s) (name_tool s)
    (allegro_warning s) v (repeating_x s) (repeating_y s) (repeat_ s)
    (line_units s) (line_num s) (eline s) (slot_start_x s) (slot_start_y s).

Definition set_repeating_x (v : option Qc) (s : Locals) : Locals :=
  Build_Locals (current_tool s) (in_header s) (headerless s) (current_x s)
    (current_y s) (slot_current_x s) (slot_current_y s) (name_tool s)
    (allegro_warning s) (line_units_found s) v (repeating_y s) (repeat_ s)
    (line_units s) (line_num s) (eline s) (slot_start_x s) (slot_start_y s).

Definition set_repeating_y (v : option Qc) (s : Locals) : Locals :=
  Build_Locals (current_tool s) (in_header s) (headerless s) (current_x s)
    (current_y s) (slot_current_x s) (slot_current_y s) (name_tool s)
    (allegro_warning s) (line_units_found s) (repeating_x s) v (repeat_ s)
    (line_units s) (line_num s) (eline s) (slot_start_x s) (slot_start_y s).

Definition set_repeat_ (v : Z) (s : Locals) : Locals :=
  Build_Locals (current_tool s) (in_header s) (headerless s) (current_x s)
    (current_y s) (slot_current_x s) (slot_current_y s) (name_tool s)
    (allegro_warning s) (line_units_found s) (repeating_x s) (repeating_y s) v
    (line_units s) (line_num s) (eline s) (slot_start_x s) (slot_start_y s).

Definition set_line_units (v : string) (s : Locals) : Locals :=
  Build_Locals (current_tool s) (in_header s) (headerless s) (current_x s)
    (current_y s) (slot_current_x s) (slot_current_y s) (name_tool s)
    (allegro_warning s) (line_units_found s) (repeating_x s) (repeating_y s)
    (repeat_ s) v (line_num s) (eline s) (slot_start_x s) (slot_start_y s).

Definition set_line_num (v : Z) (s : Locals) : Locals :=
  Build_Locals (current_tool s) (in_header s) (headerless s) (current_x s)
    (current_y s) (slot_current_x s) (slot_current_y s) (name_tool s)
    (allegro_warning s) (line_units_found s) (repeating_x s) (repeating_y s)
    (repeat_ s) (line_units s) v (eline s) (slot_start_x s) (slot_start_y s).

Definition set_eline (v : string) (s : Locals) : Locals :=
  Build_Locals (current_tool s) (in_header s) (headerless s) (current_x s)
    (current_y s) (slot_current_x s) (slot_current_y s) (name_tool s)
    (allegro_warning s) (line_units_found s) (repeating_x s) (repeating_y s)
    (repeat_ s) (line_units s) (line_num s) v (slot_start_x s)
    (slot_start_y s).

Definition set_slot_start_x (v : local_num) (s : Locals) : Locals :=
  Build_Locals (current_tool s) (in_header s) (headerless s) (current_x s)
    (current_y s) (slot_current_x s) (slot_current_y s) (name_tool s)
    (allegro_warning s) (line_units_found s) (repeating_x s) (repeating_y s)
    (repeat_ s) (line_units s) (line_num s) (eline s) v (slot_start_y s).

Definition set_slot_start_y (v : local_num) (s : Locals) : Locals :=
  Build_Locals (current_tool s) (in_header s) (headerless s) (current_x s)
    (current_y s) (slot_current_x s) (slot_current_y s) (name_tool s)
    (allegro_warning s) (line_units_found s) (repeating_x s) (repeating_y s)
    (repeat_ s) (line_units s) (line_num s) (eline s) (slot_start_x s) v.

(** how the body of the loop ends for one line: [continue] (or the end of
    the body), [return], or an exception, which the handler around the loop
    catches.  [Beyond] is where the model stops: the source has read an
    infinite float, as a coordinate or a diameter, and goes on with it; the
    state is the one before that statement. *)
Inductive step_result : Type :=
| Continue (e : Excellon) (l : Locals)
| Return (e : Excellon) (l : Locals)
| Except (e : Excellon) (l : Locals)
| Beyond (e : Excellon) (l : Locals).

(** a part of the loop body either ends the body or falls through to the
    statements after it *)
Inductive flow : Type :=
| Done (r : step_result)
| Fall (e : Excellon) (l : Locals).

Definition excellon_of (r : step_result) : Excellon :=
  match r with
  | Continue e _ | Return e _ | Except e _ | Beyond e _ => e
  end.

Definition locals_of (r : step_result) : Locals :=
  match r with
  | Continue _ l | Return _ l | Except _ l | Beyond _ l => l
  end.

(** [int(m.group(n))] for a group [\d+], on which [int] is defined *)
Definition int_group (m : rmatch) (n : nat) : Z :=
  default 0%Z (group m n ≫= Py.int).

Definition matched (o : option rmatch) : bool :=
  match o with Some _ => true | None => false end.

(** truth value of [None], of 0 and of a float *)
Definition truthy (v : option Qc) : bool :=
  match v with
  | Some q => negb (bool_decide (q = 0))
  | None => false
  end.

(** the value of a number variable that is bound to a float *)
Definition local_value (v : local_num) : option Qc :=
  match v with
  | Bound (Some q) => Some q
  | _ => None
  end.

Definition new_tool (diameter : Qc) : Tool :=
  {| tool_C := diameter; tool_solid_geometry := [] |}.

(** *** Comments and the end of the header *)

(** [{"MILS": "IN", "MM": "MM"}[line_units]] *)
Definition allegro_units (line_units : string) : option string :=
  if String.eqb line_units "MILS" then Some "IN"
  else if String.eqb line_units "MM" then Some "MM"
  else None.

(** the Altium or Sprint Layout format preset of a comment *)
Definition altium_comment (line : string) (e : Excellon) (l : Locals) : flow :=
  match search altium_format line with
  | Some m =>
      let e := set_excellon_format_upper_mm (int_group m 1) e in
      let e := set_excellon_format_lower_mm (int_group m 2) e in
      let e := set_excellon_format_upper_in (int_group m 1) e in
      let e := set_excellon_format_lower_in (int_group m 2) e in
      Done (Continue e l)
  | None => Fall e l
  end.

(** the Allegro hole-size entry of a comment, matched by [tool_units_re] *)
Definition allegro_comment (line : string) (m : rmatch) (e : Excellon)
    (l : Locals) : flow :=
  let units_found : result (Excellon * Locals) :=
    if line_units_found l then Normal (e, l)
    else
      let l := set_line_units_found true l in
      match group m 3 with
      | Some u =>
          let l := set_line_units u l in
          match allegro_units u with
          | Some target => Normal (snd (convert_units target e), l)
          | None => Raised (e, l)
          end
      | None => Raised (e, l)
      end in
  match units_found with
  | Raised (e, l) => Done (Except e l)
  | Normal (e, l) =>
      match group m 2 with
      | Some g2 =>
          if String.eqb g2 "" then altium_comment line e l
          else
            let l := set_name_tool (name_tool l + 1)%Z l in
            match Py.float g2 with
            | None => Done (Except e l)
            | Some (Py.Infinite _) => Done (Beyond e l)
            | Some (Py.Finite v) =>
                let diameter :=
                  if String.eqb (line_units l) "MILS"
                  then v / Py.Zq 1000 else v in
                Done (Continue
                        (set_tools (<[Py.str (name_tool l) := new_tool diameter]>
                                      (tools e)) e) l)
            end
      | None => altium_comment line e l
      end
  end.

(** [{"INCH": "IN", "METRIC": "MM"}[self.excellon_units]] *)
Definition default_units (excellon_units : string) : option string :=
  if String.eqb excellon_units "INCH" then Some "IN"
  else if String.eqb excellon_units "METRIC" then Some "MM"
  else None.

(** the end of the header, [M95] or [%] *)
Definition header_end (e : Excellon) (l : Locals) : step_result :=
  let '(e, l) :=
    if negb (in_header l) || bool_decide (tools e = ∅) then
      let l := set_headerless true l in
      match default_units (excellon_units e) with
      | Some target => (snd (convert_units target e), l)
      | None => (e, l)
      end
    else (e, l) in
  let l := set_in_header false l in
  let l := if allegro_warning l then set_name_tool 0%Z l else l in
  Continue e l.

(** [if self.comm_re.search(eline): ... else: ...] *)
Definition comment_or_header_end (line : string) (e : Excellon) (l : Locals)
    : flow :=
  if matched (search comm_re line) then
    match search tool_units_re line with
    | Some m => allegro_comment line m e l
    | None => altium_comment line e l
    end
  else if matched (search hend_re line) then Done (header_end e l)
  else Fall e l.

(** *** Units *)

(** [M71] and [M72] *)
Definition measuring_mode (m : rmatch) (e : Excellon) (l : Locals)
    : step_result :=
  match group m 1 with
  | Some g =>
      let target :=
        if String.eqb g "1" then Some "MM"
        else if String.eqb g "2" then Some "IN" else None in
      match target with
      | Some u =>
          let e := set_units u e in
          Continue (snd (convert_units (units e) e)) l
      | None => Except e l
      end
  | None => Except e l
  end.

(** the directive [INCH] or [METRIC] with its optional zeros mode and
    format, matched by [units_re] *)
Definition units_directive (m : rmatch) (e : Excellon) (l : Locals)
    : step_result :=
  match group m 1 with
  | Some g =>
      let target :=
        if String.eqb g "METRIC" then Some "MM"
        else if String.eqb g "INCH" then Some "IN" else None in
      match target with
      | Some u =>
          let e := set_units u e in
          let e := set_zeros (group m 2) e in
          let e := set_excellon_format (group m 3) e in
          let e :=
            match excellon_format e with
            | Some f =>
                if String.eqb f "" then e
                else
                  let upper := Z.of_nat (String.length (fst (Py.partition_dot f))) in
                  let lower := Z.of_nat (String.length (snd (Py.partition_dot f))) in
                  if String.eqb (units e) "MM"
                  then set_excellon_format_lower_mm lower
                         (set_excellon_format_upper_mm upper e)
                  else set_excellon_format_lower_in lower
                         (set_excellon_format_upper_in upper e)
            | None => e
            end in
          Continue (snd (convert_units (units e) e)) l
      | None => Except e l
      end
  | None => Except e l
  end.

(** *** The body: tool changes *)

Definition diameterless_msg (current_tool : string) : string :=
  "[WARNING] No tool diameter info's. See shell." +:+ nl
  +:+ "A tool change event: T" +:+ current_tool +:+ " "
  +:+ "was found but the Excellon file "
  +:+ "have no informations regarding the tool "
  +:+ "diameters therefore the application will try to load it "
  +:+ "by using some 'fake' diameters." +:+ nl
  +:+ "The user needs to edit the resulting Excellon object and "
  +:+ "change the diameters to reflect the real diameters.".

(** [T<n>], matched by [toolsel_re] *)
Definition tool_change (line : string) (m : rmatch) (e : Excellon)
    (l : Locals) : step_result :=
  let l := set_current_tool (Py.str (int_group m 1)) l in
  if headerless l then
    match search toolset_hl_re line with
    | Some m' =>
        let name := Py.str (int_group m' 1) in
        match group m' 2 ≫= Py.float with
        | Some (Py.Infinite _) => Beyond e l
        | Some (Py.Finite diam) =>
            Continue (set_tools (<[name := new_tool diam]> (tools e)) e) l
        | None =>
            let e := set_diameterless true e in
            let e := emit (diameterless_msg (current_tool l)) e in
            let fake :=
              toolless_diam e
              + Py.Zq (default 0%Z (Py.int (current_tool l)) - 1) / Py.Zq 100 in
            let diam :=
              if String.eqb (excellon_units e) "MM" then fake
              else fake / mm_per_inch in
            Continue (set_tools (<[name := new_tool diam]> (tools e)) e) l
        end
    | None => Continue e l
    end
  else Continue e l.

(** the tool change of the Allegro dialect, on [G90], [G91] or a stop
    command *)
Definition allegro_tool_change (e : Excellon) (l : Locals) : step_result :=
  let l := set_name_tool (name_tool l + 1)%Z l in
  Continue e (set_current_tool (Py.str (name_tool l)) l).

(** *** The body: drilled slots, [<coordinates>G85<coordinates>] *)

(** the argument [m.group(n)] of a call, where [m] may be [None]
    ([AttributeError]) *)
Definition group_arg (m : option rmatch) (n : nat) : outcome (option string) :=
  match m with
  | Some m => Returns (group m n)
  | None => OtherError
  end.

(** the float or [None] that a call returns, as the coordinate that the
    parser keeps *)
Definition finite (r : outcome (option Py.number)) : outcome (option Qc) :=
  match r with
  | Returns (Some (Py.Finite q)) => Returns (Some q)
  | Returns (Some (Py.Infinite _)) => Unbounded
  | Returns None => Returns None
  | Unbounded => Unbounded
  | TypeError => TypeError
  | OtherError => OtherError
  end.

Definition parse_number_arg (e : Excellon) (a : outcome (option string))
    : outcome (option Qc) :=
  match a with
  | Returns s => finite (parse_number e s)
  | Unbounded => Unbounded
  | TypeError => TypeError
  | OtherError => OtherError
  end.

(** [float(a)]: [TypeError] on [None], [ValueError] on other text *)
Definition float_arg (a : outcome (option string)) : outcome (option Qc) :=
  match a with
  | Returns (Some s) =>
      match Py.float s with
      | Some v => finite (Returns (Some v))
      | None => OtherError
      end
  | Returns None => TypeError
  | Unbounded => Unbounded
  | TypeError => TypeError
  | OtherError => OtherError
  end.

(** [try: v = <call>; current = v / except TypeError: v = current /
    except Exception: return]; the result is the value and the new
    [current], or [OtherError] for the [return] *)
Definition sticky (r : outcome (option Qc)) (current : option Qc)
    : outcome (option Qc * option Qc) :=
  match r with
  | Returns v => Returns (v, v)
  | Unbounded => Unbounded
  | TypeError => Returns (current, current)
  | OtherError => OtherError
  end.

(** the four coordinates of a slot line, decoded with [decode], and the
    slot that they give *)
Definition slot_line (decode : outcome (option string) -> outcome (option Qc))
    (start stop : option rmatch) (e : Excellon) (l : Locals) : step_result :=
  match sticky (decode (group_arg start 1)) (slot_current_x l) with
  | OtherError | TypeError => Return e l
  | Unbounded => Beyond e l
  | Returns (slot_start_x', cx) =>
  let l := set_slot_current_x cx (set_slot_start_x (Bound slot_start_x') l) in
  match sticky (decode (group_arg start 2)) (slot_current_y l) with
  | OtherError | TypeError => Return e l
  | Unbounded => Beyond e l
  | Returns (slot_start_y', cy) =>
  let l := set_slot_current_y cy (set_slot_start_y (Bound slot_start_y') l) in
  match sticky (decode (group_arg stop 1)) (slot_current_x l) with
  | OtherError | TypeError => Return e l
  | Unbounded => Beyond e l
  | Returns (slot_stop_x, cx) =>
  let l := set_slot_current_x cx l in
  match sticky (decode (group_arg stop 2)) (slot_current_y l) with
  | OtherError | TypeError => Return e l
  | Unbounded => Beyond e l
  | Returns (slot_stop_y, cy) =>
  let l := set_slot_current_y cy l in
  match slot_start_x', slot_start_y', slot_stop_x, slot_stop_y with
  | Some sx, Some sy, Some tx, Some ty =>
      Continue
        (set_slots
           (slots e ++ [ {| slot_start := {| pt_x := sx; pt_y := sy |};
                            slot_stop := {| pt_x := tx; pt_y := ty |};
                            slot_tool := current_tool l |} ]) e) l
  | _, _, _, _ => Continue e l
  end end end end end.

(** a line matched by [slots_re] *)
Definition drilled_slot (m : rmatch) (e : Excellon) (l : Locals)
    : step_result :=
  let e := set_excellon_drills (Some false) e in
  match group m 1, group m 2 with
  | Some start_coords_match, Some stop_coords_match =>
      let start_coords_noperiod := search coordsnoperiod_re start_coords_match in
      let stop_coords_noperiod := search coordsnoperiod_re stop_coords_match in
      if matched start_coords_noperiod then
        slot_line (parse_number_arg e) start_coords_noperiod
          stop_coords_noperiod e l
      else
        let start_coords_period := search coordsperiod_re start_coords_match in
        let stop_coords_period := search coordsperiod_re stop_coords_match in
        if matched start_coords_period then
          slot_line float_arg start_coords_period stop_coords_period e l
        else Continue e l
  | _, _ => Except e l
  end.

(** *** The body: coordinates, routs and repeated holes *)

(** [matchr = self.repeat_re.search(eline)] and the assignment to
    [repeat] when it matched *)
Definition read_repeat (line : string) (l : Locals) : Locals :=
  match search repeat_re line with
  | Some matchr => set_repeat_ (int_group matchr 1) l
  | None => l
  end.

(** [try: x = <call>; repeating_x = current_x; current_x = x /
    except TypeError: x = current_x; repeating_x = 0] *)
Definition read_x (r : outcome (option Qc)) (l : Locals)
    : outcome (option Qc * Locals) :=
  match r with
  | Returns x => Returns (x, set_current_x x (set_repeating_x (current_x l) l))
  | Unbounded => Unbounded
  | TypeError => Returns (current_x l, set_repeating_x (Some 0) l)
  | OtherError => OtherError
  end.

Definition read_y (r : outcome (option Qc)) (l : Locals)
    : outcome (option Qc * Locals) :=
  match r with
  | Returns y => Returns (y, set_current_y y (set_repeating_y (current_y l) l))
  | Unbounded => Unbounded
  | TypeError => Returns (current_y l, set_repeating_y (Some 0) l)
  | OtherError => OtherError
  end.

(** the loop [while repeat > 0], which runs [repeat] times: the drills to
    append, given the values of [repeat], [coordx] and [coordy] on entry *)
Fixpoint repeat_holes (n : nat) (x y : Qc) (repeating_x repeating_y : option Qc)
    (current_tool : string) (repeat : Z) (coordx coordy : Qc) : list Drill :=
  match n with
  | O => []
  | S n' =>
      let coordx :=
        match repeating_x with
        | Some rx => if truthy repeating_x then Py.Zq repeat * x + rx else coordx
        | None => coordx
        end in
      let coordy :=
        match repeating_y with
        | Some ry => if truthy repeating_y then Py.Zq repeat * y + ry else coordy
        | None => coordy
        end in
      {| drill_point := {| pt_x := coordx; pt_y := coordy |};
         drill_tool := current_tool |}
      :: repeat_holes n' x y repeating_x repeating_y current_tool
           (repeat - 1)%Z coordx coordy
  end.

(** what a coordinate line with the point [(x, y)] does: open a rout on
    [G00], close it on [G01], append drills otherwise; when a rout was ever
    opened or closed, a line without [G00] or [G01] falls through *)
Definition place_feature (line : string) (x y : Qc) (e : Excellon)
    (l : Locals) : flow :=
  if matched (search g00_re line) then
    let e := set_match_routing_start (Some "G00") e in
    let e := set_excellon_drills (Some false) e in
    let e := set_routing_flag 0%Z e in
    let l := set_slot_start_x (Bound (Some x)) l in
    let l := set_slot_start_y (Bound (Some y)) l in
    Done (Continue e l)
  else if (routing_flag e =? 0)%Z && matched (search g01_re line) then
    let e := set_match_routing_stop (Some "G01") e in
    let e := set_excellon_drills (Some false) e in
    let e := set_routing_flag 1%Z e in
    match local_value (slot_start_x l), local_value (slot_start_y l) with
    | Some sx, Some sy =>
        Done (Continue
                (set_slots
                   (slots e ++ [ {| slot_start := {| pt_x := sx; pt_y := sy |};
                                    slot_stop := {| pt_x := x; pt_y := y |};
                                    slot_tool := current_tool l |} ]) e) l)
    | _, _ => Done (Except e l)
    end
  else
    match match_routing_start e, match_routing_stop e with
    | None, None =>
        let '(e, l) :=
          if (repeat_ l =? 0)%Z then
            let e := set_excellon_drills (Some true) e in
            (set_drills
               (drills e ++ [ {| drill_point := {| pt_x := x; pt_y := y |};
                                 drill_tool := current_tool l |} ]) e, l)
          else
            (set_drills
               (drills e
                ++ repeat_holes (Z.to_nat (repeat_ l)) x y (repeating_x l)
                     (repeating_y l) (current_tool l) (repeat_ l) x y) e,
             set_repeat_ (Z.min (repeat_ l) 0) l) in
        let l := set_repeating_y (Some 0) (set_repeating_x (Some 0) l) in
        Done (Continue e l)
    | _, _ => Fall e l
    end.

(** coordinates without a period, matched by [coordsnoperiod_re] *)
Definition coords_noperiod (line : string) (m : rmatch) (e : Excellon)
    (l : Locals) : flow :=
  let l := read_repeat line l in
  match read_x (finite (parse_number e (group m 1))) l with
  | OtherError | TypeError => Done (Return e l)
  | Unbounded => Done (Beyond e l)
  | Returns (x, l) =>
      match read_y (finite (parse_number e (group m 2))) l with
      | OtherError | TypeError => Done (Return e l)
      | Unbounded => Done (Beyond e l)
      | Returns (y, l) =>
          match x, y with
          | Some x, Some y => place_feature line x y e l
          | _, _ => Done (Continue e l)
          end
      end
  end.

(** coordinates with a period, matched by [coordsperiod_re]: used
    literally *)
Definition coords_period (line : string) (m : rmatch) (e : Excellon)
    (l : Locals) : flow :=
  let l := read_repeat line l in
  let e := set_excellon_drills (Some true) e in
  match read_x (float_arg (Returns (group m 1))) l with
  | OtherError | TypeError => Done (Except e l)
  | Unbounded => Done (Beyond e l)
  | Returns (x, l) =>
      match read_y (float_arg (Returns (group m 2))) l with
      | OtherError | TypeError => Done (Except e l)
      | Unbounded => Done (Beyond e l)
      | Returns (y, l) =>
          match x, y with
          | Some x, Some y => place_feature line x y e l
          | _, _ => Done (Continue e l)
          end
      end
  end.

(** the two coordinate rules, tried in this order; the second one is also
    reached when the first one falls through *)
Definition coordinates (line : string) (e : Excellon) (l : Locals) : flow :=
  let after_noperiod :=
    match search coordsnoperiod_re line with
    | Some m => coords_noperiod line m e l
    | None => Fall e l
    end in
  match after_noperiod with
  | Done r => Done r
  | Fall e l =>
      match search coordsperiod_re line with
      | Some m => coords_period line m e l
      | None => Fall e l
      end
  end.

(** the part [if not in_header:] of the loop body *)
Definition body (line : string) (e : Excellon) (l : Locals) : flow :=
  match search toolsel_re line with
  | Some m => Done (tool_change line m e l)
  | None =>
  if allegro_warning l
     && (matched (search absinc_re line) || matched (search stop_re line))
  then Done (allegro_tool_change e l)
  else
  match search slots_re line with
  | Some m => Done (drilled_slot m e l)
  | None => coordinates line e l
  end end.

(** *** The header *)

(** the part [if in_header:] of the loop body *)
Definition header (line : string) (e : Excellon) (l : Locals) : flow :=
  match search toolset_re line with
  | Some m =>
      let name := Py.str (int_group m 1) in
      match group m 2 ≫= Py.float with
      | Some (Py.Finite c) =>
          Done (Continue (set_tools (<[name := new_tool c]> (tools e)) e) l)
      | Some (Py.Infinite _) => Done (Beyond e l)
      | None => Done (Except e l)
      end
  | None =>
  match match_ units_re line with
  | Some m => Done (units_directive m e l)
  | None =>
  if Py.str_in "INCH" line then
    let l := set_line_units "IN" l in
    Done (Continue (snd (convert_units (line_units l) e)) l)
  else if Py.str_in "METRIC" line then
    let l := set_line_units "MM" l in
    Done (Continue (snd (convert_units (line_units l) e)) l)
  else
  match search zeros_re line with
  | Some m => Done (Continue (set_zeros (Some (whole m)) e) l)
  | None => Fall e l
  end end end.

(** *** One line, and the whole file *)

Definition gcode_msg (line : string) : string :=
  "[ERROR_NOTCL] This is GCODE mark: " +:+ line.

(** The body of the loop [for eline in elines] for the line [raw];
    [abort_flag] is the value of [self.app.abort_flag] when the line is
    reached.  Modelled from the spec: [FlatCAMApp.GracefulException], raised
    on a cooperative abort, is an exception like any other (the class is
    not among the sources), so the handler around the loop catches it. *)
Definition parse_line (abort_flag : bool) (raw : string) (e : Excellon)
    (l : Locals) : step_result :=
  let l := set_eline raw l in
  if abort_flag then Except e l
  else
  let l := set_line_num (line_num l + 1)%Z l in
  let e := set_source_file (source_file e +:+ raw) e in
  let line := Py.strip Py.strip_set raw in
  let l := set_eline line l in
  if matched (search detect_gcode_re line) then
    Return (emit (gcode_msg line) e) l
  else if matched (search hbegin_re line) then
    Continue e (set_headerless false (set_in_header true l))
  else if matched (search allegro_hbegin_re line) then
    Continue e (set_allegro_warning true (set_in_header true l))
  else
  match comment_or_header_end line e l with
  | Done r => r
  | Fall e l =>
  match match_ meas_re line with
  | Some m => measuring_mode m e l
  | None =>
  match (if negb (in_header l) then body line e l else Fall e l) with
  | Done r => r
  | Fall e l =>
  match (if in_header l then header line e l else Fall e l) with
  | Done r => r
  | Fall e l =>
  match match_ units_re line with
  | Some m => units_directive m e l
  | None => Continue e l
  end end end end end.

(** the loop; [abort i] is the abort flag at the line of index [i] *)
Fixpoint parse_loop (abort : nat -> bool) (i : nat) (elines : list string)
    (e : Excellon) (l : Locals) : step_result :=
  match elines with
  | [] => Continue e l
  | raw :: elines' =>
      match parse_line (abort i) raw e l with
      | Continue e l => parse_loop abort (S i) elines' e l
      | r => r
      end
  end.

Definition initial_locals : Locals :=
  {| current_tool := ""; in_header := false; headerless := false;
     current_x := None; current_y := None;
     slot_current_x := None; slot_current_y := None;
     name_tool := 0%Z; allegro_warning := false; line_units_found := false;
     repeating_x := Some 0; repeating_y := Some 0; repeat_ := 0%Z;
     line_units := ""; line_num := 0%Z; eline := "";
     slot_start_x := Unbound; slot_start_y := Unbound |}.

(** the message of the handler, without the traceback that follows it *)
Definition parser_error_msg (l : Locals) : string :=
  "[ERROR_NOTCL] An internal error has ocurred. See shell." +:+ nl
  +:+ "[ERROR] Excellon Parser error." +:+ nl +:+ "Parsing Failed. Line "
  +:+ Py.str (line_num l) +:+ ": " +:+ eline l +:+ nl.

(** [Excellon.parse_lines(elines)]; [RetBeyond] when the loop stops at
    [Beyond] *)
Definition parse_lines (abort : nat -> bool) (elines : list string)
    (e : Excellon) : retval * Excellon :=
  match parse_loop abort 0 elines e initial_locals with
  | Continue e _ => (RetNone, e)
  | Return e _ => (RetNone, e)
  | Except e l => (RetFail, emit (parser_error_msg l) e)
  | Beyond e _ => (RetBeyond, e)
  end.

(** ** A new object: [Excellon.__init__]

    [app_units] is [self.app.defaults['units']].  An argument that is
    [None], empty or zero is replaced by the entry of [Excellon.defaults].
    Modelled from the spec: the base class [Geometry] (module [camlib], not
    among the sources) starts with no solid geometry. *)
Definition or_default {A : Type} (falsy : A -> bool) (v : option A) (d : A) : A :=
  match v with
  | Some a => if falsy a then d else a
  | None => d
  end.

Definition init (app_units : string) (zeros : option string)
    (excellon_format_upper_mm excellon_format_lower_mm
     excellon_format_upper_in excellon_format_lower_in : option Z)
    (excellon_units : option string) (geo_steps_per_circle : option Z)
    : Excellon :=
  {| tools := ∅; drills := []; slots := []; solid_geometry := [];
     source_file := "";
     routing_flag := 1%Z;
     match_routing_start := None; match_routing_stop := None;
     units := app_units;
     zeros := Some (or_default (String.eqb "") zeros "L");
     toolless_diam := 1;
     diameterless := false;
     excellon_format_upper_in := or_default (Z.eqb 0) excellon_format_upper_in 2%Z;
     excellon_format_lower_in := or_default (Z.eqb 0) excellon_format_lower_in 4%Z;
     excellon_format_upper_mm := or_default (Z.eqb 0) excellon_format_upper_mm 3%Z;
     excellon_format_lower_mm := or_default (Z.eqb 0) excellon_format_lower_mm 3%Z;
     excellon_units := or_default (String.eqb "") excellon_units "INCH";
     excellon_format := None;
     geo_steps_per_circle := default 64%Z geo_steps_per_circle;
     file_units_factor := None;
     excellon_drills := None;
     inform := [] |}.

(** the object built with every argument left out *)
Definition new_excellon (app_units : string) : Excellon :=
  init app_units None None None None None None None.

(** ** Definitions used by the statements *)

(** ** Properties of the geometry synthesis *)

Definition result_state {A : Type} (r : result A) : A :=
  match r with Normal a | Raised a => a end.

(** the attributes that the synthesis does not touch *)
Definition untouched (e e' : Excellon) : Prop :=
  drills e' = drills e /\ slots e' = slots e /\
  source_file e' = source_file e /\ routing_flag e' = routing_flag e /\
  match_routing_start e' = match_routing_start e /\
  match_routing_stop e' = match_routing_stop e /\
  units e' = units e /\ zeros e' = zeros e /\
  toolless_diam e' = toolless_diam e /\ diameterless e' = diameterless e /\
  excellon_format_upper_in e' = excellon_format_upper_in e /\
  excellon_format_lower_in e' = excellon_format_lower_in e /\
  excellon_format_upper_mm e' = excellon_format_upper_mm e /\
  excellon_format_lower_mm e' = excellon_format_lower_mm e /\
  excellon_units e' = excellon_units e /\
  excellon_format e' = excellon_format e /\
  geo_steps_per_circle e' = geo_steps_per_circle e /\
  file_units_factor e' = file_units_factor e /\
  excellon_drills e' = excellon_drills e.

(** the synthesis keeps every tool and its diameter *)
Definition same_diameters (e e' : Excellon) : Prop :=
  forall name, tool_C <$> (tools e' !! name) = tool_C <$> (tools e !! name).

(** the attributes that neither [scale] nor [convert_units] touches *)
Definition parser_frame (e e' : Excellon) : Prop :=
  length (drills e') = length (drills e) /\
  length (slots e') = length (slots e) /\
  map drill_tool (drills e') = map drill_tool (drills e) /\
  map slot_tool (slots e') = map slot_tool (slots e) /\
  source_file e' = source_file e /\ routing_flag e' = routing_flag e /\
  match_routing_start e' = match_routing_start e /\
  match_routing_stop e' = match_routing_stop e /\
  zeros e' = zeros e /\
  toolless_diam e' = toolless_diam e /\ diameterless e' = diameterless e /\
  excellon_format_upper_in e' = excellon_format_upper_in e /\
  excellon_format_lower_in e' = excellon_format_lower_in e /\
  excellon_format_upper_mm e' = excellon_format_upper_mm e /\
  excellon_format_lower_mm e' = excellon_format_lower_mm e /\
  excellon_units e' = excellon_units e /\
  excellon_format e' = excellon_format e /\
  geo_steps_per_circle e' = geo_steps_per_circle e /\
  excellon_drills e' = excellon_drills e.

(** the state that [convert_units] returns, for the factor [f] *)
Definition converted (f : Qc) (u : string) (e : Excellon) : Excellon :=
  snd (create_geometry
         (set_tools
            (scale_diameter f
             <$> tools (set_file_units_factor (Some f)
                          (scale f (Some f) None (set_units u e))))
            (set_file_units_factor (Some f)
               (scale f (Some f) None (set_units u e))))).

Definition one_tool_document : Excellon :=
  set_slots [ {| slot_start := {| pt_x := 1; pt_y := Py.Zq 2 |};
                 slot_stop := {| pt_x := Py.Zq 3; pt_y := Py.Zq 2 |};
                 slot_tool := "1" |} ]
    (set_drills [ {| drill_point := {| pt_x := 1; pt_y := 1 |}; drill_tool := "1" |} ]
       (set_tools {[ "1" := new_tool 1 ]} (new_excellon "MM"))).

(** ** What the synthesis produces *)

(** the buffer of a drill, when its tool reference is not empty and is a
    key of the tool table *)
Definition drill_geometry (ts : gmap string Tool) (res : Z) (d : Drill)
    : option geom :=
  if String.eqb (drill_tool d) "" then None
  else
    (fun c => Shape (PointBuffer (drill_point d) (c / Py.Zq 2) res))
      <$> (tool_C <$> (ts !! drill_tool d)).

Definition slot_geometry (ts : gmap string Tool) (res : Z) (s : Slot)
    : option geom :=
  (fun c => Shape (LineBuffer (slot_start s) (slot_stop s) (c / Py.Zq 2) res))
    <$> (tool_C <$> (ts !! slot_tool s)).

(** a drill that the loop over the drills passes: skipped with a warning,
    or given a buffer *)
Definition drill_passes (ts : gmap string Tool) (d : Drill) : Prop :=
  drill_tool d = "" \/ is_Some (ts !! drill_tool d).

Definition slot_passes (ts : gmap string Tool) (s : Slot) : Prop :=
  is_Some (ts !! slot_tool s).

(** the drills without a tool *)
Definition toolless (ds : list Drill) : list Drill :=
  filter (fun d => drill_tool d = "") ds.

(** the state in which the loops of [create_geometry] start *)
Definition cleared (e : Excellon) : Excellon :=
  set_tools (clear_geometry <$> tools e) (set_solid_geometry [] e).

(** the geometry of a list of features, from the diameters of [e] *)
Definition drills_geometry (e : Excellon) (ds : list Drill) : list geom :=
  omap (drill_geometry (tools e) (buffer_resolution e)) ds.

Definition slots_geometry (e : Excellon) (ss : list Slot) : list geom :=
  omap (slot_geometry (tools e) (buffer_resolution e)) ss.

Definition skip_warnings (ds : list Drill) : list string :=
  (fun _ => drill_skipped_msg) <$> toolless ds.

(** ** What the synthesis reads *)

(** two objects with the same features, the same diameters and the same
    resolution: all that [create_geometry] reads *)
Definition same_inputs (e1 e2 : Excellon) : Prop :=
  drills e1 = drills e2 /\ slots e1 = slots e2 /\
  geo_steps_per_circle e1 = geo_steps_per_circle e2 /\
  forall name, tool_C <$> (tools e1 !! name) = tool_C <$> (tools e2 !! name).

(** two objects with the same tool table, geometry included, the same
    solid geometry and the same resolution *)
Definition same_geometry (e1 e2 : Excellon) : Prop :=
  tools e1 = tools e2 /\ solid_geometry e1 = solid_geometry e2 /\
  geo_steps_per_circle e1 = geo_steps_per_circle e2.

(** two runs of a loop that end in the same way, in states with the same
    geometry *)
Definition same_end (r1 r2 : result Excellon) : Prop :=
  match r1, r2 with
  | Normal a, Normal b | Raised a, Raised b => same_geometry a b
  | _, _ => False
  end.

(** a document with one tool, a drill that names another tool, and a
    drill that names the tool *)
Definition stray_drill : Drill :=
  {| drill_point := {| pt_x := 0; pt_y := 0 |}; drill_tool := "2" |}.
Definition good_drill : Drill :=
  {| drill_point := {| pt_x := 1; pt_y := 1 |}; drill_tool := "1" |}.
Definition stray_document : Excellon :=
  set_drills [stray_drill; good_drill]
    (set_tools {[ "1" := new_tool 1 ]} (new_excellon "MM")).

(** the object with every drill point and every slot start and stop
    scaled, and nothing else changed *)
Definition scaled_features (xfactor yfactor : Qc) (origin : Qc * Qc)
    (e : Excellon) : Excellon :=
  set_slots (map (scale_slot xfactor yfactor origin) (slots e))
    (set_drills (map (scale_drill xfactor yfactor origin) (drills e)) e).

(** ** Runs of digits *)

Fixpoint all_chars (c : ascii -> bool) (s : string) : bool :=
  match s with
  | String a s' => c a && all_chars c s'
  | EmptyString => true
  end.

(** the longest prefix of characters of a class, and what follows it *)
Fixpoint take_while (c : ascii -> bool) (s : string) : string :=
  match s with
  | String a s' => if c a then String a (take_while c s') else ""
  | EmptyString => ""
  end.

Fixpoint drop_while (c : ascii -> bool) (s : string) : string :=
  match s with
  | String a s' => if c a then drop_while c s' else s
  | EmptyString => ""
  end.

Definition is_zero_char : ascii -> bool := Ascii.eqb "0".

(** an optional sign: empty, [+] or [-] *)
Definition is_sign_prefix (sgn : string) : Prop :=
  sgn = "" \/ sgn = "+" \/ sgn = "-".

(** the exponent of the divisor that [parse_number] uses for a token of
    [n] digits *)
Definition divisor_exponent (e : Excellon) (n : nat) : Z :=
  if leading_zeros e then
    Z.of_nat n - (if inch_units e then excellon_format_upper_in e
                  else excellon_format_upper_mm e)
  else
    (if inch_units e then excellon_format_lower_in e
     else excellon_format_lower_mm e).



Definition g85_line : string := "X010000Y020000G85X030000Y040000".

Definition flow_excellon (f : flow) : Excellon :=
  match f with Done r => excellon_of r | Fall e _ => e end.
Definition flow_locals (f : flow) : Locals :=
  match f with Done r => locals_of r | Fall _ l => l end.

(** what the directives other than coordinates, slots and header starts
    leave alone: the rout state, the number of features, and being in the
    body *)
Definition quiet_frame (e : Excellon) (l : Locals) (e' : Excellon) (l' : Locals)
    : Prop :=
  routing_flag e' = routing_flag e /\
  match_routing_start e' = match_routing_start e /\
  match_routing_stop e' = match_routing_stop e /\
  length (slots e') = length (slots e) /\
  length (drills e') = length (drills e) /\
  slot_start_x l' = slot_start_x l /\ slot_start_y l' = slot_start_y l /\
  (in_header l = false -> in_header l' = false).



(** the statements of the loop body after the comment and header-end
    rules, for the stripped line *)
Definition after_comment (line : string) (e : Excellon) (l : Locals)
    : step_result :=
  match match_ meas_re line with
  | Some m => measuring_mode m e l
  | None =>
  match (if negb (in_header l) then body line e l else Fall e l) with
  | Done r => r
  | Fall e l =>
  match (if in_header l then header line e l else Fall e l) with
  | Done r => r
  | Fall e l =>
  match match_ units_re line with
  | Some m => units_directive m e l
  | None => Continue e l
  end end end end.


(** ** Coordinate lines *)








(** the coordinates of a point as canonical fractions *)
Definition coords_of (p : Point) : Q * Q := (this (pt_x p), this (pt_y p)).

Definition never_abort : nat -> bool := fun _ => false.

Definition after_g00 : step_result :=
  parse_line false "G00X1Y1" (new_excellon "IN") initial_locals.





(** a rout with a drilled slot line between its two lines *)
Definition clobbered_rout : list string :=
  ["G00X1Y1"; "X5Y5G85X6Y6"; "G01X2Y2"].

(** ** Repeated holes *)

(** the multiples [n, n - 1, ..., 1] *)
Fixpoint countdown (n : nat) : list Z :=
  match n with
  | O => []
  | S n' => Z.of_nat n :: countdown n'
  end.

(** a hole at the origin and a repeat from it *)
Definition repeat_from_origin : list string := ["X0Y0"; "R3X1"].

(** the document [one_tool_document] after a first synthesis, with other
    units *)
Definition synthesized_document : Excellon :=
  set_units "IN" (snd (create_geometry one_tool_document)).

(** the features of one tool *)
Definition drills_of (name : string) (ds : list Drill) : list Drill :=
  filter (fun d => drill_tool d = name) ds.

Definition slots_of (name : string) (ss : list Slot) : list Slot :=
  filter (fun s => slot_tool s = name) ss.

(** the geometry of a tool entry, [None] when there is no such tool *)
Definition tool_geometry (e : Excellon) (name : string) : option (list geom) :=
  tool_solid_geometry <$> (tools e !! name).

(** messages are only added at the end *)
Definition messages_kept (e e' : Excellon) : Prop :=
  exists msgs, inform e' = (inform e ++ msgs)%list.

(** the images of a point under the two reflections about [(px, py)] *)
Definition flipped_x (p : Qc * Qc) (q : Point) : Point :=
  {| pt_x := pt_x q; pt_y := snd p + snd p - pt_y q |}.

Definition flipped_y (p : Qc * Qc) (q : Point) : Point :=
  {| pt_x := fst p + fst p - pt_x q; pt_y := pt_y q |}.

(** ** Lines of the header, blank lines, and G-code marks *)

(** a part of the loop body that falls through leaves the parser in the
    header or in the body, as it was *)
Definition header_kept (l : Locals) (f : flow) : Prop :=
  match f with
  | Fall _ l' => in_header l' = in_header l
  | Done _ => True
  end.

Definition in_the_header : Locals := set_in_header true initial_locals.

Definition two_holes : list string := ["T1"; "X1Y1"; "X2Y2"].

(** ** What the parser never takes away *)

(** from [e] to [e'] no feature, tool or message is lost, and the text
    read so far and the attributes that configure the parser are the
    same *)
Definition grows (e e' : Excellon) : Prop :=
  (length (drills e) <= length (drills e'))%nat /\
  (length (slots e) <= length (slots e'))%nat /\
  (forall name, is_Some (tools e !! name) -> is_Some (tools e' !! name)) /\
  messages_kept e e' /\
  source_file e' = source_file e /\
  geo_steps_per_circle e' = geo_steps_per_circle e /\
  toolless_diam e' = toolless_diam e /\
  excellon_units e' = excellon_units e.

(** the object after the raw line is recorded *)
Definition recorded (abort_flag : bool) (raw : string) (e : Excellon)
    : Excellon :=
  if abort_flag then e else set_source_file (source_file e +:+ raw) e.

(** from [e] to [e'] no feature, tool or message is lost, and the
    attributes that configure the parser are the same *)
Definition keeps (e e' : Excellon) : Prop :=
  (length (drills e) <= length (drills e'))%nat /\
  (length (slots e) <= length (slots e'))%nat /\
  (forall name, is_Some (tools e !! name) -> is_Some (tools e' !! name)) /\
  messages_kept e e' /\
  geo_steps_per_circle e' = geo_steps_per_circle e /\
  toolless_diam e' = toolless_diam e /\
  excellon_units e' = excellon_units e.

(** the lines joined into one text *)
Fixpoint joined (lines : list string) : string :=
  match lines with
  | [] => ""
  | raw :: lines' => raw +:+ joined lines'
  end.

(** ** Plain holes *)




(** * Properties *)

Section FrameOfSynthesis.
(** a property of the object that the two steps of the synthesis loops
    keep *)
Variable P : Excellon -> Prop.
Hypothesis P_emit : forall msg e, P e -> P (emit msg e).
Hypothesis P_append :
  forall name t poly e,
    tools e !! name = Some t -> P e -> P (append_geometry name t poly e).

Lemma create_drills_keeps ds : forall e, P e -> P (result_state (create_drills ds e)).
Proof.
  induction ds as [|d ds IH]; intros e He; simpl; [exact He|].
  destruct (String.eqb (drill_tool d) "").
  - apply IH, P_emit, He.
  - destruct (tools e !! drill_tool d) eqn:Hl; [|exact He].
    apply IH, P_append; assumption.
Qed.

Lemma create_slots_keeps ss : forall e, P e -> P (result_state (create_slots ss e)).
Proof.
  induction ss as [|s ss IH]; intros e He; simpl; [exact He|].
  destruct (tools e !! slot_tool s) eqn:Hl; [|exact He].
  apply IH, P_append; assumption.
Qed.

Hypothesis P_clear :
  forall e, P e -> P (set_tools (clear_geometry <$> tools e) (set_solid_geometry [] e)).

Lemma create_geometry_keeps e : P e -> P (snd (create_geometry e)).
Proof.
  intros He. unfold create_geometry.
  pose proof (create_drills_keeps
                (drills (set_tools (clear_geometry <$> tools (set_solid_geometry [] e))
                           (set_solid_geometry [] e)))
                _ (P_clear e He)) as Hd.
  simpl in *.
  destruct (create_drills _ _) as [e1|e1]; simpl in *; [|exact Hd].
  pose proof (create_slots_keeps (slots e1) e1 Hd) as Hs.
  destruct (create_slots _ _); exact Hs.
Qed.
End FrameOfSynthesis.

Lemma create_geometry_untouched e : untouched e (snd (create_geometry e)).
Proof.
  apply (create_geometry_keeps (untouched e)); unfold untouched; simpl; tauto.
Qed.

Lemma create_geometry_diameters e : same_diameters e (snd (create_geometry e)).
Proof.
  apply (create_geometry_keeps (same_diameters e)); unfold same_diameters.
  - intros msg e' H name. simpl. apply H.
  - intros name t poly e' Hl H name'. simpl.
    destruct (decide (name = name')) as [->|Hne].
    + rewrite lookup_insert_eq. rewrite <- H, Hl. reflexivity.
    + rewrite lookup_insert_ne by assumption. apply H.
  - intros e' H name. simpl. rewrite lookup_fmap, <- H.
    destruct (tools e' !! name); reflexivity.
  - intros name. reflexivity.
Qed.

(** ** [scale] and [convert_units] *)

Lemma scale_unfold xfactor yfactor point e :
  scale xfactor yfactor point e =
  let yf := match yfactor with None => xfactor | Some y => y end in
  let origin := match point with None => (0, 0) | Some p => p end in
  if bool_decide (xfactor = 0) && bool_decide (yf = 0) then e
  else
    snd (create_geometry
           (set_slots (map (scale_slot xfactor yf origin) (slots e))
              (set_tools (scale_tool_geometry xfactor yf origin <$> tools e)
                 (set_drills (map (scale_drill xfactor yf origin) (drills e)) e)))).
Proof. reflexivity. Qed.

(** what [scale] does to the features, whatever the factors *)
Lemma scale_features xfactor yfactor point e :
  let yf := match yfactor with None => xfactor | Some y => y end in
  let origin := match point with None => (0, 0) | Some p => p end in
  let e' := scale xfactor yfactor point e in
  (xfactor = 0 /\ yf = 0 -> e' = e) /\
  (~ (xfactor = 0 /\ yf = 0) ->
   drills e' = map (scale_drill xfactor yf origin) (drills e) /\
   slots e' = map (scale_slot xfactor yf origin) (slots e)).
Proof.
  intros yf origin e'. subst e'. rewrite scale_unfold. fold yf origin. simpl.
  split.
  - intros [-> ->]. reflexivity.
  - intros Hnz.
    destruct (bool_decide (xfactor = 0) && bool_decide (yf = 0)) eqn:Hb.
    + apply andb_prop in Hb as [H1 H2].
      apply bool_decide_eq_true in H1, H2. tauto.
    + match goal with |- context [create_geometry ?x] =>
        pose proof (create_geometry_untouched x) as (Hd & Hs & _) end.
      simpl in Hd, Hs. auto.
Qed.

Lemma scale_diameters xfactor yfactor point e :
  same_diameters e (scale xfactor yfactor point e).
Proof.
  rewrite scale_unfold. simpl.
  destruct (_ && _); [intros name; reflexivity|].
  intros name.
  match goal with |- context [create_geometry ?x] =>
    rewrite (create_geometry_diameters x name) end.
  simpl. rewrite lookup_fmap. destruct (tools e !! name); reflexivity.
Qed.

Lemma parser_frame_refl e : parser_frame e e.
Proof. unfold parser_frame. tauto. Qed.

Lemma parser_frame_trans e1 e2 e3 :
  parser_frame e1 e2 -> parser_frame e2 e3 -> parser_frame e1 e3.
Proof.
  unfold parser_frame. intros H1 H2.
  repeat match goal with H : _ /\ _ |- _ => destruct H end.
  repeat split; congruence.
Qed.

Lemma untouched_frame e e' : untouched e e' -> parser_frame e e'.
Proof.
  unfold untouched, parser_frame. intros H.
  repeat match goal with H : _ /\ _ |- _ => destruct H end.
  repeat split; congruence.
Qed.

Lemma scale_frame xfactor yfactor point e :
  parser_frame e (scale xfactor yfactor point e).
Proof.
  rewrite scale_unfold. simpl.
  destruct (_ && _); [apply parser_frame_refl|].
  match goal with |- context [create_geometry ?x] =>
    pose proof (create_geometry_untouched x) as H end.
  unfold untouched in H. simpl in H. unfold parser_frame.
  repeat match goal with H : _ /\ _ |- _ => destruct H end.
  repeat split; try congruence.
  - rewrite H, length_map. reflexivity.
  - rewrite H0, length_map. reflexivity.
  - rewrite H. rewrite map_map. reflexivity.
  - rewrite H0. rewrite map_map. reflexivity.
Qed.

Lemma set_units_frame u e : parser_frame e (set_units u e).
Proof. unfold parser_frame. cbn. tauto. Qed.

Lemma set_factor_frame f e : parser_frame e (set_file_units_factor f e).
Proof. unfold parser_frame. cbn. tauto. Qed.

Lemma set_tools_frame ts e : parser_frame e (set_tools ts e).
Proof. unfold parser_frame. cbn. tauto. Qed.

Lemma snd_pair {A B : Type} (a : A) (b : B) : snd (a, b) = b.
Proof. reflexivity. Qed.

Lemma fst_pair {A B : Type} (a : A) (b : B) : fst (a, b) = a.
Proof. reflexivity. Qed.

Lemma convert_units_snd u e :
  snd (convert_units u e) = converted (conversion_factor u e) u e.
Proof. unfold convert_units, converted. rewrite snd_pair. reflexivity. Qed.

Lemma convert_units_fst u e :
  fst (convert_units u e) = conversion_factor u e.
Proof. unfold convert_units. rewrite fst_pair. reflexivity. Qed.

Lemma converted_frame f u e : parser_frame e (converted f u e).
Proof.
  unfold converted.
  eapply parser_frame_trans; [apply set_units_frame|].
  eapply parser_frame_trans; [apply scale_frame|].
  eapply parser_frame_trans; [apply set_factor_frame|].
  eapply parser_frame_trans; [apply set_tools_frame|].
  apply untouched_frame, create_geometry_untouched.
Qed.

Lemma convert_units_frame u e : parser_frame e (snd (convert_units u e)).
Proof. rewrite convert_units_snd. apply converted_frame. Qed.

Lemma converted_diameters f u e name :
  tool_C <$> (tools (converted f u e) !! name) =
  (fun t => tool_C t * f) <$> (tools e !! name).
Proof.
  unfold converted. rewrite create_geometry_diameters.
  change (tools (set_tools ?ts ?x)) with ts.
  rewrite lookup_fmap.
  change (tools (set_file_units_factor ?g ?x)) with (tools x).
  pose proof (scale_diameters f (Some f) None (set_units u e) name) as H.
  change (tools (set_units u e)) with (tools e) in H.
  destruct (tools (scale _ _ _ _) !! name) as [t'|];
    destruct (tools e !! name) as [t|]; cbn in *; try discriminate; [|reflexivity].
  injection H as H. rewrite H. reflexivity.
Qed.

(** [convert_units] multiplies every diameter by the factor it returns *)
Lemma convert_units_diameters u e name :
  tool_C <$> (tools (snd (convert_units u e)) !! name) =
  (fun t => tool_C t * fst (convert_units u e)) <$> (tools e !! name).
Proof. rewrite convert_units_snd, convert_units_fst. apply converted_diameters. Qed.

(** Claim C10.  [scale] called with both factors equal to 0 (the second
    one given as 0 or left out, so that it takes the value of the first)
    returns at once and changes nothing: the object after the call is the
    object before it, with every drill, slot, tool diameter and stored
    geometry. *)
Theorem scale_zero_is_noop (point : option (Qc * Qc)) (e : Excellon) :
  scale 0 None point e = e /\ scale 0 (Some 0) point e = e.
Proof. split; reflexivity. Qed.

Lemma affinity_scale_inverse (p : Point) (f : Qc) :
  f <> 0 ->
  affinity_scale (affinity_scale p f f (0, 0)) (1 / f) (1 / f) (0, 0) = p.
Proof.
  intros Hf. destruct p as [x y]. unfold affinity_scale. simpl.
  f_equal; field; exact Hf.
Qed.

Lemma one_over_nonzero (f : Qc) : f <> 0 -> 1 / f <> 0.
Proof.
  intros Hf H. apply Hf.
  assert (f * (1 / f) = 1) as H1 by (field; exact Hf).
  rewrite H in H1. rewrite Qcmult_0_r in H1. discriminate H1.
Qed.

Lemma scale_nonzero_features (f : Qc) (e : Excellon) :
  f <> 0 ->
  drills (scale f None None e) = map (scale_drill f f (0, 0)) (drills e) /\
  slots (scale f None None e) = map (scale_slot f f (0, 0)) (slots e).
Proof.
  intros Hf.
  destruct (scale_features f None None e) as [_ H]. simpl in H.
  apply H. intros [H0 _]. exact (Hf H0).
Qed.

(** Claim C8.  For a factor [f] other than 0, [scale(f)] followed by
    [scale(1/f)] gives back every drill, every slot (start, stop and tool)
    and every tool diameter of the object, exactly (numbers are exact
    rationals here). *)
Theorem scale_round_trip (f : Qc) (e : Excellon) :
  f <> 0 ->
  let e' := scale (1 / f) None None (scale f None None e) in
  drills e' = drills e /\ slots e' = slots e /\
  forall name, tool_C <$> (tools e' !! name) = tool_C <$> (tools e !! name).
Proof.
  intros Hf e'. subst e'.
  pose proof (one_over_nonzero f Hf) as Hg.
  destruct (scale_nonzero_features (1 / f) (scale f None None e) Hg) as [Hd Hs].
  destruct (scale_nonzero_features f e Hf) as [Hd0 Hs0].
  rewrite Hd, Hs, Hd0, Hs0. rewrite !map_map.
  split; [|split].
  - rewrite <- (map_id (drills e)) at 2. apply map_ext.
    intros [p t]. unfold scale_drill. cbn [drill_point drill_tool].
    rewrite affinity_scale_inverse by exact Hf. reflexivity.
  - rewrite <- (map_id (slots e)) at 2. apply map_ext.
    intros [a b t]. unfold scale_slot. cbn [slot_start slot_stop slot_tool].
    rewrite !affinity_scale_inverse by exact Hf. reflexivity.
  - intros name. rewrite scale_diameters, scale_diameters. reflexivity.
Qed.

Lemma scale_round_trip_witness :
  let e' := scale (1 / Py.Zq 2) None None (scale (Py.Zq 2) None None one_tool_document) in
  drills e' = drills one_tool_document /\ slots e' = slots one_tool_document /\
  forall name, tool_C <$> (tools e' !! name) = tool_C <$> (tools one_tool_document !! name).
Proof. apply (scale_round_trip (Py.Zq 2)). intros H. discriminate H. Defined.

Lemma drill_geometry_diameters ts ts' res d :
  (forall name, tool_C <$> (ts' !! name) = tool_C <$> (ts !! name)) ->
  drill_geometry ts' res d = drill_geometry ts res d.
Proof. intros H. unfold drill_geometry. rewrite H. reflexivity. Qed.

Lemma slot_geometry_diameters ts ts' res s :
  (forall name, tool_C <$> (ts' !! name) = tool_C <$> (ts !! name)) ->
  slot_geometry ts' res s = slot_geometry ts res s.
Proof. intros H. unfold slot_geometry. rewrite H. reflexivity. Qed.

Lemma append_geometry_diameters name t poly e :
  tools e !! name = Some t ->
  same_diameters e (append_geometry name t poly e).
Proof.
  intros Hl name'. simpl.
  destruct (decide (name = name')) as [->|Hne].
  - rewrite lookup_insert_eq, Hl. reflexivity.
  - rewrite lookup_insert_ne by assumption. reflexivity.
Qed.

Lemma passes_diameters_drill ts ts' d :
  (forall name, tool_C <$> (ts' !! name) = tool_C <$> (ts !! name)) ->
  drill_passes ts d -> drill_passes ts' d.
Proof.
  intros H [He|[t Ht]]; [left; exact He|right].
  specialize (H (drill_tool d)). rewrite Ht in H.
  destruct (ts' !! drill_tool d); [eauto|discriminate].
Qed.

Lemma passes_diameters_slot ts ts' s :
  (forall name, tool_C <$> (ts' !! name) = tool_C <$> (ts !! name)) ->
  slot_passes ts s -> slot_passes ts' s.
Proof.
  intros H [t Ht]. unfold slot_passes.
  specialize (H (slot_tool s)). rewrite Ht in H.
  destruct (ts' !! slot_tool s); [eauto|discriminate].
Qed.

Lemma omap_pointwise {A B : Type} (f g : A -> option B) (l : list A) :
  (forall x, f x = g x) -> omap f l = omap g l.
Proof.
  intros H. induction l as [|x l IH]; [reflexivity|].
  csimpl. rewrite H, IH. reflexivity.
Qed.

(** the loop over drills that all pass *)
Lemma create_drills_pass ds : forall e,
  Forall (drill_passes (tools e)) ds ->
  exists e',
    create_drills ds e = Normal e' /\
    solid_geometry e' =
      (solid_geometry e
       ++ omap (drill_geometry (tools e) (buffer_resolution e)) ds)%list /\
    inform e' = (inform e ++ ((fun _ => drill_skipped_msg) <$> toolless ds))%list /\
    same_diameters e e' /\
    geo_steps_per_circle e' = geo_steps_per_circle e /\
    drills e' = drills e /\ slots e' = slots e.
Proof.
  induction ds as [|d ds IH]; intros e Hall.
  - exists e. simpl. rewrite !app_nil_r. repeat split; reflexivity.
  - apply Forall_cons in Hall as [Hd Hall]. simpl.
    unfold toolless. rewrite filter_cons. unfold drill_geometry at 1.
    destruct (String.eqb (drill_tool d) "") eqn:Heq.
    + apply String.eqb_eq in Heq.
      destruct (IH (emit drill_skipped_msg e) Hall)
        as (e' & Hr & Hg & Hi & Hc & Hn & Hdr & Hsl).
      exists e'. simpl in *. rewrite decide_True by exact Heq.
      repeat split; try assumption.
      rewrite Hi. simpl. rewrite <- app_assoc. reflexivity.
    + apply String.eqb_neq in Heq.
      destruct Hd as [Hd|[t Ht]]; [contradiction|].
      rewrite Ht. simpl.
      set (e1 := append_geometry _ _ _ e).
      pose proof (append_geometry_diameters _ _
                    (Shape (PointBuffer (drill_point d) (tool_C t / Py.Zq 2)
                              (buffer_resolution e))) e Ht) as Hsame.
      fold e1 in Hsame.
      destruct (IH e1) as (e' & Hr & Hg & Hi & Hc & Hn & Hdr & Hsl).
      { eapply Forall_impl; [exact Hall|].
        intros d'. apply passes_diameters_drill. exact Hsame. }
      exists e'. rewrite decide_False by exact Heq.
      repeat split; try assumption.
      * rewrite Hg. subst e1. simpl. rewrite <- app_assoc. simpl.
        f_equal. f_equal.
        apply omap_pointwise. intros d'.
        apply drill_geometry_diameters. exact Hsame.
      * intros name. rewrite Hc. apply Hsame.
Qed.

Lemma create_drills_app ds1 ds2 : forall e,
  create_drills (ds1 ++ ds2) e =
  match create_drills ds1 e with
  | Normal e1 => create_drills ds2 e1
  | Raised e1 => Raised e1
  end.
Proof.
  induction ds1 as [|d ds1 IH]; intros e; simpl; [reflexivity|].
  destruct (String.eqb (drill_tool d) ""); [apply IH|].
  destruct (tools e !! drill_tool d); [apply IH|reflexivity].
Qed.

Lemma create_slots_app ss1 ss2 : forall e,
  create_slots (ss1 ++ ss2) e =
  match create_slots ss1 e with
  | Normal e1 => create_slots ss2 e1
  | Raised e1 => Raised e1
  end.
Proof.
  induction ss1 as [|s ss1 IH]; intros e; simpl; [reflexivity|].
  destruct (tools e !! slot_tool s); [apply IH|reflexivity].
Qed.

(** the loop over slots that all pass *)
Lemma create_slots_pass ss : forall e,
  Forall (slot_passes (tools e)) ss ->
  exists e',
    create_slots ss e = Normal e' /\
    solid_geometry e' =
      (solid_geometry e
       ++ omap (slot_geometry (tools e) (buffer_resolution e)) ss)%list /\
    inform e' = inform e /\
    same_diameters e e' /\
    geo_steps_per_circle e' = geo_steps_per_circle e /\
    drills e' = drills e /\ slots e' = slots e.
Proof.
  induction ss as [|s ss IH]; intros e Hall.
  - exists e. simpl. rewrite !app_nil_r. repeat split; reflexivity.
  - apply Forall_cons in Hall as [[t Ht] Hall]. simpl.
    unfold slot_geometry at 1. rewrite Ht. simpl.
    set (e1 := append_geometry _ _ _ e).
    pose proof (append_geometry_diameters _ _
                  (Shape (LineBuffer (slot_start s) (slot_stop s)
                            (tool_C t / Py.Zq 2) (buffer_resolution e))) e Ht)
      as Hsame.
    fold e1 in Hsame.
    destruct (IH e1) as (e' & Hr & Hg & Hi & Hc & Hn & Hdr & Hsl).
    { eapply Forall_impl; [exact Hall|].
      intros s'. apply passes_diameters_slot. exact Hsame. }
    exists e'. repeat split; try assumption.
    + rewrite Hg. subst e1. simpl. rewrite <- app_assoc. simpl.
      f_equal. f_equal.
      apply omap_pointwise. intros s'.
      apply slot_geometry_diameters. exact Hsame.
    + intros name. rewrite Hc. apply Hsame.
Qed.

(** the loop over the drills stops at the first drill whose tool reference
    is not empty and is not a key *)
Lemma create_drills_stop ds1 d ds2 e :
  Forall (drill_passes (tools e)) ds1 ->
  drill_tool d <> "" -> tools e !! drill_tool d = None ->
  exists e',
    create_drills (ds1 ++ d :: ds2) e = Raised e' /\
    solid_geometry e' =
      (solid_geometry e
       ++ omap (drill_geometry (tools e) (buffer_resolution e)) ds1)%list /\
    inform e' = (inform e ++ ((fun _ => drill_skipped_msg) <$> toolless ds1))%list.
Proof.
  intros Hall Hne Hmiss.
  destruct (create_drills_pass ds1 e Hall) as (e' & Hr & Hg & Hi & Hc & _).
  exists e'. rewrite create_drills_app, Hr. simpl.
  apply String.eqb_neq in Hne. rewrite Hne.
  specialize (Hc (drill_tool d)). rewrite Hmiss in Hc.
  destruct (tools e' !! drill_tool d); [discriminate|]. auto.
Qed.

Lemma create_slots_stop ss1 s ss2 e :
  Forall (slot_passes (tools e)) ss1 ->
  tools e !! slot_tool s = None ->
  exists e',
    create_slots (ss1 ++ s :: ss2) e = Raised e' /\
    solid_geometry e' =
      (solid_geometry e
       ++ omap (slot_geometry (tools e) (buffer_resolution e)) ss1)%list /\
    inform e' = inform e.
Proof.
  intros Hall Hmiss.
  destruct (create_slots_pass ss1 e Hall) as (e' & Hr & Hg & Hi & Hc & _).
  exists e'. rewrite create_slots_app, Hr. simpl.
  specialize (Hc (slot_tool s)). rewrite Hmiss in Hc.
  destruct (tools e' !! slot_tool s); [discriminate|]. auto.
Qed.

Lemma create_geometry_cleared e :
  create_geometry e =
  match create_drills (drills e) (cleared e) with
  | Raised e' => (RetFail, e')
  | Normal e' =>
      match create_slots (slots e') e' with
      | Raised e'' => (RetFail, e'')
      | Normal e'' => (RetNone, e'')
      end
  end.
Proof. reflexivity. Qed.

Lemma cleared_diameters e : same_diameters e (cleared e).
Proof.
  intros name. simpl. rewrite lookup_fmap.
  destruct (tools e !! name); reflexivity.
Qed.

Lemma cleared_passes_drill e d :
  drill_passes (tools e) d -> drill_passes (tools (cleared e)) d.
Proof. apply passes_diameters_drill, cleared_diameters. Qed.

Lemma cleared_lookup_none e name :
  tools e !! name = None -> tools (cleared e) !! name = None.
Proof. intros H. simpl. rewrite lookup_fmap, H. reflexivity. Qed.

Lemma drills_geometry_cleared e ds :
  omap (drill_geometry (tools (cleared e)) (buffer_resolution (cleared e))) ds
  = drills_geometry e ds.
Proof.
  apply omap_pointwise. intros d.
  apply drill_geometry_diameters, cleared_diameters.
Qed.

(** every feature passes: the synthesis returns [None] and produces the
    buffers of all drills with a tool, then of all slots *)
Lemma create_geometry_complete e :
  Forall (drill_passes (tools e)) (drills e) ->
  Forall (slot_passes (tools e)) (slots e) ->
  fst (create_geometry e) = RetNone /\
  solid_geometry (snd (create_geometry e)) =
    (drills_geometry e (drills e) ++ slots_geometry e (slots e))%list /\
  inform (snd (create_geometry e)) = (inform e ++ skip_warnings (drills e))%list.
Proof.
  intros Hd Hs. rewrite create_geometry_cleared.
  destruct (create_drills_pass (drills e) (cleared e))
    as (e1 & Hr & Hg & Hi & Hc & Hn & Hdr & Hsl).
  { eapply Forall_impl; [exact Hd|]. intros d. apply cleared_passes_drill. }
  rewrite Hr.
  assert (same_diameters e e1) as Hc1.
  { intros name. rewrite Hc. apply cleared_diameters. }
  destruct (create_slots_pass (slots e1) e1)
    as (e2 & Hr2 & Hg2 & Hi2 & _).
  { rewrite Hsl. change (slots (cleared e)) with (slots e).
    eapply Forall_impl; [exact Hs|].
    intros s. apply passes_diameters_slot. exact Hc1. }
  rewrite Hr2. simpl. split; [reflexivity|]. split.
  - rewrite Hg2, Hg, drills_geometry_cleared.
    change (solid_geometry (cleared e)) with (@nil geom).
    rewrite app_nil_l. f_equal. rewrite Hsl.
    change (slots (cleared e)) with (slots e).
    unfold slots_geometry, buffer_resolution. rewrite Hn.
    change (geo_steps_per_circle (cleared e)) with (geo_steps_per_circle e).
    apply omap_pointwise. intros s.
    apply slot_geometry_diameters. exact Hc1.
  - rewrite Hi2, Hi. reflexivity.
Qed.

Lemma append_geometry_same name t poly e1 e2 :
  same_geometry e1 e2 ->
  same_geometry (append_geometry name t poly e1) (append_geometry name t poly e2).
Proof.
  intros (Ht & Hg & Hn). unfold same_geometry. cbn.
  rewrite Ht, Hg. auto.
Qed.

Lemma create_drills_same ds : forall e1 e2,
  same_geometry e1 e2 -> same_end (create_drills ds e1) (create_drills ds e2).
Proof.
  induction ds as [|d ds IH]; intros e1 e2 H; cbn [create_drills].
  - exact H.
  - destruct (String.eqb (drill_tool d) "").
    + apply IH. destruct H as (Ht & Hg & Hn). repeat split; assumption.
    + pose proof H as (Ht & Hg & Hn). rewrite Ht.
      destruct (tools e2 !! drill_tool d) as [t|]; [|exact H].
      unfold buffer_resolution. rewrite Hn.
      apply IH, append_geometry_same, H.
Qed.

Lemma create_slots_same ss : forall e1 e2,
  same_geometry e1 e2 -> same_end (create_slots ss e1) (create_slots ss e2).
Proof.
  induction ss as [|s ss IH]; intros e1 e2 H; cbn [create_slots].
  - exact H.
  - pose proof H as (Ht & Hg & Hn). rewrite Ht.
    destruct (tools e2 !! slot_tool s) as [t|]; [|exact H].
    unfold buffer_resolution. rewrite Hn.
    apply IH, append_geometry_same, H.
Qed.

Lemma cleared_same e1 e2 :
  same_inputs e1 e2 -> same_geometry (cleared e1) (cleared e2).
Proof.
  intros (_ & _ & Hn & Hc). unfold same_geometry, cleared. cbn.
  split; [|auto]. apply map_eq. intros name. rewrite !lookup_fmap.
  specialize (Hc name).
  destruct (tools e1 !! name) as [t1|], (tools e2 !! name) as [t2|];
    cbn in *; try discriminate; [|reflexivity].
  injection Hc as Hc. unfold clear_geometry. rewrite Hc. reflexivity.
Qed.

Lemma create_drills_slots ds : forall e,
  slots (result_state (create_drills ds e)) = slots e.
Proof.
  intros e.
  apply (create_drills_keeps (fun e' => slots e' = slots e)); auto.
Qed.

(** the synthesis depends only on the features, the diameters and the
    resolution: neither the geometry that the object held nor any other
    attribute plays a part in the return value or in the geometry built *)
Lemma create_geometry_inputs e1 e2 :
  same_inputs e1 e2 ->
  fst (create_geometry e1) = fst (create_geometry e2) /\
  tools (snd (create_geometry e1)) = tools (snd (create_geometry e2)) /\
  solid_geometry (snd (create_geometry e1))
  = solid_geometry (snd (create_geometry e2)).
Proof.
  intros H. pose proof H as (Hd & Hs & _).
  rewrite !create_geometry_cleared.
  pose proof (create_drills_same (drills e1) _ _ (cleared_same e1 e2 H)) as Hr.
  pose proof (create_drills_slots (drills e1) (cleared e1)) as Hs1.
  pose proof (create_drills_slots (drills e2) (cleared e2)) as Hs2.
  rewrite <- Hd.
  rewrite <- Hd in Hs2.
  destruct (create_drills (drills e1) (cleared e1)) as [a|a],
           (create_drills (drills e1) (cleared e2)) as [b|b];
    cbn [same_end result_state] in *; try contradiction.
  - change (slots (cleared e1)) with (slots e1) in Hs1.
    change (slots (cleared e2)) with (slots e2) in Hs2.
    rewrite Hs1, Hs2, <- Hs.
    pose proof (create_slots_same (slots e1) a b Hr) as Hr2.
    destruct (create_slots (slots e1) a) as [a'|a'],
             (create_slots (slots e1) b) as [b'|b'];
      cbn [same_end] in Hr2; try contradiction;
      destruct Hr2 as (Ht & Hg & _); cbn; auto.
  - destruct Hr as (Ht & Hg & _). cbn. auto.
Qed.

(** Claim C1, amended.  [create_geometry] stops at the first feature whose
    tool reference is not a key of the tool table (for a drill: a reference
    that is not empty): it returns ["fail"], no exception escapes, the
    geometry holds the buffers of the features before that one only (all
    drills come before all slots), and the only messages sent are the
    warnings for the drills without a tool among them; nothing is produced
    for the feature itself or for any feature after it.  When every
    drill is without a tool or names a key, and every slot names a key, the
    call returns [None] and produces the buffers of all drills with a tool
    and of all slots. *)
Theorem create_geometry_stops_at_unresolved (e : Excellon) :
  (forall ds1 d ds2,
     drills e = (ds1 ++ d :: ds2)%list ->
     Forall (drill_passes (tools e)) ds1 ->
     drill_tool d <> "" -> tools e !! drill_tool d = None ->
     fst (create_geometry e) = RetFail /\
     solid_geometry (snd (create_geometry e)) = drills_geometry e ds1 /\
     inform (snd (create_geometry e)) = (inform e ++ skip_warnings ds1)%list) /\
  (forall ss1 s ss2,
     Forall (drill_passes (tools e)) (drills e) ->
     slots e = (ss1 ++ s :: ss2)%list ->
     Forall (slot_passes (tools e)) ss1 ->
     tools e !! slot_tool s = None ->
     fst (create_geometry e) = RetFail /\
     solid_geometry (snd (create_geometry e)) =
       (drills_geometry e (drills e) ++ slots_geometry e ss1)%list /\
     inform (snd (create_geometry e)) = (inform e ++ skip_warnings (drills e))%list) /\
  (Forall (drill_passes (tools e)) (drills e) ->
   Forall (slot_passes (tools e)) (slots e) ->
   fst (create_geometry e) = RetNone /\
   solid_geometry (snd (create_geometry e)) =
     (drills_geometry e (drills e) ++ slots_geometry e (slots e))%list /\
   inform (snd (create_geometry e)) = (inform e ++ skip_warnings (drills e))%list).
Proof.
  split; [|split].
  - intros ds1 d ds2 Hds Hall Hne Hmiss.
    rewrite create_geometry_cleared, Hds.
    destruct (create_drills_stop ds1 d ds2 (cleared e)) as (e' & Hr & Hg & Hi).
    + eapply Forall_impl; [exact Hall|]. intros d'. apply cleared_passes_drill.
    + exact Hne.
    + apply cleared_lookup_none, Hmiss.
    + rewrite Hr. simpl. split; [reflexivity|]. split.
      * rewrite Hg, drills_geometry_cleared. reflexivity.
      * rewrite Hi. reflexivity.
  - intros ss1 s ss2 Hd Hss Hall Hmiss.
    rewrite create_geometry_cleared.
    destruct (create_drills_pass (drills e) (cleared e))
      as (e1 & Hr & Hg & Hi & Hc & Hn & Hdr & Hsl).
    { eapply Forall_impl; [exact Hd|]. intros d. apply cleared_passes_drill. }
    rewrite Hr.
    assert (same_diameters e e1) as Hc1.
    { intros name. rewrite Hc. apply cleared_diameters. }
    change (slots (cleared e)) with (slots e) in Hsl. rewrite Hsl, Hss.
    destruct (create_slots_stop ss1 s ss2 e1) as (e2 & Hr2 & Hg2 & Hi2).
    + eapply Forall_impl; [exact Hall|].
      intros s'. apply passes_diameters_slot. exact Hc1.
    + specialize (Hc1 (slot_tool s)). rewrite Hmiss in Hc1.
      destruct (tools e1 !! slot_tool s); [discriminate|reflexivity].
    + rewrite Hr2. simpl. split; [reflexivity|]. split.
      * rewrite Hg2, Hg, drills_geometry_cleared.
        change (solid_geometry (cleared e)) with (@nil geom).
        rewrite app_nil_l. f_equal.
        unfold slots_geometry, buffer_resolution. rewrite Hn.
        change (geo_steps_per_circle (cleared e)) with (geo_steps_per_circle e).
        apply omap_pointwise. intros s'.
        apply slot_geometry_diameters. exact Hc1.
      * rewrite Hi2, Hi. reflexivity.
  - apply create_geometry_complete.
Qed.

Lemma create_geometry_stops_witness :
  fst (create_geometry stray_document) = RetFail /\
  solid_geometry (snd (create_geometry stray_document))
    = drills_geometry stray_document [] /\
  inform (snd (create_geometry stray_document))
    = (inform stray_document ++ skip_warnings [])%list.
Proof.
  destruct (create_geometry_stops_at_unresolved stray_document) as [H _].
  apply (H [] stray_drill [good_drill]).
  - reflexivity.
  - constructor.
  - discriminate.
  - reflexivity.
Defined.

(** Claim C1 fails as stated: a drill names the tool "2", which the table
    does not have; the drill after it names the tool "1", which it has.
    [create_geometry] returns ["fail"], the geometry is empty (the buffer of
    the second drill is not produced) and no message is sent. *)
Lemma create_geometry_unresolved_counterexample :
  stray_drill ∈ drills stray_document /\
  drill_tool stray_drill <> "" /\
  tools stray_document !! drill_tool stray_drill = None /\
  good_drill ∈ drills stray_document /\
  is_Some (drill_geometry (tools stray_document)
             (buffer_resolution stray_document) good_drill) /\
  fst (create_geometry stray_document) = RetFail /\
  solid_geometry (snd (create_geometry stray_document)) = [] /\
  inform (snd (create_geometry stray_document)) = [].
Proof.
  repeat split.
  - apply list_elem_of_In. left. reflexivity.
  - discriminate.
  - apply list_elem_of_In. right. left. reflexivity.
  - vm_compute. eauto.
Qed.

(** Claim C2 fails as stated: scaling by 2 a document whose tool "1" has
    diameter 1 leaves the diameter at 1, not at 2. *)
Lemma scale_diameter_counterexample :
  tool_C <$> (tools one_tool_document !! "1") = Some 1 /\
  tool_C <$> (tools (scale (Py.Zq 2) None None one_tool_document) !! "1") = Some 1 /\
  (1 : Qc) <> 1 * Py.Zq 2.
Proof.
  split; [reflexivity|]. split.
  - rewrite scale_diameters. reflexivity.
  - intros H. discriminate H.
Qed.

Lemma conversion_factor_nonzero u e : conversion_factor u e <> 0.
Proof.
  unfold conversion_factor.
  destruct (String.eqb (Py.upper u) (Py.upper (units e)));
    [intros H; discriminate H|].
  destruct (String.eqb (Py.upper u) "MM");
    [intros H; apply (f_equal this) in H; vm_compute in H; discriminate H|].
  destruct (String.eqb (Py.upper u) "IN");
    [intros H; apply (f_equal this) in H; vm_compute in H; discriminate H|].
  intros H; discriminate H.
Qed.

(** the geometry that [scale] leaves is the one that the synthesis builds
    from the scaled features: the geometry scaled on the way is thrown
    away *)
Lemma scale_geometry (xfactor yf : Qc) (origin : Qc * Qc) (e : Excellon) :
  let moved := scaled_features xfactor yf origin e in
  let e1 :=
    set_slots (map (scale_slot xfactor yf origin) (slots e))
      (set_tools (scale_tool_geometry xfactor yf origin <$> tools e)
         (set_drills (map (scale_drill xfactor yf origin) (drills e)) e)) in
  tools (snd (create_geometry e1)) = tools (snd (create_geometry moved)) /\
  solid_geometry (snd (create_geometry e1))
  = solid_geometry (snd (create_geometry moved)).
Proof.
  intros moved e1.
  apply (create_geometry_inputs e1 moved).
  unfold same_inputs. subst e1 moved. unfold scaled_features. cbn.
  repeat split. intros name. rewrite lookup_fmap.
  destruct (tools e !! name); reflexivity.
Qed.

(** the geometry that [convert_units] leaves, for the factor [f] *)
Lemma converted_geometry (f : Qc) (u : string) (e : Excellon) :
  f <> 0 ->
  let moved :=
    set_tools (scale_diameter f <$> tools e) (scaled_features f f (0, 0) e) in
  drills (converted f u e) = map (scale_drill f f (0, 0)) (drills e) /\
  slots (converted f u e) = map (scale_slot f f (0, 0)) (slots e) /\
  tools (converted f u e) = tools (snd (create_geometry moved)) /\
  solid_geometry (converted f u e) = solid_geometry (snd (create_geometry moved)).
Proof.
  intros Hf moved.
  destruct (scale_features f (Some f) None (set_units u e)) as [_ Hfeat].
  destruct Hfeat as [Hd Hs]; [intros [H _]; contradiction|].
  change (drills (set_units u e)) with (drills e) in Hd.
  change (slots (set_units u e)) with (slots e) in Hs.
  pose proof (scale_diameters f (Some f) None (set_units u e)) as Hc.
  pose proof (scale_frame f (Some f) None (set_units u e)) as Hfr.
  set (e1 := scale f (Some f) None (set_units u e)) in *.
  unfold converted. fold e1.
  set (e2 := set_tools (scale_diameter f <$> tools (set_file_units_factor (Some f) e1))
               (set_file_units_factor (Some f) e1)).
  destruct (create_geometry_untouched e2) as (Ud & Us & _).
  assert (same_inputs e2 moved) as Hin.
  { unfold same_inputs. subst e2 moved. unfold scaled_features. cbn.
    split; [exact Hd|]. split; [exact Hs|]. split.
    - unfold parser_frame in Hfr. cbn in Hfr. tauto.
    - intros name. rewrite !lookup_fmap. specialize (Hc name).
      change (tools (set_units u e)) with (tools e) in Hc.
      destruct (tools e1 !! name) as [t1|], (tools e !! name) as [t|];
        cbn in *; try discriminate; [|reflexivity].
      injection Hc as Hc. rewrite Hc. reflexivity. }
  destruct (create_geometry_inputs e2 moved Hin) as (_ & Ht & Hg).
  split; [rewrite Ud; exact Hd|]. split; [rewrite Us; exact Hs|].
  split; assumption.
Qed.

(** Claim C2, amended.  [scale] leaves every tool diameter as it is.  When
    the two factors are not both 0 it rewrites every drill point and every
    slot start and stop, and the tool table and the solid geometry that it
    leaves are the ones that the synthesis builds from the scaled features
    and the unchanged diameters; the geometry that the object held plays
    no part.  It is [convert_units] that multiplies every diameter, by the
    factor it returns: it scales every drill point and every slot start
    and stop by that factor, and the tool table and the solid geometry
    that it leaves are the ones that the synthesis builds from the scaled
    features and the multiplied diameters. *)
Theorem scale_keeps_diameters (xfactor : Qc) (yfactor : option Qc)
    (point : option (Qc * Qc)) (e : Excellon) :
  let yf := match yfactor with None => xfactor | Some y => y end in
  let origin := match point with None => (0, 0) | Some p => p end in
  let e' := scale xfactor yfactor point e in
  (forall name, tool_C <$> (tools e' !! name) = tool_C <$> (tools e !! name)) /\
  (~ (xfactor = 0 /\ yf = 0) ->
   let moved := scaled_features xfactor yf origin e in
   drills e' = map (scale_drill xfactor yf origin) (drills e) /\
   slots e' = map (scale_slot xfactor yf origin) (slots e) /\
   tools e' = tools (snd (create_geometry moved)) /\
   solid_geometry e' = solid_geometry (snd (create_geometry moved))) /\
  (forall u,
     let f := fst (convert_units u e) in
     let e'' := snd (convert_units u e) in
     let moved :=
       set_tools (scale_diameter f <$> tools e) (scaled_features f f (0, 0) e) in
     (forall name,
        tool_C <$> (tools e'' !! name)
        = (fun t => tool_C t * f) <$> (tools e !! name)) /\
     drills e'' = map (scale_drill f f (0, 0)) (drills e) /\
     slots e'' = map (scale_slot f f (0, 0)) (slots e) /\
     tools e'' = tools (snd (create_geometry moved)) /\
     solid_geometry e'' = solid_geometry (snd (create_geometry moved))).
Proof.
  intros yf origin e'. split; [|split].
  - apply scale_diameters.
  - intros Hnz moved.
    destruct (scale_features xfactor yfactor point e) as [_ H].
    destruct (H Hnz) as [Hd Hs]. fold yf origin e' in Hd, Hs.
    split; [exact Hd|]. split; [exact Hs|].
    subst e'. rewrite scale_unfold. fold yf origin.
    destruct (bool_decide (xfactor = 0) && bool_decide (yf = 0)) eqn:Hb.
    { apply andb_prop in Hb as [H1 H2].
      apply bool_decide_eq_true in H1, H2. tauto. }
    cbv zeta. rewrite Hb. apply scale_geometry.
  - intros u f e'' moved. subst f e'' moved.
    rewrite convert_units_snd, convert_units_fst.
    split; [intros name; apply converted_diameters|].
    apply converted_geometry, conversion_factor_nonzero.
Qed.

Lemma scale_keeps_diameters_witness :
  let e := one_tool_document in
  let e' := scale (Py.Zq 2) None None e in
  let moved := scaled_features (Py.Zq 2) (Py.Zq 2) (0, 0) e in
  (forall name, tool_C <$> (tools e' !! name) = tool_C <$> (tools e !! name)) /\
  drills e' = map (scale_drill (Py.Zq 2) (Py.Zq 2) (0, 0)) (drills e) /\
  slots e' = map (scale_slot (Py.Zq 2) (Py.Zq 2) (0, 0)) (slots e) /\
  tools e' = tools (snd (create_geometry moved)) /\
  solid_geometry e' = solid_geometry (snd (create_geometry moved)).
Proof.
  intros e e' moved.
  destruct (scale_keeps_diameters (Py.Zq 2) None None one_tool_document)
    as (Hc & Hf & _).
  split; [exact Hc|].
  apply Hf. intros [H _]. discriminate H.
Defined.

Lemma take_drop_length c s :
  (String.length (take_while c s) + String.length (drop_while c s))%nat
  = String.length s.
Proof.
  induction s as [|a s IH]; simpl; [reflexivity|].
  destruct (c a); simpl; [rewrite IH|]; reflexivity.
Qed.

Lemma take_while_all c s : all_chars c s = true -> take_while c s = s.
Proof.
  induction s as [|a s IH]; simpl; [reflexivity|].
  intros H. apply andb_prop in H as [Ha Hs]. rewrite Ha, IH; auto.
Qed.

Lemma all_chars_drop c d s : all_chars c s = true -> all_chars c (drop_while d s) = true.
Proof.
  induction s as [|a s IH]; simpl; [reflexivity|].
  intros H. destruct (d a); [|exact H].
  apply andb_prop in H as [_ Hs]. auto.
Qed.

Lemma append_cons (a : ascii) (s t : string) :
  String a s +:+ t = String a (s +:+ t).
Proof. reflexivity. Qed.

Lemma substring_prefix (s t : string) :
  substring 0 (String.length s) (s +:+ t) = s.
Proof.
  induction s as [|a s IH].
  - destruct t; reflexivity.
  - rewrite append_cons. simpl. f_equal. exact IH.
Qed.

Lemma take_drop_append c s : take_while c s +:+ drop_while c s = s.
Proof.
  induction s as [|a s IH]; simpl; [reflexivity|].
  destruct (c a); [rewrite append_cons; f_equal; exact IH|reflexivity].
Qed.

Lemma substring_take_while c s :
  substring 0 (String.length (take_while c s)) s = take_while c s.
Proof.
  induction s as [|a s IH]; simpl; [reflexivity|].
  destruct (c a); simpl; [rewrite IH|]; reflexivity.
Qed.

Lemma substring_whole (s : string) : substring 0 (String.length s) s = s.
Proof. induction s as [|a s IH]; simpl; [|rewrite IH]; reflexivity. Qed.

(** a greedy star takes the longest run when what follows cannot fail *)
Lemma star_longest {R : Type} (c : ascii -> bool) (k : nat -> string -> option R) :
  (forall pos s, is_Some (k pos s)) ->
  forall s pos,
    star c pos s k = k (pos + String.length (take_while c s))%nat (drop_while c s).
Proof.
  intros Hk. induction s as [|a s IH]; intros pos; simpl.
  - rewrite Nat.add_0_r. reflexivity.
  - destruct (c a); simpl.
    + rewrite IH. rewrite <- Nat.add_succ_comm.
      destruct (Hk (S pos + String.length (take_while c s))%nat (drop_while c s))
        as [r Hr].
      rewrite Hr. reflexivity.
    + rewrite Nat.add_0_r. reflexivity.
Qed.

(** the match of [leadingzeros_re] on a run of digits *)
Lemma leadingzeros_at (pos : nat) (ds : string) (gs : groups) {R : Type}
    (k : nat -> string -> groups -> option R) :
  all_chars digit ds = true ->
  (forall p s g, is_Some (k p s g)) ->
  run (Patterns.seq [Grp 1 (Star is_zero_char); Grp 2 (Star digit)]) pos ds gs k
  = k (pos + String.length ds)%nat ""
      ((2%nat, drop_while is_zero_char ds) :: (1%nat, take_while is_zero_char ds) :: gs).
Proof.
  intros Hd Hk. simpl.
  rewrite star_longest.
  2:{ intros p s. rewrite star_longest; [apply Hk|]. intros; apply Hk. }
  rewrite star_longest by (intros; apply Hk).
  pose proof (all_chars_drop digit is_zero_char ds Hd) as Hd'.
  rewrite (take_while_all digit _ Hd').
  replace (drop_while digit (drop_while is_zero_char ds)) with "".
  2:{ clear -Hd'. induction (drop_while is_zero_char ds) as [|a s IH]; simpl in *;
      [reflexivity|]. apply andb_prop in Hd' as [Ha Hs]. rewrite Ha. auto. }
  rewrite <- Nat.add_assoc, take_drop_length.
  replace (pos + String.length (take_while is_zero_char ds) - pos)%nat
    with (String.length (take_while is_zero_char ds)) by lia.
  rewrite substring_take_while.
  replace (pos + String.length ds
           - (pos + String.length (take_while is_zero_char ds)))%nat
    with (String.length (drop_while is_zero_char ds))
    by (pose proof (take_drop_length is_zero_char ds); lia).
  rewrite substring_whole. reflexivity.
Qed.

Lemma digit_not_sign (a : ascii) : digit a = true -> one_of "-+" a = false.
Proof.
  destruct a as [[] [] [] [] [] [] [] []]; intros H;
    first [discriminate H | reflexivity].
Qed.

Lemma digit_not_minus (a : ascii) : digit a = true -> Ascii.eqb a "-" = false.
Proof.
  destruct a as [[] [] [] [] [] [] [] []]; intros H;
    first [discriminate H | reflexivity].
Qed.

Lemma digit_not_plus (a : ascii) : digit a = true -> Ascii.eqb a "+" = false.
Proof.
  destruct a as [[] [] [] [] [] [] [] []]; intros H;
    first [discriminate H | reflexivity].
Qed.

(** a pattern that matches at the start of the text is found there *)
Lemma search_at_start (r : regex) (s : string) (m : rmatch) :
  match_at r 0 s = Some m -> search r s = Some m.
Proof. intros H. unfold search. destruct s; simpl; rewrite H; reflexivity. Qed.

(** [leadingzeros_re] splits a signed run of digits into its leading
    zeros and the digits after them *)
Lemma leadingzeros_search (sgn ds : string) :
  is_sign_prefix sgn -> ds <> "" -> all_chars digit ds = true ->
  search leadingzeros_re (sgn +:+ ds) =
  Some {| whole := sgn +:+ ds;
          caps := [(2%nat, drop_while is_zero_char ds);
                   (1%nat, take_while is_zero_char ds)] |}.
Proof.
  intros Hs Hne Hd.
  assert (forall (p : nat) (s : string) (g : groups),
             is_Some ((fun pos' _ gs =>
                         Some {| whole := substring 0 (pos' - 0) (sgn +:+ ds);
                                 caps := gs |}) p s g)) as Hk by eauto.
  apply search_at_start.
  unfold match_at, leadingzeros_re.
  change (Patterns.seq [Bol; opt_sign; Grp 1 (Star (Ascii.eqb "0")); Grp 2 (Star digit)])
    with (Seq Bol (Seq opt_sign
                     (Patterns.seq [Grp 1 (Star is_zero_char); Grp 2 (Star digit)]))).
  cbn [run Nat.eqb opt_sign].
  destruct Hs as [->|[->| ->]].
  - change ("" +:+ ds) with ds.
    destruct ds as [|a ds']; [contradiction|].
    simpl in Hd. apply andb_prop in Hd as [Ha Hd].
    rewrite (digit_not_sign a Ha).
    rewrite leadingzeros_at; [|simpl; rewrite Ha, Hd; reflexivity|exact Hk].
    cbn [Nat.add Nat.sub]. rewrite Nat.sub_0_r, substring_whole. reflexivity.
  - change ("+" +:+ ds) with (String "+" ds).
    change (one_of "-+" "+"%char) with true. cbv iota.
    rewrite leadingzeros_at; [|exact Hd|exact Hk].
    replace (1 + String.length ds - 0)%nat with (String.length (String "+" ds))
      by (simpl; lia).
    rewrite substring_whole. reflexivity.
  - change ("-" +:+ ds) with (String "-" ds).
    change (one_of "-+" "-"%char) with true. cbv iota.
    rewrite leadingzeros_at; [|exact Hd|exact Hk].
    replace (1 + String.length ds - 0)%nat with (String.length (String "-" ds))
      by (simpl; lia).
    rewrite substring_whole. reflexivity.
Qed.

(** on a run of digits, the digit part of [float] takes all of it *)
Lemma digitpart_tail_digits (s : string) : forall acc n,
  all_chars digit s = true ->
  exists v, Py.digits_value acc s = Some v /\
            Py.digitpart_tail acc n s = (v, (n + String.length s)%nat, "").
Proof.
  induction s as [|a s IH]; intros acc n Hd; simpl.
  - exists acc. rewrite Nat.add_0_r. auto.
  - simpl in Hd. apply andb_prop in Hd as [Ha Hd].
    unfold digit in Ha. rewrite Ha.
    destruct (IH (acc * 10 + Py.digit_val a)%Z (S n) Hd) as (v & Hv & Ht).
    exists v. rewrite Hv, Ht. split; [reflexivity|]. f_equal. f_equal. lia.
Qed.

Lemma float_abs_digits (ds : string) :
  ds <> "" -> all_chars digit ds = true ->
  exists v, Py.digits_value 0 ds = Some v /\ Py.float_abs ds = Some (Py.Zq v).
Proof.
  intros Hne Hd. destruct ds as [|a ds]; [contradiction|].
  simpl in Hd. apply andb_prop in Hd as [Ha Hd].
  destruct (digitpart_tail_digits ds (Py.digit_val a) 1 Hd) as (v & Hv & Ht).
  exists v. unfold Py.float_abs, Py.float_number, Py.digitpart.
  unfold digit in Ha. simpl. rewrite Ha, Ht. simpl. auto.
Qed.

Lemma Zq_opp (v : Z) : Py.Zq (- v) = - Py.Zq v.
Proof. apply Qc_is_canon. unfold Py.Zq. simpl. rewrite !Qred_correct. reflexivity. Qed.

(** on a signed run of digits, the literal of [float] has the value of
    [int] *)
Lemma float_signed_digits (sgn ds : string) :
  is_sign_prefix sgn -> ds <> "" -> all_chars digit ds = true ->
  exists v, Py.int (sgn +:+ ds) = Some v /\
            Py.float_literal (sgn +:+ ds) = Some (Py.Zq v).
Proof.
  intros Hs Hne Hd.
  destruct (float_abs_digits ds Hne Hd) as (v & Hv & Hf).
  destruct Hs as [->|[->| ->]].
  - exists v. change ("" +:+ ds) with ds.
    destruct ds as [|a ds']; [contradiction|].
    pose proof Hd as Hd'. simpl in Hd'. apply andb_prop in Hd' as [Ha _].
    unfold Py.int, Py.float_literal.
    rewrite (digit_not_minus a Ha), (digit_not_plus a Ha). auto.
  - exists v. change ("+" +:+ ds) with (String "+" ds).
    unfold Py.int, Py.float_literal. simpl.
    destruct ds; [contradiction|]. auto.
  - exists (- v)%Z. change ("-" +:+ ds) with (String "-" ds).
    unfold Py.int, Py.float_literal. simpl.
    destruct ds as [|a ds']; [contradiction|].
    rewrite Hv, Hf. simpl. rewrite Zq_opp. auto.
Qed.

(** [parse_number] on a signed run of digits: the quotient of the token by
    the power of ten *)
Lemma parse_number_signed_digits (e : Excellon) (sgn ds : string) :
  is_sign_prefix sgn -> ds <> "" -> all_chars digit ds = true ->
  parse_number e (Some (sgn +:+ ds)) =
  Returns (divided (sgn +:+ ds) (divisor_exponent e (String.length ds))).
Proof.
  intros Hs Hne Hd.
  unfold parse_number. rewrite (leadingzeros_search sgn ds Hs Hne Hd).
  unfold group. cbn [caps group_lookup Nat.eqb].
  rewrite take_drop_length. unfold divisor_exponent.
  destruct (leading_zeros e), (inch_units e); reflexivity.
Qed.

Lemma pow10_nonzero (x : Z) : Qeq_bool (Py.pow10 x) 0 = false.
Proof.
  destruct (Qeq_bool (Py.pow10 x) 0) eqn:H; [|reflexivity].
  apply Qeq_bool_eq in H. unfold Py.pow10 in H. simpl in H.
  rewrite Qred_correct in H. exfalso.
  apply (Qpower_not_0 (10 # 1) x); [discriminate|exact H].
Qed.

(** the power of ten is a float when the exponent is in the range *)
Lemma float_pow10_in_range (x : Z) :
  (-323 <= x <= 308)%Z -> Py.float_pow10 x = Some (Py.pow10 x).
Proof.
  intros [H1 H2]. unfold Py.float_pow10.
  destruct (Z.ltb_spec 308 x); [lia|].
  destruct (Z.ltb_spec x (-323)); [lia|]. reflexivity.
Qed.

(** the quotient on a signed run of digits *)
Lemma divided_signed_digits (sgn ds : string) (x : Z) :
  is_sign_prefix sgn -> ds <> "" -> all_chars digit ds = true ->
  exists v, Py.int (sgn +:+ ds) = Some v /\
    ((-323 <= x <= 308)%Z ->
     divided (sgn +:+ ds) x =
     match Py.round (Py.Zq v) with
     | Py.Finite q => Some (Py.round (q / Py.pow10 x))
     | Py.Infinite n => Some (Py.Infinite n)
     end) /\
    ((308 < x)%Z -> divided (sgn +:+ ds) x = None) /\
    ((x < -323)%Z -> divided (sgn +:+ ds) x = None).
Proof.
  intros Hs Hne Hd.
  destruct (float_signed_digits sgn ds Hs Hne Hd) as (v & Hi & Hf).
  exists v. split; [exact Hi|].
  unfold divided, Py.float. rewrite Hf. cbn [fmap option_fmap option_map].
  split; [|split].
  - intros Hx. rewrite (float_pow10_in_range x Hx).
    unfold Py.truediv. rewrite pow10_nonzero.
    destruct (Py.round (Py.Zq v)) as [q|n]; [reflexivity|].
    assert (Py.is_negative (Py.pow10 x) = false) as Hp.
    { unfold Py.is_negative. apply negb_false_iff, Qle_bool_iff.
      unfold Py.pow10. simpl. rewrite Qred_correct.
      apply Qpower_0_le. discriminate. }
    rewrite Hp, xorb_false_r. reflexivity.
  - intros Hx. unfold Py.float_pow10.
    destruct (Z.ltb_spec 308 x); [reflexivity|lia].
  - intros Hx. unfold Py.float_pow10.
    destruct (Z.ltb_spec 308 x); [reflexivity|].
    destruct (Z.ltb_spec x (-323)); [|lia].
    unfold Py.truediv. reflexivity.
Qed.

(** [parse_number] on a signed run of digits whose value and quotient are
    within the range of the floats *)
Lemma parse_number_in_range (e : Excellon) (sgn ds : string) (v : Z) :
  is_sign_prefix sgn -> ds <> "" -> all_chars digit ds = true ->
  Py.int (sgn +:+ ds) = Some v ->
  let x := divisor_exponent e (String.length ds) in
  (-323 <= x <= 308)%Z ->
  Py.overflows (Py.Zq v) = false ->
  Py.overflows (Py.Zq v / Py.pow10 x) = false ->
  parse_number e (Some (sgn +:+ ds)) =
  Returns (Some (Py.Finite (Py.Zq v / Py.pow10 x))).
Proof.
  intros Hs Hne Hd Hv x Hx Ho Hq.
  rewrite (parse_number_signed_digits e sgn ds Hs Hne Hd). fold x.
  destruct (divided_signed_digits sgn ds x Hs Hne Hd) as (v' & Hv' & Hin & _).
  rewrite Hv in Hv'. injection Hv' as <-.
  rewrite (Hin Hx). unfold Py.round. rewrite Ho, Hq. reflexivity.
Qed.




(** evaluate the closed pattern searches of the goal *)
Ltac eval_closed t :=
  let v := eval vm_compute in t in change t with v.

Ltac eval_searches :=
  repeat match goal with
    | |- context [search ?r ?s] => eval_closed (search r s)
    | |- context [match_ ?r ?s] => eval_closed (match_ r s)
    | |- context [Py.strip ?c ?s] => eval_closed (Py.strip c s)
    | |- context [Py.str_in ?a ?s] => eval_closed (Py.str_in a s)
    end.

(** a closed number is within the range of the floats *)
Ltac in_range :=
  match goal with
  | |- Py.overflows _ = false => vm_compute; reflexivity
  end.

Lemma parse_number_metric_leading (e : Excellon) (ds : string) (v : Z) :
  inch_units e = false -> leading_zeros e = true ->
  excellon_format_upper_mm e = 3%Z ->
  ds <> "" -> all_chars digit ds = true -> Py.int ds = Some v ->
  (String.length ds <= 300)%nat ->
  Py.overflows (Py.Zq v) = false ->
  Py.overflows (Py.Zq v / Py.pow10 (Z.of_nat (String.length ds) - 3)) = false ->
  finite (parse_number e (Some ds)) =
  Returns (Some (Py.Zq v / Py.pow10 (Z.of_nat (String.length ds) - 3))).
Proof.
  intros Hu Hz Hf Hne Hd Hv Hlen Ho Hq.
  assert (divisor_exponent e (String.length ds)
          = (Z.of_nat (String.length ds) - 3)%Z) as Hx.
  { unfold divisor_exponent. rewrite Hz, Hu, Hf. reflexivity. }
  pose proof (parse_number_in_range e "" ds v) as Hp.
  change ("" +:+ ds) with ds in Hp. rewrite Hx in Hp.
  rewrite Hp; try assumption; [reflexivity|left; reflexivity|lia].
Qed.

(** Claim C6.  In the body, with metric units, upper digit count 3 and
    leading zeros kept, the line [X010000Y020000G85X030000Y040000] appends
    exactly one slot, from (10, 20) to (30, 40), with the current tool, and
    no drill: each six-digit token is divided by 10^(6-3). *)
Theorem g85_slot_line_decodes (e : Excellon) (l : Locals) :
  in_header l = false ->
  inch_units e = false -> leading_zeros e = true ->
  excellon_format_upper_mm e = 3%Z ->
  exists e' l',
    parse_line false g85_line e l = Continue e' l' /\
    slots e' =
      (slots e ++ [ {| slot_start := {| pt_x := Py.Zq 10; pt_y := Py.Zq 20 |};
                       slot_stop := {| pt_x := Py.Zq 30; pt_y := Py.Zq 40 |};
                       slot_tool := current_tool l |} ])%list /\
    drills e' = drills e.
Proof.
  intros Hh Hu Hz Hf.
  unfold parse_line, g85_line. eval_searches.
  cbn [matched]. unfold comment_or_header_end. eval_searches. cbn [matched].
  cbn [in_header set_eline set_line_num]. rewrite Hh. cbn [negb].
  unfold body. eval_searches. cbn [matched orb].
  rewrite andb_false_r.
  unfold drilled_slot. cbn [group caps group_lookup Nat.eqb].
  eval_searches. cbn [matched].
  unfold slot_line, group_arg, parse_number_arg.
  cbn [group caps group_lookup Nat.eqb].
  set (e1 := set_excellon_drills _ _).
  assert (inch_units e1 = false) as Hu1 by exact Hu.
  assert (leading_zeros e1 = true) as Hz1 by exact Hz.
  assert (excellon_format_upper_mm e1 = 3%Z) as Hf1 by exact Hf.
  rewrite (parse_number_metric_leading e1 "010000" 10000 Hu1 Hz1 Hf1);
    [|discriminate|reflexivity|reflexivity|simpl; lia| |]; try in_range.
  rewrite (parse_number_metric_leading e1 "020000" 20000 Hu1 Hz1 Hf1);
    [|discriminate|reflexivity|reflexivity|simpl; lia| |]; try in_range.
  rewrite (parse_number_metric_leading e1 "030000" 30000 Hu1 Hz1 Hf1);
    [|discriminate|reflexivity|reflexivity|simpl; lia| |]; try in_range.
  rewrite (parse_number_metric_leading e1 "040000" 40000 Hu1 Hz1 Hf1);
    [|discriminate|reflexivity|reflexivity|simpl; lia| |]; try in_range.
  cbn [sticky]. eexists _, _. split; [reflexivity|].
  split; [|reflexivity].
  cbn [slots set_slots current_tool set_slot_current_x set_slot_current_y
       set_slot_start_x set_slot_start_y]. subst e1. cbn [slots set_excellon_drills set_source_file].
  f_equal. f_equal. f_equal; f_equal; apply Qc_is_canon; reflexivity.
Qed.

Lemma g85_slot_line_decodes_witness :
  exists e' l',
    parse_line false g85_line (new_excellon "MM") initial_locals = Continue e' l' /\
    slots e' =
      (slots (new_excellon "MM")
       ++ [ {| slot_start := {| pt_x := Py.Zq 10; pt_y := Py.Zq 20 |};
               slot_stop := {| pt_x := Py.Zq 30; pt_y := Py.Zq 40 |};
               slot_tool := current_tool initial_locals |} ])%list /\
    drills e' = drills (new_excellon "MM").
Proof.
  apply (g85_slot_line_decodes (new_excellon "MM") initial_locals); reflexivity.
Defined.

(** Claim C7.  When the first line is [G21] or [G20] (blanks and line ends
    around it stripped), [parse_lines] records no drill, no slot and no
    tool; unless the abort flag is already set at that line, it returns
    [None] at once, having only stored the line in [source_file] and sent
    the message that this is G-code.  No exception escapes. *)
Theorem gcode_mark_aborts_parse (abort : nat -> bool) (raw : string)
    (rest : list string) (e : Excellon) :
  Py.strip Py.strip_set raw = "G21" \/ Py.strip Py.strip_set raw = "G20" ->
  let r := parse_lines abort (raw :: rest) e in
  drills (snd r) = drills e /\ slots (snd r) = slots e /\
  tools (snd r) = tools e /\
  (abort 0%nat = false ->
   r = (RetNone,
        emit (gcode_msg (Py.strip Py.strip_set raw))
          (set_source_file (source_file e +:+ raw) e))).
Proof.
  intros Hmark r. subst r. unfold parse_lines. cbn [parse_loop].
  unfold parse_line. destruct (abort 0%nat).
  - simpl. repeat split; try reflexivity. discriminate.
  - assert (matched (search detect_gcode_re (Py.strip Py.strip_set raw)) = true)
      as Hm by (destruct Hmark as [-> | ->]; reflexivity).
    rewrite Hm. simpl. repeat split; reflexivity.
Qed.

Lemma gcode_mark_aborts_parse_witness :
  let e := new_excellon "IN" in
  let raw := String "G" (String "2" (String "1" nl)) in
  let r := parse_lines (fun _ => false) [raw; "T1"; "X1Y1"] e in
  drills (snd r) = drills e /\ slots (snd r) = slots e /\
  tools (snd r) = tools e /\
  ((fun _ : nat => false) 0%nat = false ->
   r = (RetNone,
        emit (gcode_msg (Py.strip Py.strip_set raw))
          (set_source_file (source_file e +:+ raw) e))).
Proof.
  intros e raw.
  apply (gcode_mark_aborts_parse (fun _ => false) raw ["T1"; "X1Y1"] e).
  left. reflexivity.
Defined.

(** ** What one line can change *)

Lemma convert_units_routing_flag u e :
  routing_flag (snd (convert_units u e)) = routing_flag e.
Proof. apply (convert_units_frame u e). Qed.
Lemma convert_units_routing_start u e :
  match_routing_start (snd (convert_units u e)) = match_routing_start e.
Proof. apply (convert_units_frame u e). Qed.
Lemma convert_units_routing_stop u e :
  match_routing_stop (snd (convert_units u e)) = match_routing_stop e.
Proof. apply (convert_units_frame u e). Qed.
Lemma convert_units_slots_length u e :
  length (slots (snd (convert_units u e))) = length (slots e).
Proof. apply (convert_units_frame u e). Qed.
Lemma convert_units_drills_length u e :
  length (drills (snd (convert_units u e))) = length (drills e).
Proof. apply (convert_units_frame u e). Qed.

Local Opaque convert_units.

Ltac split_cases :=
  repeat match goal with
    | |- context [match ?x with _ => _ end] => destruct x eqn:?
    end.

Ltac frame_done :=
  unfold quiet_frame;
  cbn -[convert_units];
  rewrite ?convert_units_routing_flag, ?convert_units_routing_start,
    ?convert_units_routing_stop, ?convert_units_slots_length,
    ?convert_units_drills_length;
  cbn -[convert_units];
  repeat split; auto.

Lemma altium_comment_frame line e l :
  quiet_frame e l (flow_excellon (altium_comment line e l))
    (flow_locals (altium_comment line e l)).
Proof. unfold altium_comment. split_cases; frame_done. Qed.

Lemma quiet_frame_refl e l : quiet_frame e l e l.
Proof. unfold quiet_frame. tauto. Qed.

Lemma quiet_frame_trans e1 l1 e2 l2 e3 l3 :
  quiet_frame e1 l1 e2 l2 -> quiet_frame e2 l2 e3 l3 -> quiet_frame e1 l1 e3 l3.
Proof.
  unfold quiet_frame. intros H1 H2.
  repeat match goal with H : _ /\ _ |- _ => destruct H end.
  repeat split; try congruence. auto.
Qed.

Lemma allegro_comment_frame line m e l :
  quiet_frame e l (flow_excellon (allegro_comment line m e l))
    (flow_locals (allegro_comment line m e l)).
Proof.
  unfold allegro_comment.
  match goal with |- context [match ?x with Normal _ => _ | Raised _ => _ end] =>
    set (uf := x) end.
  assert (quiet_frame e l (fst (result_state uf)) (snd (result_state uf))) as H.
  { subst uf. split_cases; frame_done. }
  destruct uf as [[e0 l0]|[e0 l0]]; cbn [result_state fst snd] in H.
  - pose proof (altium_comment_frame line e0 l0) as Ha.
    split_cases; try (eapply quiet_frame_trans; [exact H|]; first [exact Ha | frame_done]).
  - exact H.
Qed.

Lemma header_end_frame e l :
  quiet_frame e l (excellon_of (header_end e l)) (locals_of (header_end e l)).
Proof.
  unfold header_end.
  destruct (negb (in_header l) || bool_decide (tools e = ∅));
    [destruct (default_units (excellon_units e))|];
    cbn -[convert_units]; destruct (allegro_warning l); frame_done.
Qed.

Lemma comment_or_header_end_frame line e l :
  quiet_frame e l (flow_excellon (comment_or_header_end line e l))
    (flow_locals (comment_or_header_end line e l)).
Proof.
  unfold comment_or_header_end.
  destruct (matched (search comm_re line)).
  - destruct (search tool_units_re line).
    + apply allegro_comment_frame.
    + apply altium_comment_frame.
  - destruct (matched (search hend_re line)).
    + apply header_end_frame.
    + apply quiet_frame_refl.
Qed.

Lemma measuring_mode_frame m e l :
  quiet_frame e l (excellon_of (measuring_mode m e l))
    (locals_of (measuring_mode m e l)).
Proof. unfold measuring_mode. split_cases; frame_done. Qed.

Lemma units_directive_frame m e l :
  quiet_frame e l (excellon_of (units_directive m e l))
    (locals_of (units_directive m e l)).
Proof.
  unfold units_directive.
  destruct (group m 1) as [g|]; [|frame_done].
  destruct (if String.eqb g "METRIC" then _ else _) as [u|]; [|frame_done].
  cbn zeta.
  match goal with |- context [convert_units _ ?x] => set (e1 := x) end.
  assert (quiet_frame e l e1 l) as H.
  { subst e1. cbn -[convert_units]. split_cases; frame_done. }
  eapply quiet_frame_trans; [exact H|]. frame_done.
Qed.



Lemma header_frame line e l :
  quiet_frame e l (flow_excellon (header line e l))
    (flow_locals (header line e l)).
Proof.
  unfold header.
  destruct (search toolset_re line); [split_cases; frame_done|].
  destruct (match_ units_re line); [apply units_directive_frame|].
  split_cases; frame_done.
Qed.





















Local Opaque convert_units.

Lemma parse_line_unfold abort_flag raw e l :
  parse_line abort_flag raw e l =
  if abort_flag then Except e (set_eline raw l)
  else
    let line := Py.strip Py.strip_set raw in
    let l1 := set_eline line (set_line_num (line_num (set_eline raw l) + 1)%Z
                                (set_eline raw l)) in
    let e1 := set_source_file (source_file e +:+ raw) e in
    if matched (search detect_gcode_re line) then
      Return (emit (gcode_msg line) e1) l1
    else if matched (search hbegin_re line) then
      Continue e1 (set_headerless false (set_in_header true l1))
    else if matched (search allegro_hbegin_re line) then
      Continue e1 (set_allegro_warning true (set_in_header true l1))
    else
      match comment_or_header_end line e1 l1 with
      | Done r => r
      | Fall e2 l2 => after_comment line e2 l2
      end.
Proof. reflexivity. Qed.







Local Opaque convert_units.


















(** a rout, a plain hole after it: the hole is dropped *)
Example hole_after_rout_is_dropped :
  let r := parse_lines never_abort ["T1"; "X1Y1"; "G00X1Y1"; "G01X2Y2"; "X3Y3"]
             (new_excellon "IN") in
  fst r = RetNone /\
  map (fun d => coords_of (drill_point d)) (drills (snd r)) = [(10 # 1, 10 # 1)]%Q /\
  length (slots (snd r)) = 1%nat.
Proof. vm_compute. repeat split. Qed.



(** Claim C5 fails on the code: with the [G85] slot line [X5Y5G85X6Y6]
    between the [G00] line (point (10, 10)) and the [G01] line (point
    (20, 20)), the slot of the rout starts at (50, 50), the start of the
    drilled slot, and no slot starts at (10, 10): the [G85] rule assigns
    the variables [slot_start_x] and [slot_start_y], in which the [G00]
    rule keeps the start of the open rout. *)
Lemma g85_line_overwrites_rout_start :
  let r := parse_lines never_abort clobbered_rout (new_excellon "IN") in
  coords_of {| pt_x := default 0 (current_x (locals_of after_g00));
               pt_y := default 0 (current_y (locals_of after_g00)) |}
    = (10 # 1, 10 # 1)%Q /\
  fst r = RetNone /\
  map (fun s => (coords_of (slot_start s), coords_of (slot_stop s)))
    (slots (snd r))
  = [((50 # 1, 50 # 1), (60 # 1, 60 # 1));
     ((50 # 1, 50 # 1), (20 # 1, 20 # 1))]%Q /\
  ~ (exists s, s ∈ slots (snd r) /\ coords_of (slot_start s) = (10 # 1, 10 # 1)%Q).
Proof.
  cbv zeta.
  assert (map (fun s => (coords_of (slot_start s), coords_of (slot_stop s)))
            (slots (snd (parse_lines never_abort clobbered_rout (new_excellon "IN"))))
          = [((50 # 1, 50 # 1), (60 # 1, 60 # 1));
             ((50 # 1, 50 # 1), (20 # 1, 20 # 1))]%Q) as Hs
    by (vm_compute; reflexivity).
  split; [vm_compute; reflexivity|]. split; [vm_compute; reflexivity|].
  split; [exact Hs|].
  intros (s & Hin & Hst).
  assert ((coords_of (slot_start s), coords_of (slot_stop s))
          ∈ map (fun s => (coords_of (slot_start s), coords_of (slot_stop s)))
              (slots (snd (parse_lines never_abort clobbered_rout (new_excellon "IN")))))
    as Hin'.
  { apply list_elem_of_In, in_map_iff. exists s. split; [reflexivity|].
    apply list_elem_of_In. exact Hin. }
  rewrite Hs, Hst in Hin'.
  apply list_elem_of_In in Hin'. simpl in Hin'.
  destruct Hin' as [H|[H|[]]]; discriminate H.
Qed.

(** X18.  With a base that is a number other than 0 on both axes, the
    repeat loop drills at the multiples of the step from the base, the
    highest multiple first: for the count [n], at [k * x + bx],
    [k * y + by] for [k] from [n] down to 1. *)
Theorem repeat_holes_formula (n : nat) (x y bx by_ : Qc) (t : string) :
  bx <> 0 -> by_ <> 0 ->
  forall coordx coordy,
    repeat_holes n x y (Some bx) (Some by_) t (Z.of_nat n) coordx coordy =
    map (fun k => {| drill_point := {| pt_x := Py.Zq k * x + bx;
                                       pt_y := Py.Zq k * y + by_ |};
                     drill_tool := t |})
      (countdown n).
Proof.
  intros Hx Hy. induction n as [|n IH]; intros coordx coordy; [reflexivity|].
  cbn [repeat_holes countdown map truthy].
  rewrite !bool_decide_eq_false_2 by assumption. cbn [negb].
  f_equal. replace (Z.of_nat (S n) - 1)%Z with (Z.of_nat n) by lia.
  apply IH.
Qed.

Lemma repeat_holes_formula_witness :
  repeat_holes 3 (Py.Zq 10) 0 (Some (Py.Zq 100)) (Some (Py.Zq 100)) "1"
    (Z.of_nat 3) (Py.Zq 10) 0 =
  map (fun k => {| drill_point := {| pt_x := Py.Zq k * Py.Zq 10 + Py.Zq 100;
                                     pt_y := Py.Zq k * 0 + Py.Zq 100 |};
                   drill_tool := "1" |})
    (countdown 3).
Proof.
  apply (repeat_holes_formula 3 (Py.Zq 10) 0 (Py.Zq 100) (Py.Zq 100) "1");
    intros H; discriminate H.
Defined.

(** Claim C4 fails on the code: after the hole [X0Y0], the line [R3X1]
    (step 10 along X, base X equal to 0) gives three holes at (10, 0), where
    the claim gives (30, 0), (20, 0), (10, 0): the test [if repeating_x]
    takes the base coordinate 0 for a missing axis. *)
Lemma repeat_from_zero_base_ignores_step :
  let r := parse_lines never_abort repeat_from_origin (new_excellon "IN") in
  fst r = RetNone /\
  map (fun d => coords_of (drill_point d)) (drills (snd r))
  = [(0 # 1, 0 # 1); (10 # 1, 0 # 1); (10 # 1, 0 # 1); (10 # 1, 0 # 1)]%Q /\
  map (fun k => (this (Py.Zq k * Py.Zq 10 + 0), this (0 : Qc))) (countdown 3)
  = [(30 # 1, 0 # 1); (20 # 1, 0 # 1); (10 # 1, 0 # 1)]%Q.
Proof. vm_compute. repeat split. Qed.

(** ** More on the geometry synthesis *)

(** X1.  [create_geometry] reads only the drills, the slots, the tool
    diameters and the resolution: two objects that agree on these get the
    same return value, the same tool table and the same solid geometry,
    whatever geometry and other attributes they held. *)
Theorem create_geometry_reads_only_inputs (e1 e2 : Excellon) :
  drills e1 = drills e2 -> slots e1 = slots e2 ->
  geo_steps_per_circle e1 = geo_steps_per_circle e2 ->
  (forall name, tool_C <$> (tools e1 !! name) = tool_C <$> (tools e2 !! name)) ->
  fst (create_geometry e1) = fst (create_geometry e2) /\
  tools (snd (create_geometry e1)) = tools (snd (create_geometry e2)) /\
  solid_geometry (snd (create_geometry e1))
  = solid_geometry (snd (create_geometry e2)).
Proof.
  intros Hd Hs Hn Hc. apply create_geometry_inputs.
  unfold same_inputs. auto.
Qed.

Lemma create_geometry_reads_only_inputs_witness :
  fst (create_geometry synthesized_document)
  = fst (create_geometry one_tool_document) /\
  tools (snd (create_geometry synthesized_document))
  = tools (snd (create_geometry one_tool_document)) /\
  solid_geometry (snd (create_geometry synthesized_document))
  = solid_geometry (snd (create_geometry one_tool_document)).
Proof.
  apply (create_geometry_reads_only_inputs synthesized_document
           one_tool_document).
  - reflexivity.
  - reflexivity.
  - reflexivity.
  - intros name. unfold synthesized_document.
    change (tools (set_units "IN" ?x)) with (tools x).
    apply create_geometry_diameters.
Defined.

(** X2.  [create_geometry] is idempotent on the geometry: a second call
    right after a first one returns the same value and leaves the same
    tool table and the same solid geometry, and neither call touches the
    drills or the slots. *)
Theorem create_geometry_idempotent (e : Excellon) :
  let once := create_geometry e in
  let twice := create_geometry (snd once) in
  fst twice = fst once /\
  tools (snd twice) = tools (snd once) /\
  solid_geometry (snd twice) = solid_geometry (snd once) /\
  drills (snd twice) = drills e /\ slots (snd twice) = slots e.
Proof.
  intros once twice. subst once twice.
  destruct (create_geometry_untouched e) as (Hd & Hs & Hrest).
  destruct (create_geometry_untouched (snd (create_geometry e)))
    as (Hd2 & Hs2 & _).
  assert (same_inputs (snd (create_geometry e)) e) as Hin.
  { unfold same_inputs. split; [exact Hd|]. split; [exact Hs|]. split.
    - unfold untouched in Hrest. tauto.
    - apply create_geometry_diameters. }
  destruct (create_geometry_inputs _ _ Hin) as (Hr & Ht & Hg).
  repeat split; try assumption; congruence.
Qed.

Lemma create_drills_per_tool ds : forall e name,
  Forall (drill_passes (tools e)) ds ->
  tool_geometry (result_state (create_drills ds e)) name =
  (fun g => (g ++ omap (drill_geometry (tools e) (buffer_resolution e))
                    (drills_of name ds))%list)
    <$> tool_geometry e name.
Proof.
  induction ds as [|d ds IH]; intros e name Hall; cbn [create_drills].
  - cbn. unfold tool_geometry. destruct (tools e !! name); cbn; [|reflexivity].
    rewrite app_nil_r. reflexivity.
  - apply Forall_cons in Hall as [Hd Hall].
    unfold drills_of. rewrite filter_cons. fold (drills_of name ds).
    destruct (String.eqb (drill_tool d) "") eqn:Heq.
    + apply String.eqb_eq in Heq.
      rewrite (IH (emit drill_skipped_msg e) name Hall).
      change (tools (emit drill_skipped_msg e)) with (tools e).
      change (buffer_resolution (emit drill_skipped_msg e))
        with (buffer_resolution e).
      change (tool_geometry (emit drill_skipped_msg e) name)
        with (tool_geometry e name).
      destruct (decide (drill_tool d = name)) as [Hn|Hn]; [|reflexivity].
      cbn [omap list_omap]. unfold drill_geometry at 2.
      apply String.eqb_eq in Heq. rewrite Heq. reflexivity.
    + pose proof Heq as Hne. apply String.eqb_neq in Hne.
      destruct Hd as [Hd|[t Ht]]; [contradiction|].
      rewrite Ht.
      set (poly := Shape (PointBuffer (drill_point d) (tool_C t / Py.Zq 2)
                            (buffer_resolution e))).
      pose proof (append_geometry_diameters _ _ poly e Ht) as Hsame.
      set (e1 := append_geometry (drill_tool d) t poly e) in *.
      rewrite (IH e1 name).
      2:{ eapply Forall_impl; [exact Hall|].
          intros d'. apply passes_diameters_drill. exact Hsame. }
      assert (omap (drill_geometry (tools e1) (buffer_resolution e1))
                (drills_of name ds)
              = omap (drill_geometry (tools e) (buffer_resolution e))
                  (drills_of name ds)) as Hom.
      { apply omap_pointwise. intros d'.
        apply drill_geometry_diameters. exact Hsame. }
      rewrite Hom. unfold tool_geometry. subst e1. cbn [tools append_geometry set_tools].
      destruct (decide (drill_tool d = name)) as [Hn|Hn].
      * rewrite Hn in *. rewrite lookup_insert_eq, Ht. cbn.
        unfold drill_geometry at 2. rewrite Hn, Heq, Ht. cbn.
        rewrite <- app_assoc. reflexivity.
      * rewrite lookup_insert_ne by exact Hn. reflexivity.
Qed.

Lemma create_slots_per_tool ss : forall e name,
  Forall (slot_passes (tools e)) ss ->
  tool_geometry (result_state (create_slots ss e)) name =
  (fun g => (g ++ omap (slot_geometry (tools e) (buffer_resolution e))
                    (slots_of name ss))%list)
    <$> tool_geometry e name.
Proof.
  induction ss as [|s ss IH]; intros e name Hall; cbn [create_slots].
  - cbn. unfold tool_geometry. destruct (tools e !! name); cbn; [|reflexivity].
    rewrite app_nil_r. reflexivity.
  - apply Forall_cons in Hall as [[t Ht] Hall].
    unfold slots_of. rewrite filter_cons. fold (slots_of name ss).
    rewrite Ht.
    set (poly := Shape (LineBuffer (slot_start s) (slot_stop s)
                          (tool_C t / Py.Zq 2) (buffer_resolution e))).
    pose proof (append_geometry_diameters _ _ poly e Ht) as Hsame.
    set (e1 := append_geometry (slot_tool s) t poly e) in *.
    rewrite (IH e1 name).
    2:{ eapply Forall_impl; [exact Hall|].
        intros s'. apply passes_diameters_slot. exact Hsame. }
    assert (omap (slot_geometry (tools e1) (buffer_resolution e1))
              (slots_of name ss)
            = omap (slot_geometry (tools e) (buffer_resolution e))
                (slots_of name ss)) as Hom.
    { apply omap_pointwise. intros s'.
      apply slot_geometry_diameters. exact Hsame. }
    rewrite Hom. unfold tool_geometry. subst e1. cbn [tools append_geometry set_tools].
    destruct (decide (slot_tool s = name)) as [Hn|Hn].
    + rewrite Hn in *. rewrite lookup_insert_eq, Ht. cbn.
      unfold slot_geometry at 2. rewrite Hn, Ht. cbn.
      rewrite <- app_assoc. reflexivity.
    + rewrite lookup_insert_ne by exact Hn. reflexivity.
Qed.

(** X3.  When every feature resolves (every drill has no tool or names a
    key of the tool table, every slot names a key), [create_geometry]
    leaves in each tool entry the buffers of the drills of that tool, in
    their order, followed by the buffers of the slots of that tool, and
    keeps the diameter. *)
Theorem create_geometry_per_tool (e : Excellon) (name : string) (t : Tool) :
  Forall (drill_passes (tools e)) (drills e) ->
  Forall (slot_passes (tools e)) (slots e) ->
  tools e !! name = Some t ->
  tools (snd (create_geometry e)) !! name =
  Some {| tool_C := tool_C t;
          tool_solid_geometry :=
            (drills_geometry e (drills_of name (drills e))
             ++ slots_geometry e (slots_of name (slots e)))%list |}.
Proof.
  intros Hd Hs Ht.
  pose proof (create_geometry_diameters e name) as Hc. rewrite Ht in Hc.
  assert (tool_geometry (snd (create_geometry e)) name
          = Some (drills_geometry e (drills_of name (drills e))
                  ++ slots_geometry e (slots_of name (slots e)))%list) as Hg.
  { rewrite create_geometry_cleared.
    assert (Forall (drill_passes (tools (cleared e))) (drills e)) as Hd'.
    { eapply Forall_impl; [exact Hd|]. intros d. apply cleared_passes_drill. }
    pose proof (create_drills_per_tool (drills e) (cleared e) name Hd') as H1.
    destruct (create_drills_pass (drills e) (cleared e) Hd')
      as (e1 & Hr & _ & _ & Hc1 & Hn1 & _ & Hsl).
    rewrite Hr in H1 |- *. cbn [result_state] in H1.
    assert (same_diameters e e1) as Hsame.
    { intros n. rewrite Hc1. apply cleared_diameters. }
    assert (Forall (slot_passes (tools e1)) (slots e1)) as Hs'.
    { rewrite Hsl. change (slots (cleared e)) with (slots e).
      eapply Forall_impl; [exact Hs|].
      intros s. apply passes_diameters_slot. exact Hsame. }
    pose proof (create_slots_per_tool (slots e1) e1 name Hs') as H2.
    destruct (create_slots_pass (slots e1) e1 Hs') as (e2 & Hr2 & _).
    rewrite Hr2 in H2 |- *. cbn [result_state snd] in H2 |- *.
    rewrite H2, H1. unfold tool_geometry at 1.
    change (tools (cleared e)) with (clear_geometry <$> tools e).
    rewrite lookup_fmap, Ht. cbn.
    f_equal. f_equal.
    - unfold drills_geometry. apply omap_pointwise. intros d.
      apply drill_geometry_diameters, cleared_diameters.
    - unfold slots_geometry, buffer_resolution. rewrite Hsl, Hn1.
      change (slots (cleared e)) with (slots e).
      change (geo_steps_per_circle (cleared e)) with (geo_steps_per_circle e).
      apply omap_pointwise. intros s.
      apply slot_geometry_diameters. exact Hsame. }
  unfold tool_geometry in Hg.
  destruct (tools (snd (create_geometry e)) !! name) as [t'|];
    cbn in *; [|discriminate].
  injection Hc as Hc. injection Hg as Hg.
  destruct t' as [c g]. cbn in *. subst. reflexivity.
Qed.

Lemma create_geometry_per_tool_witness :
  tools (snd (create_geometry one_tool_document)) !! "1" =
  Some {| tool_C := tool_C (new_tool 1);
          tool_solid_geometry :=
            (drills_geometry one_tool_document
               (drills_of "1" (drills one_tool_document))
             ++ slots_geometry one_tool_document
                  (slots_of "1" (slots one_tool_document)))%list |}.
Proof.
  apply (create_geometry_per_tool one_tool_document "1" (new_tool 1)).
  - apply List.Forall_cons; [|apply List.Forall_nil].
    right. exists (new_tool 1). reflexivity.
  - apply List.Forall_cons; [|apply List.Forall_nil].
    exists (new_tool 1). reflexivity.
  - reflexivity.
Defined.

Lemma messages_kept_refl e : messages_kept e e.
Proof. exists []. rewrite app_nil_r. reflexivity. Qed.

Lemma messages_kept_trans e1 e2 e3 :
  messages_kept e1 e2 -> messages_kept e2 e3 -> messages_kept e1 e3.
Proof.
  intros [m1 H1] [m2 H2]. exists (m1 ++ m2)%list.
  rewrite H2, H1, app_assoc. reflexivity.
Qed.

Lemma create_geometry_messages e : messages_kept e (snd (create_geometry e)).
Proof.
  apply (create_geometry_keeps (messages_kept e)).
  - intros msg e' [m H]. exists (m ++ [msg])%list. cbn.
    rewrite H, app_assoc. reflexivity.
  - intros name t poly e' _ H. exact H.
  - intros e' H. exact H.
  - apply messages_kept_refl.
Qed.

(** X4.  What [create_geometry] never touches: the drills, the slots, the
    units, the number formats and the other attributes of the parser stay
    as they are, every tool keeps its name and its diameter and no tool is
    added, and the messages sent before stay in front of the new ones. *)
Theorem create_geometry_frame (e : Excellon) :
  let e' := snd (create_geometry e) in
  untouched e e' /\
  (forall name, tool_C <$> (tools e' !! name) = tool_C <$> (tools e !! name)) /\
  dom (tools e') = dom (tools e) /\
  exists msgs, inform e' = (inform e ++ msgs)%list.
Proof.
  intros e'. subst e'.
  split; [apply create_geometry_untouched|].
  split; [apply create_geometry_diameters|].
  split; [|apply create_geometry_messages].
  apply set_eq. intros name. rewrite !elem_of_dom.
  pose proof (create_geometry_diameters e name) as H.
  destruct (tools (snd (create_geometry e)) !! name),
           (tools e !! name); cbn in H; try discriminate;
    split; intros [x Hx]; try discriminate; eauto.
Qed.

(** ** More on the transformations *)

(** [scale] with factors that are not both 0: the features are scaled and
    the geometry is built from them *)
Lemma scale_result (xf yf : Qc) (p : Qc * Qc) (e : Excellon) :
  ~ (xf = 0 /\ yf = 0) ->
  let e' := scale xf (Some yf) (Some p) e in
  drills e' = map (scale_drill xf yf p) (drills e) /\
  slots e' = map (scale_slot xf yf p) (slots e) /\
  tools e' = tools (snd (create_geometry (scaled_features xf yf p e))) /\
  solid_geometry e'
  = solid_geometry (snd (create_geometry (scaled_features xf yf p e))).
Proof.
  intros Hnz e'.
  destruct (scale_features xf (Some yf) (Some p) e) as [_ H].
  destruct (H Hnz) as [Hd Hs]. fold e' in Hd, Hs.
  split; [exact Hd|]. split; [exact Hs|].
  subst e'. rewrite scale_unfold.
  destruct (bool_decide (xf = 0) && bool_decide (yf = 0)) eqn:Hb.
  { apply andb_prop in Hb as [H1 H2].
    apply bool_decide_eq_true in H1, H2. tauto. }
  cbv zeta. rewrite Hb. apply scale_geometry.
Qed.

Lemma affinity_scale_compose (q : Point) (xa ya xb yb : Qc) (p : Qc * Qc) :
  affinity_scale (affinity_scale q xa ya p) xb yb p
  = affinity_scale q (xa * xb) (ya * yb) p.
Proof.
  destruct q as [x y], p as [px py]. unfold affinity_scale. cbn.
  f_equal; ring.
Qed.

(** X5.  Two calls of [scale] about the same point compose: when the
    products of the factors are not both 0, scaling by [(xa, ya)] and then
    by [(xb, yb)] leaves the same drills, slots, tool table and solid
    geometry as scaling once by [(xa * xb, ya * yb)]. *)
Theorem scale_compose (xa ya xb yb : Qc) (p : Qc * Qc) (e : Excellon) :
  ~ (xa * xb = 0 /\ ya * yb = 0) ->
  let twice := scale xb (Some yb) (Some p) (scale xa (Some ya) (Some p) e) in
  let once := scale (xa * xb) (Some (ya * yb)) (Some p) e in
  drills twice = drills once /\ slots twice = slots once /\
  tools twice = tools once /\ solid_geometry twice = solid_geometry once.
Proof.
  intros Hnz twice once.
  assert (~ (xa = 0 /\ ya = 0)) as Ha.
  { intros [-> ->]. apply Hnz. rewrite !Qcmult_0_l. auto. }
  assert (~ (xb = 0 /\ yb = 0)) as Hb.
  { intros [-> ->]. apply Hnz. rewrite !Qcmult_0_r. auto. }
  destruct (scale_result xa ya p e Ha) as (Hd1 & Hs1 & _).
  destruct (scale_result xb yb p (scale xa (Some ya) (Some p) e) Hb)
    as (Hd2 & Hs2 & Ht2 & Hg2).
  destruct (scale_result (xa * xb) (ya * yb) p e Hnz) as (Hd & Hs & Ht & Hg).
  fold twice in Hd2, Hs2, Ht2, Hg2. fold once in Hd, Hs, Ht, Hg.
  assert (drills twice = drills once) as Ed.
  { rewrite Hd2, Hd1, Hd, map_map. apply map_ext. intros [q t].
    unfold scale_drill. cbn [drill_point drill_tool].
    rewrite affinity_scale_compose. reflexivity. }
  assert (slots twice = slots once) as Es.
  { rewrite Hs2, Hs1, Hs, map_map. apply map_ext. intros [q1 q2 t].
    unfold scale_slot. cbn [slot_start slot_stop slot_tool].
    rewrite !affinity_scale_compose. reflexivity. }
  split; [exact Ed|]. split; [exact Es|].
  rewrite Ht2, Hg2, Ht, Hg.
  assert (same_inputs
            (scaled_features xb yb p (scale xa (Some ya) (Some p) e))
            (scaled_features (xa * xb) (ya * yb) p e)) as Hin.
  { unfold same_inputs, scaled_features. cbn.
    rewrite <- Hd2, <- Hs2, <- Hd, <- Hs.
    split; [exact Ed|]. split; [exact Es|]. split.
    - pose proof (scale_frame xa (Some ya) (Some p) e) as Hf.
      unfold parser_frame in Hf. tauto.
    - intros name. apply scale_diameters. }
  destruct (create_geometry_inputs _ _ Hin) as (_ & Ht' & Hg').
  auto.
Qed.

Lemma scale_compose_witness :
  let twice :=
    scale (Py.Zq 3) (Some (Py.Zq 5)) (Some (1, 1))
      (scale (Py.Zq 2) (Some 0) (Some (1, 1)) one_tool_document) in
  let once :=
    scale (Py.Zq 2 * Py.Zq 3) (Some (0 * Py.Zq 5)) (Some (1, 1))
      one_tool_document in
  drills twice = drills once /\ slots twice = slots once /\
  tools twice = tools once /\ solid_geometry twice = solid_geometry once.
Proof.
  apply (scale_compose (Py.Zq 2) 0 (Py.Zq 3) (Py.Zq 5) (1, 1) one_tool_document).
  intros [H _]. apply (f_equal this) in H. vm_compute in H. discriminate H.
Defined.

(** ** [mirror] *)

Lemma mirror_factors_axis (axis : string) :
  axis = "X" \/ axis = "Y" ->
  exists xs ys, mirror_factors axis = Some (xs, ys) /\
    xs * xs = 1 /\ ys * ys = 1.
Proof.
  intros [-> | ->].
  - exists 1, (- (1)). split; [reflexivity|]. split; ring.
  - exists (- (1)), 1. split; [reflexivity|]. split; ring.
Qed.

(** [mirror] along an axis, as the scaling by its two factors *)
Lemma mirror_result (axis : string) (xs ys : Qc) (p : Qc * Qc) (e : Excellon) :
  mirror_factors axis = Some (xs, ys) ->
  exists e',
    mirror axis p e = Normal e' /\
    drills e' = map (scale_drill xs ys p) (drills e) /\
    slots e' = map (scale_slot xs ys p) (slots e) /\
    tools e' = tools (snd (create_geometry (scaled_features xs ys p e))) /\
    solid_geometry e'
    = solid_geometry (snd (create_geometry (scaled_features xs ys p e))) /\
    geo_steps_per_circle e' = geo_steps_per_circle e /\
    same_diameters e e'.
Proof.
  intros Hf. unfold mirror. rewrite Hf.
  set (e1 := set_slots _ (set_tools _ (set_drills _ e))).
  exists (snd (create_geometry e1)). split; [reflexivity|].
  destruct (create_geometry_untouched e1) as (Hd & Hs & Hrest).
  assert (same_diameters e e1) as Hsame.
  { intros name. subst e1. cbn. rewrite lookup_fmap.
    destruct (tools e !! name); reflexivity. }
  assert (same_inputs e1 (scaled_features xs ys p e)) as Hin.
  { unfold same_inputs, scaled_features. subst e1. cbn.
    repeat split. intros name. rewrite lookup_fmap.
    destruct (tools e !! name); reflexivity. }
  destruct (create_geometry_inputs _ _ Hin) as (_ & Ht & Hg).
  split; [rewrite Hd; reflexivity|]. split; [rewrite Hs; reflexivity|].
  split; [exact Ht|]. split; [exact Hg|]. split.
  - unfold untouched in Hrest.
    replace (geo_steps_per_circle e) with (geo_steps_per_circle e1)
      by reflexivity.
    tauto.
  - intros name. rewrite create_geometry_diameters. apply Hsame.
Qed.

Lemma affinity_scale_involution (q : Point) (xs ys : Qc) (p : Qc * Qc) :
  xs * xs = 1 -> ys * ys = 1 ->
  affinity_scale (affinity_scale q xs ys p) xs ys p = q.
Proof.
  intros Hx Hy. rewrite affinity_scale_compose, Hx, Hy.
  destruct q as [x y], p as [px py]. unfold affinity_scale. cbn.
  f_equal; ring.
Qed.

(** X6.  [mirror] is an involution on the features: mirroring twice along
    the same axis about the same point gives back every drill and every
    slot, and leaves the tool table and the solid geometry that the
    synthesis builds from the object mirrored. *)
Theorem mirror_involution (axis : string) (p : Qc * Qc) (e : Excellon) :
  axis = "X" \/ axis = "Y" ->
  exists e1 e2,
    mirror axis p e = Normal e1 /\ mirror axis p e1 = Normal e2 /\
    drills e2 = drills e /\ slots e2 = slots e /\
    tools e2 = tools (snd (create_geometry e)) /\
    solid_geometry e2 = solid_geometry (snd (create_geometry e)).
Proof.
  intros Hax.
  destruct (mirror_factors_axis axis Hax) as (xs & ys & Hf & Hx & Hy).
  destruct (mirror_result axis xs ys p e Hf)
    as (e1 & Hm1 & Hd1 & Hs1 & _ & _ & Hn1 & Hc1).
  destruct (mirror_result axis xs ys p e1 Hf)
    as (e2 & Hm2 & Hd2 & Hs2 & Ht2 & Hg2 & _).
  exists e1, e2. split; [exact Hm1|]. split; [exact Hm2|].
  assert (map (scale_drill xs ys p) (drills e1) = drills e) as Ed.
  { rewrite Hd1, map_map. rewrite <- (map_id (drills e)) at 2.
    apply map_ext. intros [q t]. unfold scale_drill.
    cbn [drill_point drill_tool].
    rewrite affinity_scale_involution by assumption. reflexivity. }
  assert (map (scale_slot xs ys p) (slots e1) = slots e) as Es.
  { rewrite Hs1, map_map. rewrite <- (map_id (slots e)) at 2.
    apply map_ext. intros [q1 q2 t]. unfold scale_slot.
    cbn [slot_start slot_stop slot_tool].
    rewrite !affinity_scale_involution by assumption. reflexivity. }
  split; [rewrite Hd2; exact Ed|]. split; [rewrite Hs2; exact Es|].
  rewrite Ht2, Hg2.
  assert (same_inputs (scaled_features xs ys p e1) e) as Hin.
  { unfold same_inputs, scaled_features. cbn.
    split; [exact Ed|]. split; [exact Es|]. split; [exact Hn1|exact Hc1]. }
  destruct (create_geometry_inputs _ _ Hin) as (_ & Ht & Hg). auto.
Qed.

Lemma mirror_involution_witness :
  exists e1 e2,
    mirror "Y" (1, Py.Zq 2) one_tool_document = Normal e1 /\
    mirror "Y" (1, Py.Zq 2) e1 = Normal e2 /\
    drills e2 = drills one_tool_document /\
    slots e2 = slots one_tool_document /\
    tools e2 = tools (snd (create_geometry one_tool_document)) /\
    solid_geometry e2 = solid_geometry (snd (create_geometry one_tool_document)).
Proof.
  apply (mirror_involution "Y" (1, Py.Zq 2) one_tool_document).
  right. reflexivity.
Defined.

(** X7.  [mirror] with axis ["X"] about [(px, py)] keeps the X coordinate
    of every drill point and every slot end and takes Y to [2 py - Y];
    with axis ["Y"] it keeps Y and takes X to [2 px - X]; tool references
    are kept.  With any other axis the call raises before it changes
    anything. *)
Theorem mirror_reflects (p : Qc * Qc) (e : Excellon) :
  (exists ex,
     mirror "X" p e = Normal ex /\
     drills ex
     = map (fun d => {| drill_point := flipped_x p (drill_point d);
                        drill_tool := drill_tool d |}) (drills e) /\
     slots ex
     = map (fun s => {| slot_start := flipped_x p (slot_start s);
                        slot_stop := flipped_x p (slot_stop s);
                        slot_tool := slot_tool s |}) (slots e)) /\
  (exists ey,
     mirror "Y" p e = Normal ey /\
     drills ey
     = map (fun d => {| drill_point := flipped_y p (drill_point d);
                        drill_tool := drill_tool d |}) (drills e) /\
     slots ey
     = map (fun s => {| slot_start := flipped_y p (slot_start s);
                        slot_stop := flipped_y p (slot_stop s);
                        slot_tool := slot_tool s |}) (slots e)) /\
  (forall axis, axis <> "X" -> axis <> "Y" -> mirror axis p e = Raised e).
Proof.
  assert (forall q, affinity_scale q 1 (- (1)) p = flipped_x p q) as Hx.
  { intros [x y]. destruct p as [px py]. unfold affinity_scale, flipped_x.
    cbn. f_equal; ring. }
  assert (forall q, affinity_scale q (- (1)) 1 p = flipped_y p q) as Hy.
  { intros [x y]. destruct p as [px py]. unfold affinity_scale, flipped_y.
    cbn. f_equal; ring. }
  split; [|split].
  - destruct (mirror_result "X" 1 (- (1)) p e eq_refl)
      as (ex & Hm & Hd & Hs & _).
    exists ex. split; [exact Hm|]. rewrite Hd, Hs. split.
    + apply map_ext. intros d. unfold scale_drill. rewrite Hx. reflexivity.
    + apply map_ext. intros s. unfold scale_slot. rewrite !Hx. reflexivity.
  - destruct (mirror_result "Y" (- (1)) 1 p e eq_refl)
      as (ey & Hm & Hd & Hs & _).
    exists ey. split; [exact Hm|]. rewrite Hd, Hs. split.
    + apply map_ext. intros d. unfold scale_drill. rewrite Hy. reflexivity.
    + apply map_ext. intros s. unfold scale_slot. rewrite !Hy. reflexivity.
  - intros axis HX HY. unfold mirror, mirror_factors.
    apply (proj2 (String.eqb_neq _ _)) in HX.
    apply (proj2 (String.eqb_neq _ _)) in HY. rewrite HX, HY. reflexivity.
Qed.

(** ** [convert_units] *)

Lemma scale_units xfactor yfactor point e :
  units (scale xfactor yfactor point e) = units e.
Proof.
  rewrite scale_unfold. cbv zeta.
  destruct (_ && _); [reflexivity|].
  match goal with |- context [create_geometry ?x] =>
    pose proof (create_geometry_untouched x) as Hu end.
  unfold untouched in Hu. cbn in Hu. tauto.
Qed.

Lemma affinity_scale_one (q : Point) : affinity_scale q 1 1 (0, 0) = q.
Proof.
  destruct q as [x y]. unfold affinity_scale. cbn. f_equal; ring.
Qed.

Lemma converted_one (u : string) (e : Excellon) :
  drills (converted 1 u e) = drills e /\
  slots (converted 1 u e) = slots e /\
  (forall name, tool_C <$> (tools (converted 1 u e) !! name)
                = tool_C <$> (tools e !! name)) /\
  units (converted 1 u e) = u /\
  file_units_factor (converted 1 u e) = Some 1.
Proof.
  destruct (converted_geometry 1 u e) as (Hd & Hs & _);
    [intros H; discriminate H|].
  split; [|split; [|split]].
  - rewrite Hd. rewrite <- (map_id (drills e)) at 2. apply map_ext.
    intros [q t]. unfold scale_drill. cbn [drill_point drill_tool].
    rewrite affinity_scale_one. reflexivity.
  - rewrite Hs. rewrite <- (map_id (slots e)) at 2. apply map_ext.
    intros [q1 q2 t]. unfold scale_slot. cbn [slot_start slot_stop slot_tool].
    rewrite !affinity_scale_one. reflexivity.
  - intros name. rewrite converted_diameters.
    destruct (tools e !! name) as [t|]; cbn; [|reflexivity].
    rewrite Qcmult_1_r. reflexivity.
  - unfold converted.
    match goal with |- context [create_geometry ?x] =>
      pose proof (create_geometry_untouched x) as Hu end.
    unfold untouched in Hu.
    destruct Hu as (_ & _ & _ & _ & _ & _ & Hunits & _ & _ & _ & _ & _ & _ & _
                    & _ & _ & _ & Hfactor & _).
    rewrite Hunits, Hfactor. cbn [units file_units_factor set_tools
                                  set_file_units_factor].
    split; [|reflexivity].
    apply (scale_units 1 (Some 1) None (set_units u e)).
Qed.

Lemma converted_units (f : Qc) (u : string) (e : Excellon) :
  units (converted f u e) = u.
Proof.
  unfold converted.
  match goal with |- context [create_geometry ?x] =>
    pose proof (create_geometry_untouched x) as Hu end.
  unfold untouched in Hu.
  destruct Hu as (_ & _ & _ & _ & _ & _ & Hunits & _).
  rewrite Hunits. cbn [units set_tools set_file_units_factor].
  apply (scale_units f (Some f) None (set_units u e)).
Qed.

(** X8.  [convert_units] to the units that the object already has (the
    names compared without regard to case), or to units that are neither
    ["MM"] nor ["IN"], converts nothing: the factor is 1, and every drill,
    slot and tool diameter stays as it is.  The attribute [units] still
    takes the argument as it was given, also when it is not a supported
    unit, and the factor 1 is recorded. *)
Theorem convert_units_without_conversion (u : string) (e : Excellon) :
  Py.upper u = Py.upper (units e)
  \/ (Py.upper u <> "MM" /\ Py.upper u <> "IN") ->
  let r := convert_units u e in
  fst r = 1 /\ units (snd r) = u /\ file_units_factor (snd r) = Some 1 /\
  drills (snd r) = drills e /\ slots (snd r) = slots e /\
  forall name, tool_C <$> (tools (snd r) !! name) = tool_C <$> (tools e !! name).
Proof.
  intros H r. subst r.
  assert (conversion_factor u e = 1) as Hf.
  { unfold conversion_factor. destruct H as [H|[H1 H2]].
    - apply String.eqb_eq in H. rewrite H. reflexivity.
    - apply (proj2 (String.eqb_neq _ _)) in H1.
      apply (proj2 (String.eqb_neq _ _)) in H2. rewrite H1, H2.
      destruct (String.eqb (Py.upper u) (Py.upper (units e))); reflexivity. }
  rewrite convert_units_snd, convert_units_fst, Hf.
  destruct (converted_one u e) as (Hd & Hs & Hc & Hu & Hff).
  repeat split; assumption.
Qed.

Lemma convert_units_without_conversion_witness :
  let r := convert_units "cm" one_tool_document in
  fst r = 1 /\ units (snd r) = "cm" /\ file_units_factor (snd r) = Some 1 /\
  drills (snd r) = drills one_tool_document /\
  slots (snd r) = slots one_tool_document /\
  forall name, tool_C <$> (tools (snd r) !! name)
               = tool_C <$> (tools one_tool_document !! name).
Proof.
  apply (convert_units_without_conversion "cm" one_tool_document).
  right. split; intros H; discriminate H.
Defined.

Lemma mm_per_inch_inverse : mm_per_inch * (1 / mm_per_inch) = 1.
Proof. apply Qc_is_canon. reflexivity. Qed.

(** X9.  Converting an object in inches to millimetres and back, or one in
    millimetres to inches and back, gives back every drill, every slot and
    every tool diameter (numbers are exact rationals here): the two factors
    are 25.4 and 1/25.4, and the units are the original ones again. *)
Theorem convert_units_round_trip (a b : string) (e : Excellon) :
  (a = "IN" /\ b = "MM") \/ (a = "MM" /\ b = "IN") ->
  Py.upper (units e) = a ->
  let r1 := convert_units b e in
  let r2 := convert_units a (snd r1) in
  (b = "MM" -> fst r1 = mm_per_inch /\ fst r2 = 1 / mm_per_inch) /\
  (b = "IN" -> fst r1 = 1 / mm_per_inch /\ fst r2 = mm_per_inch) /\
  units (snd r2) = a /\
  drills (snd r2) = drills e /\ slots (snd r2) = slots e /\
  forall name, tool_C <$> (tools (snd r2) !! name) = tool_C <$> (tools e !! name).
Proof.
  intros Hab Hu r1 r2. subst r1 r2.
  rewrite !convert_units_snd, !convert_units_fst.
  set (f1 := conversion_factor b e).
  set (e1 := converted f1 b e).
  set (f2 := conversion_factor a e1).
  assert (units e1 = b) as Hu1 by apply converted_units.
  assert ((b = "MM" -> f1 = mm_per_inch /\ f2 = 1 / mm_per_inch) /\
          (b = "IN" -> f1 = 1 / mm_per_inch /\ f2 = mm_per_inch)) as Hfs.
  { subst f1 f2. unfold conversion_factor. rewrite Hu1, Hu.
    destruct Hab as [[-> ->]|[-> ->]]; split; intros Hb;
      try discriminate Hb; split; reflexivity. }
  assert (f1 * f2 = 1) as Hprod.
  { destruct Hfs as [Hmm Hin].
    destruct Hab as [[_ Hb]|[_ Hb]].
    - destruct (Hmm Hb) as [-> ->]. apply mm_per_inch_inverse.
    - destruct (Hin Hb) as [-> ->]. rewrite Qcmult_comm.
      apply mm_per_inch_inverse. }
  assert (f1 <> 0) as Hf1 by apply conversion_factor_nonzero.
  assert (f2 <> 0) as Hf2 by apply conversion_factor_nonzero.
  destruct (converted_geometry f1 b e Hf1) as (Hd1 & Hs1 & _).
  destruct (converted_geometry f2 a e1 Hf2) as (Hd2 & Hs2 & _).
  fold e1 in Hd1, Hs1.
  split; [tauto|]. split; [tauto|].
  split; [apply converted_units|].
  split; [|split].
  - rewrite Hd2, Hd1, map_map. rewrite <- (map_id (drills e)) at 2.
    apply map_ext. intros [q t]. unfold scale_drill.
    cbn [drill_point drill_tool].
    rewrite affinity_scale_compose, Hprod, affinity_scale_one. reflexivity.
  - rewrite Hs2, Hs1, map_map. rewrite <- (map_id (slots e)) at 2.
    apply map_ext. intros [q1 q2 t]. unfold scale_slot.
    cbn [slot_start slot_stop slot_tool].
    rewrite !affinity_scale_compose, Hprod, !affinity_scale_one. reflexivity.
  - intros name. rewrite converted_diameters.
    pose proof (converted_diameters f1 b e name) as Hc. fold e1 in Hc.
    destruct (tools e1 !! name) as [t1|], (tools e !! name) as [t|];
      cbn in *; try discriminate; [|reflexivity].
    injection Hc as Hc. rewrite Hc, <- Qcmult_assoc, Hprod, Qcmult_1_r.
    reflexivity.
Qed.

Lemma convert_units_round_trip_witness :
  let e := set_units "in" one_tool_document in
  let r1 := convert_units "MM" e in
  let r2 := convert_units "IN" (snd r1) in
  fst r1 = mm_per_inch /\ fst r2 = 1 / mm_per_inch /\
  units (snd r2) = "IN" /\
  drills (snd r2) = drills e /\ slots (snd r2) = slots e /\
  forall name, tool_C <$> (tools (snd r2) !! name) = tool_C <$> (tools e !! name).
Proof.
  intros e r1 r2.
  destruct (convert_units_round_trip "IN" "MM" e) as (Hmm & _ & Hrest).
  - left. split; reflexivity.
  - reflexivity.
  - destruct (Hmm eq_refl) as [H1 H2]. fold r1 r2 in H1, H2, Hrest.
    split; [exact H1|]. split; [exact H2|]. exact Hrest.
Defined.

(** ** [parse_number] on any text *)

(** the two groups of [leadingzeros_re] are set at every offset of every
    text *)
Lemma zeros_digits_at (pos : nat) (s whole_text : string) (gs : groups) :
  exists g1 g2 w,
    run (Patterns.seq [Grp 1 (Star is_zero_char); Grp 2 (Star digit)]) pos s gs
      (fun pos' _ gs' =>
         Some {| whole := substring 0 (pos' - 0) whole_text; caps := gs' |})
    = Some {| whole := w; caps := (2%nat, g2) :: (1%nat, g1) :: gs |}.
Proof.
  simpl.
  rewrite star_longest.
  2:{ intros p s'. rewrite star_longest; eauto. }
  rewrite star_longest by eauto.
  eauto.
Qed.

Lemma leadingzeros_any (s : string) :
  exists g1 g2 w,
    search leadingzeros_re s
    = Some {| whole := w; caps := [(2%nat, g2); (1%nat, g1)] |}.
Proof.
  assert (exists g1 g2 w,
             match_at leadingzeros_re 0 s
             = Some {| whole := w; caps := [(2%nat, g2); (1%nat, g1)] |}) as H.
  { unfold match_at, leadingzeros_re.
    change (Patterns.seq [Bol; opt_sign; Grp 1 (Star (Ascii.eqb "0"));
                          Grp 2 (Star digit)])
      with (Seq Bol (Seq opt_sign
                       (Patterns.seq [Grp 1 (Star is_zero_char);
                                      Grp 2 (Star digit)]))).
    cbn [run Nat.eqb opt_sign].
    destruct s as [|a s'].
    - apply (zeros_digits_at 0 "" "" []).
    - destruct (one_of "-+" a).
      + destruct (zeros_digits_at 1 s' (String a s') []) as (g1 & g2 & w & H).
        rewrite H. eauto.
      + apply (zeros_digits_at 0 (String a s') (String a s') []). }
  destruct H as (g1 & g2 & w & H). exists g1, g2, w.
  apply search_at_start. exact H.
Qed.

(** X10.  On any text, [parse_number] returns and raises nothing: whatever
    the text is, the leading-zeros pattern finds its two groups, and every
    exception of the arithmetic is caught.  Only the argument [None] makes
    it raise, a [TypeError]. *)
Theorem parse_number_never_raises (e : Excellon) (s : string) :
  (exists r, parse_number e (Some s) = Returns r) /\
  parse_number e None = TypeError.
Proof.
  destruct (leadingzeros_any s) as (g1 & g2 & w & H).
  split; [|reflexivity].
  unfold parse_number. rewrite H. unfold group.
  cbn [caps group_lookup Nat.eqb].
  destruct (leading_zeros e), (inch_units e); eauto.
Qed.

Local Opaque convert_units.

Lemma altium_comment_header line e l : header_kept l (altium_comment line e l).
Proof. unfold altium_comment. destruct (search altium_format line); cbn; auto. Qed.

Lemma allegro_comment_header line m e l :
  header_kept l (allegro_comment line m e l).
Proof.
  unfold allegro_comment.
  match goal with |- context [match ?x with Normal _ => _ | Raised _ => _ end] =>
    set (uf := x) end.
  assert (in_header (snd (result_state uf)) = in_header l) as H.
  { subst uf. split_cases; reflexivity. }
  destruct uf as [[e0 l0]|[e0 l0]]; cbn [result_state snd] in H; [|exact I].
  pose proof (altium_comment_header line e0 l0) as Ha.
  assert (header_kept l (altium_comment line e0 l0)) as Ha'.
  { destruct (altium_comment line e0 l0); cbn in *; congruence. }
  destruct (group m 2) as [g2|]; [|exact Ha'].
  destruct (String.eqb g2 ""); [exact Ha'|].
  destruct (Py.float g2) as [[v|n]|]; exact I.
Qed.

Lemma comment_or_header_end_header line e l :
  header_kept l (comment_or_header_end line e l).
Proof.
  unfold comment_or_header_end.
  destruct (matched (search comm_re line)).
  - destruct (search tool_units_re line).
    + apply allegro_comment_header.
    + apply altium_comment_header.
  - destruct (matched (search hend_re line)); cbn; auto.
Qed.

(** in the header, the statements after the comment rules touch no
    feature *)
Lemma after_comment_in_header line e l :
  in_header l = true ->
  quiet_frame e l (excellon_of (after_comment line e l))
    (locals_of (after_comment line e l)).
Proof.
  intros Hh. unfold after_comment.
  destruct (match_ meas_re line) as [m|]; [apply measuring_mode_frame|].
  rewrite Hh. cbn [negb]. rewrite Hh.
  pose proof (header_frame line e l) as Hf.
  destruct (header line e l) as [r|e1 l1]; [exact Hf|].
  cbn [flow_excellon flow_locals] in Hf.
  destruct (match_ units_re line) as [m|]; [|exact Hf].
  eapply quiet_frame_trans; [exact Hf|apply units_directive_frame].
Qed.

(** X11.  While the parser is in the header, no line adds a drill or a
    slot, whatever the line holds, coordinates included: after the line
    the object has as many drills and as many slots as before it. *)
Theorem header_line_adds_no_feature (abort_flag : bool) (raw : string)
    (e : Excellon) (l : Locals) :
  in_header l = true ->
  let r := parse_line abort_flag raw e l in
  length (drills (excellon_of r)) = length (drills e) /\
  length (slots (excellon_of r)) = length (slots e).
Proof.
  intros Hh r. subst r. rewrite parse_line_unfold.
  destruct abort_flag; [split; reflexivity|].
  cbv zeta.
  destruct (matched (search detect_gcode_re _)); [split; reflexivity|].
  destruct (matched (search hbegin_re _)); [split; reflexivity|].
  destruct (matched (search allegro_hbegin_re _)); [split; reflexivity|].
  match goal with |- context [comment_or_header_end ?ln ?e1 ?l1] =>
    pose proof (comment_or_header_end_frame ln e1 l1) as Hc;
    pose proof (comment_or_header_end_header ln e1 l1) as Hk;
    destruct (comment_or_header_end ln e1 l1) as [r|e2 l2];
    cbn [flow_excellon flow_locals header_kept] in Hc, Hk
  end.
  - unfold quiet_frame in Hc. cbn in Hc. tauto.
  - cbn [in_header set_eline set_line_num] in Hk.
    assert (in_header l2 = true) as Hh2 by congruence.
    pose proof (after_comment_in_header (Py.strip Py.strip_set raw) e2 l2 Hh2)
      as Ha.
    unfold quiet_frame in Hc, Ha. cbn in Hc.
    destruct Hc as (_ & _ & _ & Hs & Hd & _).
    destruct Ha as (_ & _ & _ & Hs' & Hd' & _).
    split; congruence.
Qed.

Lemma header_line_adds_no_feature_witness :
  let r := parse_line false "X1Y1" (new_excellon "IN") in_the_header in
  length (drills (excellon_of r)) = length (drills (new_excellon "IN")) /\
  length (slots (excellon_of r)) = length (slots (new_excellon "IN")).
Proof.
  apply (header_line_adds_no_feature false "X1Y1" (new_excellon "IN")
           in_the_header).
  reflexivity.
Defined.

(** X12.  A line that is blank once the blanks and line ends around it are
    stripped is skipped in every state of the parser: the raw line is
    added to [source_file], the line is counted, and nothing else
    changes. *)
Theorem blank_line_is_skipped (raw : string) (e : Excellon) (l : Locals) :
  Py.strip Py.strip_set raw = "" ->
  parse_line false raw e l =
  Continue (set_source_file (source_file e +:+ raw) e)
    (set_eline "" (set_line_num (line_num l + 1)%Z (set_eline raw l))).
Proof.
  intros Hs. rewrite parse_line_unfold. cbv zeta. rewrite Hs.
  eval_searches. cbn [matched].
  unfold comment_or_header_end. eval_searches. cbn [matched].
  unfold after_comment. eval_searches.
  cbn [in_header set_eline set_line_num].
  destruct (in_header l) eqn:Hh; cbn [negb].
  - cbn [in_header set_eline set_line_num]. rewrite Hh.
    unfold header. eval_searches. reflexivity.
  - unfold body. eval_searches. cbn [matched orb]. rewrite andb_false_r.
    unfold coordinates. eval_searches.
    cbn [in_header set_eline set_line_num]. rewrite Hh. reflexivity.
Qed.

Lemma blank_line_is_skipped_witness :
  parse_line false (String " " (String Py.carriage_return nl))
    (new_excellon "IN") initial_locals =
  Continue
    (set_source_file
       (source_file (new_excellon "IN")
        +:+ String " " (String Py.carriage_return nl))
       (new_excellon "IN"))
    (set_eline ""
       (set_line_num (line_num initial_locals + 1)%Z
          (set_eline (String " " (String Py.carriage_return nl))
             initial_locals))).
Proof.
  apply (blank_line_is_skipped (String " " (String Py.carriage_return nl))).
  reflexivity.
Defined.

(** the loop over a list of lines that is cut in two *)
Lemma parse_loop_app abort pre : forall i rest e l,
  parse_loop abort i (pre ++ rest) e l =
  match parse_loop abort i pre e l with
  | Continue e1 l1 => parse_loop abort (i + length pre) rest e1 l1
  | r => r
  end.
Proof.
  induction pre as [|raw pre IH]; intros i rest e l; cbn [app parse_loop length].
  - rewrite Nat.add_0_r. reflexivity.
  - destruct (parse_line (abort i) raw e l) as [e1 l1|e1 l1|e1 l1|e1 l1];
      try reflexivity.
    rewrite IH. replace (S i + length pre)%nat with (i + S (length pre))%nat by lia.
    reflexivity.
Qed.

(** X13.  A G-code mark stops the parse wherever it stands: when the lines
    before it are all processed, a line that strips to [G20] or [G21]
    makes [parse_lines] return [None] at once, with the message that this
    is G-code; the drills, slots and tools read before the mark are kept,
    and the lines after it are not read. *)
Theorem gcode_mark_stops_anywhere (abort : nat -> bool)
    (pre : list string) (raw : string) (rest : list string)
    (e e1 : Excellon) (l1 : Locals) :
  parse_loop abort 0 pre e initial_locals = Continue e1 l1 ->
  abort (length pre) = false ->
  Py.strip Py.strip_set raw = "G21" \/ Py.strip Py.strip_set raw = "G20" ->
  parse_lines abort (pre ++ raw :: rest) e =
  (RetNone,
   emit (gcode_msg (Py.strip Py.strip_set raw))
     (set_source_file (source_file e1 +:+ raw) e1)).
Proof.
  intros Hpre Hab Hmark. unfold parse_lines.
  rewrite parse_loop_app, Hpre. cbn [parse_loop Nat.add]. rewrite Hab.
  rewrite parse_line_unfold. cbv zeta.
  assert (matched (search detect_gcode_re (Py.strip Py.strip_set raw)) = true)
    as Hm by (destruct Hmark as [-> | ->]; reflexivity).
  rewrite Hm. reflexivity.
Qed.

Lemma gcode_mark_stops_anywhere_witness :
  let r := parse_loop (fun _ => false) 0 two_holes (new_excellon "IN")
             initial_locals in
  parse_lines (fun _ => false) (two_holes ++ "G20" :: ["X3Y3"])
    (new_excellon "IN") =
  (RetNone,
   emit (gcode_msg (Py.strip Py.strip_set "G20"))
     (set_source_file (source_file (excellon_of r) +:+ "G20") (excellon_of r))).
Proof.
  intros r.
  apply (gcode_mark_stops_anywhere (fun _ => false) two_holes "G20" ["X3Y3"]
           (new_excellon "IN") (excellon_of r) (locals_of r)).
  - vm_compute. reflexivity.
  - reflexivity.
  - right. reflexivity.
Defined.

Lemma grows_refl e : grows e e.
Proof.
  unfold grows. repeat split; auto using messages_kept_refl.
Qed.

Lemma grows_trans e1 e2 e3 : grows e1 e2 -> grows e2 e3 -> grows e1 e3.
Proof.
  unfold grows. intros (A1 & A2 & A3 & A4 & A5 & A6 & A7 & A8)
                       (B1 & B2 & B3 & B4 & B5 & B6 & B7 & B8).
  repeat split; try congruence; try lia; eauto using messages_kept_trans.
Qed.

Lemma scale_messages xfactor yfactor point e :
  messages_kept e (scale xfactor yfactor point e).
Proof.
  rewrite scale_unfold. cbv zeta.
  destruct (_ && _); [apply messages_kept_refl|].
  match goal with |- context [create_geometry ?x] =>
    apply (messages_kept_trans e x); [|apply create_geometry_messages] end.
  exists []. cbn. rewrite app_nil_r. reflexivity.
Qed.

Lemma converted_messages f u e : messages_kept e (converted f u e).
Proof.
  unfold converted.
  eapply messages_kept_trans; [|apply create_geometry_messages].
  destruct (scale_messages f (Some f) None (set_units u e)) as [m H].
  exists m. exact H.
Qed.

Lemma convert_units_grows u e : grows e (snd (convert_units u e)).
Proof.
  pose proof (convert_units_frame u e) as Hf.
  pose proof (convert_units_diameters u e) as Hc.
  rewrite convert_units_snd in *.
  unfold parser_frame in Hf.
  destruct Hf as (Hd & Hs & _ & _ & Hsrc & _ & _ & _ & _ & Htd & _ & _ & _ & _
                  & _ & Heu & _ & Hn & _).
  unfold grows. rewrite Hd, Hs. repeat split; auto.
  - intros name [t Ht]. specialize (Hc name). rewrite Ht in Hc.
    destruct (tools (converted _ u e) !! name); [eauto|discriminate].
  - apply converted_messages.
Qed.

Local Opaque convert_units repeat_holes.

Lemma insert_keeps (ts : gmap string Tool) (k : string) (v : Tool) :
  forall name, is_Some (ts !! name) -> is_Some (<[k := v]> ts !! name).
Proof.
  intros name H. apply lookup_insert_is_Some'. auto.
Qed.

Lemma emit_messages msg e e' :
  inform e' = (inform e ++ [msg])%list -> messages_kept e e'.
Proof. intros H. exists [msg]. exact H. Qed.

(** a step that changes the object by assignments of the parser *)
Ltac grows_step :=
  unfold grows; cbn -[convert_units];
  repeat split;
  auto using messages_kept_refl, insert_keeps;
  try (rewrite ?length_app; lia);
  try (exists []; cbn; rewrite app_nil_r; reflexivity);
  try (eapply emit_messages; reflexivity).

Ltac grows_tac :=
  lazymatch goal with
  | |- grows ?e (excellon_of _) => cbn [excellon_of]; grows_tac
  | |- grows ?e (flow_excellon _) => cbn [flow_excellon excellon_of]; grows_tac
  | |- grows ?e (snd (convert_units ?u ?e0)) =>
      apply (grows_trans e e0); [grows_step | apply convert_units_grows]
  | |- grows _ _ => grows_step
  end.

Lemma altium_comment_grows line e l :
  grows e (flow_excellon (altium_comment line e l)).
Proof. unfold altium_comment. split_cases; grows_tac. Qed.

Lemma allegro_comment_grows line m e l :
  grows e (flow_excellon (allegro_comment line m e l)).
Proof.
  unfold allegro_comment.
  match goal with |- context [match ?x with Normal _ => _ | Raised _ => _ end] =>
    set (uf := x) end.
  assert (grows e (fst (result_state uf))) as H.
  { subst uf. split_cases; cbn [result_state fst]; grows_tac. }
  destruct uf as [[e0 l0]|[e0 l0]]; cbn [result_state fst] in H;
    [|exact H].
  pose proof (altium_comment_grows line e0 l0) as Ha.
  destruct (group m 2) as [g2|];
    [|eapply grows_trans; [exact H|exact Ha]].
  destruct (String.eqb g2 "");
    [eapply grows_trans; [exact H|exact Ha]|].
  eapply grows_trans; [exact H|].
  destruct (Py.float g2) as [[v|n]|]; grows_tac.
Qed.

Lemma header_end_grows e l : grows e (excellon_of (header_end e l)).
Proof.
  unfold header_end.
  destruct (negb (in_header l) || bool_decide (tools e = ∅));
    [destruct (default_units (excellon_units e))|];
    cbn -[convert_units]; destruct (allegro_warning l); grows_tac.
Qed.

Lemma comment_or_header_end_grows line e l :
  grows e (flow_excellon (comment_or_header_end line e l)).
Proof.
  unfold comment_or_header_end.
  destruct (matched (search comm_re line)).
  - destruct (search tool_units_re line).
    + apply allegro_comment_grows.
    + apply altium_comment_grows.
  - destruct (matched (search hend_re line)).
    + apply header_end_grows.
    + apply grows_refl.
Qed.

Lemma measuring_mode_grows m e l :
  grows e (excellon_of (measuring_mode m e l)).
Proof. unfold measuring_mode. split_cases; grows_tac. Qed.

Lemma units_directive_grows m e l :
  grows e (excellon_of (units_directive m e l)).
Proof.
  unfold units_directive.
  destruct (group m 1) as [g|]; [|grows_tac].
  destruct (if String.eqb g "METRIC" then _ else _) as [u|]; [|grows_tac].
  cbn zeta.
  match goal with |- context [convert_units _ ?x] => set (e1 := x) end.
  assert (grows e e1) as H.
  { subst e1. cbn -[convert_units]. split_cases; grows_tac. }
  cbn [excellon_of].
  eapply grows_trans; [exact H|apply convert_units_grows].
Qed.

Lemma tool_change_grows line m e l :
  grows e (excellon_of (tool_change line m e l)).
Proof.
  unfold tool_change. cbn [headerless set_current_tool].
  destruct (headerless l); [|grows_tac].
  destruct (search toolset_hl_re line) as [m'|]; [|grows_tac].
  destruct (group m' 2 ≫= Py.float) as [[d|n]|]; grows_tac.
Qed.

Lemma allegro_tool_change_grows e l :
  grows e (excellon_of (allegro_tool_change e l)).
Proof. unfold allegro_tool_change. grows_tac. Qed.

Lemma header_grows line e l : grows e (flow_excellon (header line e l)).
Proof.
  unfold header.
  destruct (search toolset_re line); [split_cases; grows_tac|].
  destruct (match_ units_re line); [apply units_directive_grows|].
  split_cases; grows_tac.
Qed.

Lemma slot_line_grows decode start stop e l :
  grows e (excellon_of (slot_line decode start stop e l)).
Proof. unfold slot_line. split_cases; grows_tac. Qed.

Lemma drilled_slot_grows m e l : grows e (excellon_of (drilled_slot m e l)).
Proof.
  unfold drilled_slot.
  destruct (group m 1) as [s|]; [|grows_tac].
  destruct (group m 2) as [s0|]; [|grows_tac].
  destruct (matched (search coordsnoperiod_re s)).
  - eapply grows_trans; [|apply slot_line_grows]. grows_tac.
  - destruct (matched (search coordsperiod_re s)).
    + eapply grows_trans; [|apply slot_line_grows]. grows_tac.
    + grows_tac.
Qed.

Lemma place_feature_grows line x y e l :
  grows e (flow_excellon (place_feature line x y e l)).
Proof.
  unfold place_feature.
  destruct (matched (search g00_re line)); [grows_tac|].
  destruct ((routing_flag e =? 0)%Z && matched (search g01_re line)).
  - cbn [local_value]. split_cases; grows_tac.
  - destruct (match_routing_start e); [apply grows_refl|].
    destruct (match_routing_stop e); [apply grows_refl|].
    destruct (repeat_ l =? 0)%Z; grows_tac.
Qed.

Ltac via_place_grows :=
  match goal with
  | |- grows ?e (flow_excellon (place_feature ?line ?x ?y ?e1 ?l1)) =>
      apply (grows_trans e e1); [grows_step | apply place_feature_grows]
  | |- grows _ _ => grows_tac
  end.

Lemma coords_noperiod_grows line m e l :
  grows e (flow_excellon (coords_noperiod line m e l)).
Proof.
  unfold coords_noperiod, read_x, read_y, read_repeat.
  destruct (search repeat_re line);
    destruct (finite (parse_number e (group m 1))) as [[x|]| | |];
    destruct (finite (parse_number e (group m 2))) as [[y|]| | |];
    cbn [current_x current_y set_repeat_ set_current_x set_current_y
         set_repeating_x set_repeating_y];
    repeat match goal with
      | |- context [current_x l] => destruct (current_x l)
      | |- context [current_y l] => destruct (current_y l)
      end; via_place_grows.
Qed.

Lemma coords_period_grows line m e l :
  grows e (flow_excellon (coords_period line m e l)).
Proof.
  unfold coords_period, read_x, read_y, read_repeat.
  destruct (search repeat_re line);
    destruct (float_arg (Returns (group m 1))) as [[x|]| | |];
    destruct (float_arg (Returns (group m 2))) as [[y|]| | |];
    cbn [current_x current_y set_repeat_ set_current_x set_current_y
         set_repeating_x set_repeating_y];
    repeat match goal with
      | |- context [current_x l] => destruct (current_x l)
      | |- context [current_y l] => destruct (current_y l)
      end; via_place_grows.
Qed.

Lemma coordinates_grows line e l :
  grows e (flow_excellon (coordinates line e l)).
Proof.
  unfold coordinates.
  destruct (search coordsnoperiod_re line) as [m|].
  - pose proof (coords_noperiod_grows line m e l) as Hn.
    destruct (coords_noperiod line m e l) as [r|e1 l1]; [exact Hn|].
    cbn [flow_excellon] in Hn.
    destruct (search coordsperiod_re line) as [m'|]; [|exact Hn].
    eapply grows_trans; [exact Hn|]. apply coords_period_grows.
  - destruct (search coordsperiod_re line) as [m'|].
    + apply coords_period_grows.
    + apply grows_refl.
Qed.

Lemma body_grows line e l : grows e (flow_excellon (body line e l)).
Proof.
  unfold body.
  destruct (search toolsel_re line) as [m|]; [apply tool_change_grows|].
  destruct (allegro_warning l && _); [apply allegro_tool_change_grows|].
  destruct (search slots_re line) as [m|]; [apply drilled_slot_grows|].
  apply coordinates_grows.
Qed.

Lemma after_comment_grows line e l :
  grows e (excellon_of (after_comment line e l)).
Proof.
  unfold after_comment.
  destruct (match_ meas_re line) as [m|]; [apply measuring_mode_grows|].
  assert (grows e
            (flow_excellon (if negb (in_header l) then body line e l else Fall e l)))
    as Hb.
  { destruct (negb (in_header l)); [apply body_grows|apply grows_refl]. }
  destruct (if negb (in_header l) then body line e l else Fall e l)
    as [r|e1 l1]; [exact Hb|].
  cbn [flow_excellon] in Hb.
  eapply grows_trans; [exact Hb|].
  assert (grows e1
            (flow_excellon (if in_header l1 then header line e1 l1 else Fall e1 l1)))
    as Hh.
  { destruct (in_header l1); [apply header_grows|apply grows_refl]. }
  destruct (if in_header l1 then header line e1 l1 else Fall e1 l1)
    as [r|e2 l2]; [exact Hh|].
  cbn [flow_excellon] in Hh.
  eapply grows_trans; [exact Hh|].
  destruct (match_ units_re line) as [m|].
  - apply units_directive_grows.
  - apply grows_refl.
Qed.

Lemma parse_line_grows abort_flag raw e l :
  grows (recorded abort_flag raw e) (excellon_of (parse_line abort_flag raw e l)).
Proof.
  rewrite parse_line_unfold. unfold recorded.
  destruct abort_flag; [apply grows_refl|].
  cbv zeta.
  destruct (matched (search detect_gcode_re _)); [grows_tac|].
  destruct (matched (search hbegin_re _)); [apply grows_refl|].
  destruct (matched (search allegro_hbegin_re _)); [apply grows_refl|].
  match goal with |- context [comment_or_header_end ?ln ?e1 ?l1] =>
    pose proof (comment_or_header_end_grows ln e1 l1) as Hc;
    destruct (comment_or_header_end ln e1 l1) as [r|e2 l2];
    cbn [flow_excellon] in Hc
  end.
  - exact Hc.
  - eapply grows_trans; [exact Hc|apply after_comment_grows].
Qed.

Lemma keeps_refl e : keeps e e.
Proof. unfold keeps. repeat split; auto using messages_kept_refl. Qed.

Lemma keeps_trans e1 e2 e3 : keeps e1 e2 -> keeps e2 e3 -> keeps e1 e3.
Proof.
  unfold keeps. intros (A1 & A2 & A3 & A4 & A6 & A7 & A8)
                       (B1 & B2 & B3 & B4 & B6 & B7 & B8).
  repeat split; try congruence; try lia; eauto using messages_kept_trans.
Qed.

Lemma append_empty (s : string) : s +:+ "" = s.
Proof.
  induction s as [|a s IH]; [reflexivity|].
  rewrite append_cons, IH. reflexivity.
Qed.

Lemma append_assoc (s t u : string) : (s +:+ t) +:+ u = s +:+ (t +:+ u).
Proof.
  induction s as [|a s IH]; [reflexivity|].
  rewrite !append_cons, IH. reflexivity.
Qed.

(** one line: the object keeps what it had, and the text read grows by
    the raw line unless the parse is aborted at this line *)
Lemma parse_line_keeps abort_flag raw e l :
  keeps e (excellon_of (parse_line abort_flag raw e l)) /\
  source_file (excellon_of (parse_line abort_flag raw e l))
  = source_file e +:+ (if abort_flag then "" else raw).
Proof.
  pose proof (parse_line_grows abort_flag raw e l) as H.
  unfold grows in H.
  destruct H as (H1 & H2 & H3 & H4 & H5 & H6 & H7 & H8).
  unfold recorded in *.
  destruct abort_flag; cbn in H1, H2, H3, H5, H6, H7, H8.
  - split; [|rewrite append_empty; exact H5].
    unfold keeps. repeat split; assumption.
  - split; [|exact H5].
    unfold keeps. repeat split; assumption.
Qed.

(** the loop: what it keeps, and how much of the input it records *)
Lemma parse_loop_keeps abort lines : forall i e l,
  exists k, (k <= length lines)%nat /\
    keeps e (excellon_of (parse_loop abort i lines e l)) /\
    source_file (excellon_of (parse_loop abort i lines e l))
    = source_file e +:+ joined (take k lines) /\
    (forall e' l', parse_loop abort i lines e l = Continue e' l' ->
                   k = length lines).
Proof.
  induction lines as [|raw lines IH]; intros i e l; cbn [parse_loop].
  - exists 0%nat. split; [reflexivity|]. split; [apply keeps_refl|].
    split; [cbn; rewrite append_empty; reflexivity|reflexivity].
  - destruct (parse_line_keeps (abort i) raw e l) as [Hk Hs].
    destruct (parse_line (abort i) raw e l) as [e1 l1|e1 l1|e1 l1|e1 l1] eqn:Hr;
      cbn [excellon_of] in Hk, Hs.
    + destruct (IH (S i) e1 l1) as (k & Hle & Hk' & Hs' & Hall).
      assert (abort i = false) as Hab.
      { destruct (abort i); [|reflexivity].
        rewrite parse_line_unfold in Hr. discriminate Hr. }
      rewrite Hab in Hs.
      exists (S k). split; [cbn; lia|].
      split; [eapply keeps_trans; eassumption|].
      split; [|intros e' l' H; cbn; f_equal; eapply Hall; exact H].
      rewrite Hs', Hs. cbn [take joined]. apply append_assoc.
    + exists (if abort i then 0 else 1)%nat.
      split; [destruct (abort i); cbn; lia|].
      split; [exact Hk|]. split; [|discriminate].
      cbn [excellon_of]. rewrite Hs.
      destruct (abort i); cbn [take joined]; rewrite ?append_empty; reflexivity.
    + exists (if abort i then 0 else 1)%nat.
      split; [destruct (abort i); cbn; lia|].
      split; [exact Hk|]. split; [|discriminate].
      cbn [excellon_of]. rewrite Hs.
      destruct (abort i); cbn [take joined]; rewrite ?append_empty; reflexivity.
    + exists (if abort i then 0 else 1)%nat.
      split; [destruct (abort i); cbn; lia|].
      split; [exact Hk|]. split; [|discriminate].
      cbn [excellon_of]. rewrite Hs.
      destruct (abort i); cbn [take joined]; rewrite ?append_empty; reflexivity.
Qed.

Lemma parse_lines_state abort lines e :
  keeps (excellon_of (parse_loop abort 0 lines e initial_locals))
    (snd (parse_lines abort lines e)) /\
  source_file (snd (parse_lines abort lines e))
  = source_file (excellon_of (parse_loop abort 0 lines e initial_locals)).
Proof.
  unfold parse_lines.
  destruct (parse_loop abort 0 lines e initial_locals) as [e1 l1|e1 l1|e1 l1|e1 l1];
    cbn [snd excellon_of]; split; try apply keeps_refl; try reflexivity.
  unfold keeps. cbn. repeat split; auto.
  exists [parser_error_msg l1]. reflexivity.
Qed.

(** X14.  [parse_lines] never takes anything away: whatever the lines are
    and however the parse ends, the object has at least as many drills and
    slots as before, every tool name of before is still a tool name, the
    messages sent before are still there in front of the new ones, and
    the resolution, the default diameter and the default units of the
    object are untouched. *)
Theorem parse_lines_never_removes (abort : nat -> bool) (lines : list string)
    (e : Excellon) :
  let e' := snd (parse_lines abort lines e) in
  (length (drills e) <= length (drills e'))%nat /\
  (length (slots e) <= length (slots e'))%nat /\
  (forall name, is_Some (tools e !! name) -> is_Some (tools e' !! name)) /\
  (exists msgs, inform e' = (inform e ++ msgs)%list) /\
  geo_steps_per_circle e' = geo_steps_per_circle e /\
  toolless_diam e' = toolless_diam e /\
  excellon_units e' = excellon_units e.
Proof.
  intros e'. subst e'.
  destruct (parse_loop_keeps abort lines 0 e initial_locals)
    as (k & _ & Hk & _).
  destruct (parse_lines_state abort lines e) as [Hk' _].
  exact (keeps_trans _ _ _ Hk Hk').
Qed.

(** X15.  [parse_lines] records in [source_file] the raw lines that it
    reads, in their order and nothing else: after the call the attribute
    is the text of before followed by the first [k] lines of the input,
    for some [k]; when the loop runs to the end of the input, these are
    all the lines. *)
Theorem parse_lines_records_source (abort : nat -> bool) (lines : list string)
    (e : Excellon) :
  exists k, (k <= length lines)%nat /\
    source_file (snd (parse_lines abort lines e))
    = source_file e +:+ joined (take k lines) /\
    (forall e' l',
       parse_loop abort 0 lines e initial_locals = Continue e' l' ->
       k = length lines).
Proof.
  destruct (parse_loop_keeps abort lines 0 e initial_locals)
    as (k & Hle & _ & Hs & Hall).
  destruct (parse_lines_state abort lines e) as [_ Hs'].
  exists k. split; [exact Hle|]. split; [|exact Hall].
  rewrite Hs'. exact Hs.
Qed.

Local Opaque convert_units.








(** ** The repeat loop *)

Local Transparent repeat_holes.

